(** * Royale Poker: the poker engine of [src/hooks/usePokerGame.ts]

    A shallow embedding of the deterministic shuffle, the hand evaluator and
    the betting state machine ([startGame], [performAction]), followed by the
    properties of the specification that concern them.

    Conventions of the embedding.
    - A JavaScript number that the engine only ever uses as an integer
      (chips, bets, pot, indices, the generator state) is a [Z].  Where the
      source computes on numbers beyond 2^53 (the product inside
      [SeededRandom.next]) the binary64 rounding is written out ([js_double]).
    - A JavaScript array whose reads may fall outside its bounds is a
      [list (option _)]: [None] is [undefined].
    - Strings are [string]; the source compares them with [===].
    - An object spread [{...p, f: v}] is written with the [with_*] setters
      of the record. *)

From Stdlib Require Import ZArith QArith Qround String Ascii DecimalString.
From Stdlib Require Import Uint63 PrimFloat SpecFloat FloatOps.
From stdpp Require Import base list sorting gmap strings.
From Stdlib Require Import Lia.
From Stdlib Require OrderedTypeEx.

#[local] Open Scope string_scope.
#[local] Open Scope Z_scope.

(** ** JavaScript numbers *)

Module Js.

(** Rounding of a non-negative integer [m] to a multiple of [2^e], to
    nearest, ties to even: what binary64 does to an integer that needs more
    than 53 bits. *)
Definition round_nearest_even (m e : Z) : Z :=
  let q := m / 2 ^ e in
  let r := m mod 2 ^ e in
  let half := 2 ^ (e - 1) in
  if r <? half then q * 2 ^ e
  else if half <? r then (q + 1) * 2 ^ e
  else if Z.even q then q * 2 ^ e else (q + 1) * 2 ^ e.

(** The binary64 value of an integer result: exact below 2^53, rounded to 53
    significant bits above (the numbers of the engine stay far below the
    range where binary64 overflows). *)
Definition js_double (x : Z) : Z :=
  let m := Z.abs x in
  if m <? 2 ^ 53 then x
  else Z.sgn x * round_nearest_even m (Z.log2 m - 52).

(** [a * b] and [a + b] on integer-valued numbers. *)
Definition mul (a b : Z) : Z := js_double (a * b).
Definition add (a b : Z) : Z := js_double (a + b).

(** [ToInt32]: reduction modulo 2^32 into [-2^31, 2^31). *)
Definition toInt32 (x : Z) : Z := (x + 2 ^ 31) mod 2 ^ 32 - 2 ^ 31.

(** [a & b], [a << n] on numbers: both operands go through [ToInt32]. *)
Definition band (a b : Z) : Z := Z.land (toInt32 a) (toInt32 b).
Definition shl (a n : Z) : Z := toInt32 (Z.shiftl (toInt32 a) n).

(** [a % b] keeps the sign of the dividend. *)
Definition rem (a b : Z) : Z := Z.rem a b.

(** [arr[i]] for a number [i]: [undefined] outside the array. *)
Definition index {A} (arr : list A) (i : Z) : option A :=
  if i <? 0 then None else arr !! Z.to_nat i.

(** [arr[i] = v] on an array with possibly undefined entries: inside the
    array the entry is replaced, beyond its end the array grows and the
    entries in between are undefined. *)
Definition set {A} (arr : list (option A)) (i : nat) (v : option A)
  : list (option A) :=
  if (i <? length arr)%nat then <[i := v]> arr
  else arr ++ replicate (i - length arr) None ++ [v].

(** [arr[i]] where the array itself may hold [undefined]. *)
Definition get {A} (arr : list (option A)) (i : Z) : option A :=
  mjoin (index arr i).

(** [arr.sort(cmp)]: a stable insertion sort; [cmp a b <= 0] keeps [a]
    before [b].  Every comparator of the source is a total preorder, for
    which all stable sorts agree. *)
Fixpoint sort_insert {A} (cmp : A -> A -> Z) (x : A) (l : list A) : list A :=
  match l with
  | [] => [x]
  | y :: l' => if cmp x y <=? 0 then x :: l else y :: sort_insert cmp x l'
  end.

Definition sort {A} (cmp : A -> A -> Z) (l : list A) : list A :=
  foldr (sort_insert cmp) [] l.

(** [arr.findIndex(f)], [-1] when nothing matches. *)
Fixpoint findIndex {A} (f : A -> bool) (l : list A) : Z :=
  match l with
  | [] => -1
  | x :: l' =>
      if f x then 0
      else let r := findIndex f l' in if r <? 0 then -1 else r + 1
  end.

(** [arr.includes(x)], [arr.indexOf(x)] on strings. *)
Definition includes (l : list string) (x : string) : bool :=
  existsb (String.eqb x) l.

Definition indexOf (l : list string) (x : string) : Z :=
  findIndex (String.eqb x) l.

(** [s.toLowerCase()] on the ASCII letters. *)
Definition lower_ascii (c : ascii) : ascii :=
  let n := N_of_ascii c in
  if ((65 <=? n) && (n <=? 90))%N then ascii_of_N (n + 32) else c.

Fixpoint toLowerCase (s : string) : string :=
  match s with
  | EmptyString => EmptyString
  | String c s' => String (lower_ascii c) (toLowerCase s')
  end.

(** The decimal text of an integer, as a template literal prints it. *)
Definition numberToString (n : Z) : string :=
  NilZero.string_of_int (Z.to_int n).

(** [arr.join(sep)]. *)
Fixpoint join (sep : string) (l : list string) : string :=
  match l with
  | [] => ""
  | [x] => x
  | x :: l' => x ++ sep ++ join sep l'
  end.

End Js.

(** ** Randomness and card shuffling *)

(** [str.charCodeAt(i)] for every [i]: the code units of the string (the
    bytes, for the ASCII text the seed string is made of). *)
Definition charCodes (str : string) : list Z :=
  map (fun c => Z.of_N (N_of_ascii c)) (list_ascii_of_string str).

(** [hashString]: [hash = ((hash << 5) - hash) + char; hash = hash & hash]
    for every code unit, then [Math.abs]. *)
Definition hashStep (hash char : Z) : Z :=
  let hash := Js.add (Js.add (Js.shl hash 5) (- hash)) char in
  Js.band hash hash.

Definition hashString (str : string) : Z :=
  Z.abs (fold_left hashStep (charCodes str) 0).

Module SeededRandom.

(** The object holds one field, [seed]; a method returns the new object
    state next to its result. *)
Definition t := Z.

Definition create (seed : Z) : t := seed.

(** [this.seed = (this.seed * 1103515245 + 12345) & 0x7fffffff;
     return this.seed / 0x7fffffff].
    The product and the sum are rounded as binary64 rounds them: for a seed
    above 2^23 the product needs more than 53 bits.  The quotient is kept as
    the exact rational: its binary64 rounding, and that of the product with
    [max] in [nextInt], are off by less than 2^-46, and [seed * max] is at
    least 1/0x7fffffff away from every multiple of the prime 0x7fffffff it
    does not hit exactly, so [Math.floor] sees the same integer part.
    [Binary64] below repeats the generator on machine numbers. *)
Definition next (this : t) : t * Q :=
  let seed := Js.band (Js.add (Js.mul this 1103515245) 12345) 0x7fffffff in
  (seed, inject_Z seed / inject_Z 0x7fffffff)%Q.

(** [Math.floor(this.next() * max)]. *)
Definition nextInt (this : t) (max : Z) : t * Z :=
  let '(this', r) := next this in
  (this', Qfloor (r * inject_Z max)).

End SeededRandom.

Module Card.
Record t := mk { rank : string; suit : string; value : Z }.
End Card.

Definition suits : list string := ["hearts"; "diamonds"; "clubs"; "spades"].
Definition ranks : list string :=
  ["2"; "3"; "4"; "5"; "6"; "7"; "8"; "9"; "10"; "J"; "Q"; "K"; "A"].

(** [createDeck]: for every suit, the thirteen ranks with values 2..14. *)
Definition createDeck : list Card.t :=
  flat_map
    (fun suit => imap (fun i rank => Card.mk rank suit (Z.of_nat i + 2)) ranks)
    suits.

(** [[deck[i], deck[j]] = [deck[j], deck[i]]]: both reads first, then the
    write to [i], then the write to [j] (a write at a negative index would
    add a property to the array object and leave its elements alone). *)
Definition swap (deck : list (option Card.t)) (i : nat) (j : Z)
  : list (option Card.t) :=
  let dj := Js.get deck j in
  let di := Js.get deck (Z.of_nat i) in
  if j <? 0 then Js.set deck i dj
  else Js.set (Js.set deck i dj) (Z.to_nat j) di.

(** The loop [for (i = deck.length - 1; i > 0; i--)], entered with [i]. *)
Fixpoint fisherYates (i : nat) (rng : SeededRandom.t)
  (deck : list (option Card.t)) : list (option Card.t) :=
  match i with
  | O => deck
  | S i' =>
      let '(rng', j) := SeededRandom.nextInt rng (Z.of_nat i + 1) in
      fisherYates i' rng' (swap deck i j)
  end.

Definition shuffleDeck (seed : Z) : list (option Card.t) :=
  let deck := map Some createDeck in
  fisherYates (length deck - 1) (SeededRandom.create seed) deck.

(** [generateHandSeed]: the hash of
    [`${tableId}:${handNumber}:${sortedPlayers}`].  The default [sort()]
    orders strings by code unit. *)
Definition compareStrings (a b : string) : Z :=
  match String.compare a b with Lt => -1 | Eq => 0 | Gt => 1 end.

Definition generateHandSeed (tableId : string) (handNumber : Z)
  (playerAddresses : list string) : Z :=
  let sortedPlayers := Js.join "," (Js.sort compareStrings playerAddresses) in
  let seedString :=
    (tableId ++ ":" ++ Js.numberToString handNumber ++ ":" ++ sortedPlayers)%string in
  hashString seedString.

Module DealtCards.
Record t := mk {
  playerCards : list (list (option Card.t));
  communityCards : list (option Card.t)
}.
End DealtCards.

(** The loop of [dealCards] that gives two cards to each player; the second
    component is [cardIndex] after the loop. *)
Fixpoint dealPlayerCards (deck : list (option Card.t)) (playerCount : nat)
  (cardIndex : Z) : list (list (option Card.t)) * Z :=
  match playerCount with
  | O => ([], cardIndex)
  | S n =>
      let hole := [Js.get deck cardIndex; Js.get deck (cardIndex + 1)] in
      let '(rest, cardIndex') := dealPlayerCards deck n (cardIndex + 2) in
      (hole :: rest, cardIndex')
  end.

(** [dealCards]: after the hole cards, burn one and deal the flop, burn one
    and deal the turn, burn one and deal the river. *)
Definition dealCards (deck : list (option Card.t)) (playerCount : nat)
  : DealtCards.t :=
  let '(playerCards, cardIndex) := dealPlayerCards deck playerCount 0 in
  let cardIndex := cardIndex + 1 in
  let flop :=
    [Js.get deck cardIndex; Js.get deck (cardIndex + 1);
     Js.get deck (cardIndex + 2)] in
  let cardIndex := cardIndex + 3 in
  let cardIndex := cardIndex + 1 in
  let turn := Js.get deck cardIndex in
  let cardIndex := cardIndex + 1 in
  let cardIndex := cardIndex + 1 in
  let river := Js.get deck cardIndex in
  DealtCards.mk playerCards (flop ++ [turn; river]).

(** ** Hand evaluation *)

Module HAND_RANKS.
Definition HIGH_CARD : Z := 1.
Definition ONE_PAIR : Z := 2.
Definition TWO_PAIR : Z := 3.
Definition THREE_OF_A_KIND : Z := 4.
Definition STRAIGHT : Z := 5.
Definition FLUSH : Z := 6.
Definition FULL_HOUSE : Z := 7.
Definition FOUR_OF_A_KIND : Z := 8.
Definition STRAIGHT_FLUSH : Z := 9.
Definition ROYAL_FLUSH : Z := 10.
End HAND_RANKS.

Definition getHandRankName (rank : Z) : string :=
  match rank with
  | 1 => "High Card"
  | 2 => "One Pair"
  | 3 => "Two Pair"
  | 4 => "Three of a Kind"
  | 5 => "Straight"
  | 6 => "Flush"
  | 7 => "Full House"
  | 8 => "Four of a Kind"
  | 9 => "Straight Flush"
  | 10 => "Royal Flush"
  | _ => "Unknown"
  end.

(** [getCardValue]: [values[rank] || 0]. *)
Definition cardValues : list (string * Z) :=
  [("2", 2); ("3", 3); ("4", 4); ("5", 5); ("6", 6); ("7", 7); ("8", 8);
   ("9", 9); ("10", 10); ("J", 11); ("Q", 12); ("K", 13); ("A", 14)].

Definition getCardValue (rank : string) : Z :=
  match find (fun kv => String.eqb kv.1 rank) cardValues with
  | Some kv => kv.2
  | None => 0
  end.

(** The value of an evaluated hand, [{ rank, highCards }]. *)
Module Hand.
Record t := mk { rank : Z; highCards : list Z }.
End Hand.

Definition descending (a b : Z) : Z := b - a.

(** [[...new Set(values)]]: the first occurrence of every value, in order. *)
Fixpoint uniqueOf (seen values : list Z) : list Z :=
  match values with
  | [] => []
  | v :: rest =>
      if existsb (Z.eqb v) seen then uniqueOf seen rest
      else v :: uniqueOf (v :: seen) rest
  end.

(** [counts[v] = (counts[v] || 0) + 1] on an object with integer keys, which
    [Object.entries] lists in ascending key order: an association list kept
    sorted by key. *)
Fixpoint countUp (v : Z) (counts : list (Z * Z)) : list (Z * Z) :=
  match counts with
  | [] => [(v, 1)]
  | (k, n) :: rest =>
      if v =? k then (k, n + 1) :: rest
      else if v <? k then (v, 1) :: counts
      else (k, n) :: countUp v rest
  end.

(** The comparator [b[1] - a[1] || Number(b[0]) - Number(a[0])]. *)
Definition byCountThenValue (a b : Z * Z) : Z :=
  if b.2 - a.2 =? 0 then b.1 - a.1 else b.2 - a.2.

(** [nth k l] with [undefined] read as [0], for [x[k] || 0]. *)
Definition orZero (o : option Z) : Z := default 0 o.

(** [evaluate5Cards].  [None] is the [TypeError] of reading an entry of
    [countValues] that does not exist. *)
Definition evaluate5Cards (cards : list Card.t) : option Hand.t :=
  let values := Js.sort descending (map (fun c => getCardValue (Card.rank c)) cards) in
  let suits := map Card.suit cards in
  let isFlush :=
    match suits with
    | [] => true
    | s0 :: _ => forallb (fun s => String.eqb s s0) suits
    end in
  let uniqueValues := Js.sort descending (uniqueOf [] values) in
  let u := fun k : nat => orZero (uniqueValues !! k) in
  let '(isStraight, straightHigh) :=
    if (length uniqueValues =? 5)%nat then
      let '(isStraight, straightHigh) :=
        if u 0%nat - u 4%nat =? 4 then (true, u 0%nat) else (false, 0) in
      if (u 0%nat =? 14) && (u 1%nat =? 5) && (u 4%nat =? 2) then (true, 5)
      else (isStraight, straightHigh)
    else (false, 0) in
  let counts := fold_left (fun counts v => countUp v counts) values [] in
  let countValues := Js.sort byCountThenValue counts in
  if isStraight && isFlush then
    if straightHigh =? 14 then Some (Hand.mk HAND_RANKS.ROYAL_FLUSH [14])
    else Some (Hand.mk HAND_RANKS.STRAIGHT_FLUSH [straightHigh])
  else
    c0 ← countValues !! 0%nat;
    if c0.2 =? 4 then
      c1 ← countValues !! 1%nat;
      Some (Hand.mk HAND_RANKS.FOUR_OF_A_KIND [c0.1; c1.1])
    else
      isFullHouse ←
        (if c0.2 =? 3 then c1 ← countValues !! 1%nat; Some (c1.2 =? 2)
         else Some false);
      if isFullHouse : bool then
        c1 ← countValues !! 1%nat;
        Some (Hand.mk HAND_RANKS.FULL_HOUSE [c0.1; c1.1])
      else if isFlush then Some (Hand.mk HAND_RANKS.FLUSH values)
      else if isStraight then Some (Hand.mk HAND_RANKS.STRAIGHT [straightHigh])
      else if c0.2 =? 3 then
        Some (Hand.mk HAND_RANKS.THREE_OF_A_KIND
                (c0.1 :: filter (fun v => v ≠ c0.1) values))
      else
        isTwoPair ←
          (if c0.2 =? 2 then c1 ← countValues !! 1%nat; Some (c1.2 =? 2)
           else Some false);
        if isTwoPair : bool then
          c1 ← countValues !! 1%nat;
          let pairs := Js.sort descending [c0.1; c1.1] in
          let p := fun k : nat => orZero (pairs !! k) in
          let kicker :=
            orZero (find (fun v => negb (v =? p 0%nat) && negb (v =? p 1%nat)) values) in
          Some (Hand.mk HAND_RANKS.TWO_PAIR (pairs ++ [kicker]))
        else if c0.2 =? 2 then
          let pairValue := c0.1 in
          let kickers := filter (fun v => v ≠ pairValue) values in
          Some (Hand.mk HAND_RANKS.ONE_PAIR (pairValue :: kickers))
        else Some (Hand.mk HAND_RANKS.HIGH_CARD values).

(** [getCombinations]: the subsets of [size] cards, in the order of the
    recursive [combine(start, combo)]. *)
Fixpoint getCombinations {A} (cards : list A) (size : nat) : list (list A) :=
  match size, cards with
  | O, _ => [[]]
  | S _, [] => []
  | S k, c :: rest =>
      map (cons c) (getCombinations rest k) ++ getCombinations rest size
  end.

(** The inner loop of [evaluateBestHand]: does [hand] beat [bestHand] of the
    same rank on its high cards, scanning from index [i]? *)
Fixpoint beatsOnHighCards (handHigh : list Z) (bestHigh : list Z) (i : nat) : bool :=
  match handHigh with
  | [] => false
  | h :: rest =>
      let b := orZero (bestHigh !! i) in
      if b <? h then true
      else if h <? b then false
      else beatsOnHighCards rest bestHigh (S i)
  end.

(** Reading [c.rank] of an undefined card throws. *)
Definition definedCards (cards : list (option Card.t)) : option (list Card.t) :=
  mapM id cards.

Definition keepBetter (bestHand : Hand.t) (hand : Hand.t) : Hand.t :=
  if Hand.rank bestHand <? Hand.rank hand then hand
  else if Hand.rank hand =? Hand.rank bestHand then
    if beatsOnHighCards (Hand.highCards hand) (Hand.highCards bestHand) 0
    then hand else bestHand
  else bestHand.

(** [evaluateBestHand]: the best of all five-card hands out of the hole and
    community cards; [None] when an evaluation throws. *)
Definition evaluateBestHand (holeCards communityCards : list (option Card.t))
  : option Hand.t :=
  let allCards := (holeCards ++ communityCards)%list in
  let combinations := getCombinations allCards 5 in
  fold_left
    (fun bestHand combo =>
       bestHand ← bestHand;
       cards ← definedCards combo;
       hand ← evaluate5Cards cards;
       Some (keepBetter bestHand hand))
    combinations (Some (Hand.mk 0 [0])).

(** The loop of [compareHands] over the high cards, from index [i], with
    [n] indices left. *)
Fixpoint compareHighCards (high1 high2 : list Z) (i n : nat) : Z :=
  match n with
  | O => 0
  | S n' =>
      let h1 := orZero (high1 !! i) in
      let h2 := orZero (high2 !! i) in
      if h1 =? h2 then compareHighCards high1 high2 (S i) n'
      else if h2 <? h1 then 1 else -1
  end.

(** [compareHands]: 1 if [hand1] wins, -1 if [hand2] wins, 0 on a tie. *)
Definition compareHands (hand1 hand2 : Hand.t) : Z :=
  if Hand.rank hand1 =? Hand.rank hand2 then
    compareHighCards (Hand.highCards hand1) (Hand.highCards hand2) 0
      (Nat.max (length (Hand.highCards hand1)) (length (Hand.highCards hand2)))
  else if Hand.rank hand2 <? Hand.rank hand1 then 1 else -1.

(** ** Table state *)

Module PlayerInfo.
Record t := mk {
  address : string;
  name : string;
  chips : Z;
  status : string;
  currentBet : Z;
  chainId : option string
}.

Definition with_status (v : string) (p : t) : t :=
  mk (address p) (name p) (chips p) v (currentBet p) (chainId p).
Definition with_currentBet (v : Z) (p : t) : t :=
  mk (address p) (name p) (chips p) (status p) v (chainId p).
(** [{ ...p, chips, currentBet, status }]. *)
Definition with_stake (newChips newBet : Z) (newStatus : string) (p : t) : t :=
  mk (address p) (name p) newChips newStatus newBet (chainId p).
End PlayerInfo.

Module Winner.
Record t := mk {
  name : string;
  amount : Z;
  reason : string;
  handRank : option string
}.
End Winner.

Module ShowdownCards.
Record t := mk {
  playerName : string;
  cards : list (option Card.t);
  handRank : string
}.
End ShowdownCards.

(** [PokerGameState].  The [leaderboard] field, which [broadcastState] fills
    from a cache outside the engine, is left out. *)
Module PokerGameState.
Record t := mk {
  tableId : string;
  tableName : string;
  players : list PlayerInfo.t;
  pot : Z;
  communityCards : list (option Card.t);
  phase : string;
  currentBet : Z;
  dealerPosition : Z;
  currentPlayerIndex : Z;
  playerCount : Z;
  handNumber : Z;
  handSeed : Z;
  dealtCards : option DealtCards.t;
  winner : option Winner.t;
  showdownCards : option (list ShowdownCards.t)
}.
End PokerGameState.

Definition getDefaultState (tableId : string) : PokerGameState.t :=
  {| PokerGameState.tableId := tableId;
     PokerGameState.tableName := "Poker Table";
     PokerGameState.players := [];
     PokerGameState.pot := 0;
     PokerGameState.communityCards := [];
     PokerGameState.phase := "Waiting";
     PokerGameState.currentBet := 0;
     PokerGameState.dealerPosition := 0;
     PokerGameState.currentPlayerIndex := 0;
     PokerGameState.playerCount := 0;
     PokerGameState.handNumber := 0;
     PokerGameState.handSeed := 0;
     PokerGameState.dealtCards := None;
     PokerGameState.winner := None;
     PokerGameState.showdownCards := None |}.

(** The state [joinTable] broadcasts when it seats a new player:
    [{ ...currentState, players: [...players, newPlayer],
       playerCount: players.length + 1 }]. *)
Definition seatPlayer (newPlayer : PlayerInfo.t) (s : PokerGameState.t)
  : PokerGameState.t :=
  {| PokerGameState.tableId := PokerGameState.tableId s;
     PokerGameState.tableName := PokerGameState.tableName s;
     PokerGameState.players := PokerGameState.players s ++ [newPlayer];
     PokerGameState.pot := PokerGameState.pot s;
     PokerGameState.communityCards := PokerGameState.communityCards s;
     PokerGameState.phase := PokerGameState.phase s;
     PokerGameState.currentBet := PokerGameState.currentBet s;
     PokerGameState.dealerPosition := PokerGameState.dealerPosition s;
     PokerGameState.currentPlayerIndex := PokerGameState.currentPlayerIndex s;
     PokerGameState.playerCount := Z.of_nat (length (PokerGameState.players s)) + 1;
     PokerGameState.handNumber := PokerGameState.handNumber s;
     PokerGameState.handSeed := PokerGameState.handSeed s;
     PokerGameState.dealtCards := PokerGameState.dealtCards s;
     PokerGameState.winner := PokerGameState.winner s;
     PokerGameState.showdownCards := PokerGameState.showdownCards s |}.

(** ** Starting a hand *)

Inductive StartResult :=
| StartError (message : string)
| StartBroadcast (newState : PokerGameState.t).

Definition smallBlindAmount : Z := 10.
Definition bigBlindAmount : Z := 20.

(** The [players.map((p, idx) => ...)] of [startGame] that posts the blinds. *)
Definition postBlinds (smallBlindPos bigBlindPos : Z) (idx : nat)
  (p : PlayerInfo.t) : PlayerInfo.t :=
  if Z.of_nat idx =? smallBlindPos then
    PlayerInfo.with_stake (PlayerInfo.chips p - smallBlindAmount)
      smallBlindAmount "Active" p
  else if Z.of_nat idx =? bigBlindPos then
    PlayerInfo.with_stake (PlayerInfo.chips p - bigBlindAmount)
      bigBlindAmount "Active" p
  else PlayerInfo.with_stake (PlayerInfo.chips p) 0 "Active" p.

Definition startGame (tableId : string) (currentState : PokerGameState.t)
  : StartResult :=
  let players := PokerGameState.players currentState in
  if (length players <? 2)%nat then StartError "Need at least 2 players to start"
  else
    let newHandNumber := PokerGameState.handNumber currentState + 1 in
    let playerAddresses := map PlayerInfo.address players in
    let handSeed := generateHandSeed tableId newHandNumber playerAddresses in
    let shuffledDeck := shuffleDeck handSeed in
    let dealt := dealCards shuffledDeck (length players) in
    let numPlayers := Z.of_nat (length players) in
    let newDealerPosition :=
      Js.rem (PokerGameState.dealerPosition currentState + 1) numPlayers in
    let smallBlindPos :=
      if numPlayers =? 2 then newDealerPosition
      else Js.rem (newDealerPosition + 1) numPlayers in
    let bigBlindPos :=
      if numPlayers =? 2 then Js.rem (newDealerPosition + 1) numPlayers
      else Js.rem (newDealerPosition + 2) numPlayers in
    let firstToAct :=
      if numPlayers =? 2 then smallBlindPos
      else Js.rem (bigBlindPos + 1) numPlayers in
    StartBroadcast
      {| PokerGameState.tableId := PokerGameState.tableId currentState;
         PokerGameState.tableName := PokerGameState.tableName currentState;
         PokerGameState.players := imap (postBlinds smallBlindPos bigBlindPos) players;
         PokerGameState.pot := smallBlindAmount + bigBlindAmount;
         PokerGameState.communityCards := [];
         PokerGameState.phase := "PreFlop";
         PokerGameState.currentBet := bigBlindAmount;
         PokerGameState.dealerPosition := newDealerPosition;
         PokerGameState.currentPlayerIndex := firstToAct;
         PokerGameState.playerCount := PokerGameState.playerCount currentState;
         PokerGameState.handNumber := newHandNumber;
         PokerGameState.handSeed := handSeed;
         PokerGameState.dealtCards := Some dealt;
         PokerGameState.winner := PokerGameState.winner currentState;
         PokerGameState.showdownCards := PokerGameState.showdownCards currentState |}.

(** ** Applying a player action *)

(** The [action] argument of [performAction]: either a string (the table
    passes ['Fold'], ['Check'], ['Call'], ['AllIn']) or an object with one of
    the keys [Raise], [Fold], [Check], [Call], [AllIn]. *)
Module Action.
Inductive t :=
| Named (s : string)
| Raise (amount : Z)
| Fold
| Check
| Call
| AllIn
| Other.
End Action.

(** The first lines of [performAction]: [actionStr] and [amount]. *)
Definition parseAction (action : Action.t) : string * Z :=
  match action with
  | Action.Named s => (Js.toLowerCase s, 0)
  | Action.Raise amount => ("raise", amount)
  | Action.Fold => ("fold", 0)
  | Action.Check => ("check", 0)
  | Action.Call => ("call", 0)
  | Action.AllIn => ("allin", 0)
  | Action.Other => ("check", 0)
  end.

(** What a call of [performAction] leaves behind: nothing when the player is
    not at the table (a warning is logged and the function returns), an
    error message and the state as it was when an exception reaches the
    [catch], the broadcast state otherwise. *)
Inductive ActionResult :=
| Ignored
| Threw
| Broadcast (newState : PokerGameState.t).

(** The two variables the [players.map] callback assigns to. *)
Record Effect := mkEffect { potIncrease : Z; newTableBet : Z }.

(** The [switch (actionStr)] applied to the acting player [p]. *)
Definition actOn (actionStr : string) (amount tableBet : Z)
  (p : PlayerInfo.t) (e : Effect) : PlayerInfo.t * Effect :=
  if String.eqb actionStr "fold" then (PlayerInfo.with_status "Folded" p, e)
  else if String.eqb actionStr "check" then (p, e)
  else if String.eqb actionStr "call" then
    let callAmount :=
      Z.min (PlayerInfo.chips p) (Z.max 0 (tableBet - PlayerInfo.currentBet p)) in
    let newChips := Z.max 0 (PlayerInfo.chips p - callAmount) in
    (PlayerInfo.with_stake newChips (PlayerInfo.currentBet p + callAmount)
       (if newChips =? 0 then "AllIn" else PlayerInfo.status p) p,
     mkEffect callAmount (newTableBet e))
  else if String.eqb actionStr "raise" || String.eqb actionStr "bet" then
    let callFirst := Z.max 0 (tableBet - PlayerInfo.currentBet p) in
    let maxRaise := Z.max 0 (PlayerInfo.chips p - callFirst) in
    let actualRaise := Z.min amount maxRaise in
    let totalBet := Z.min (PlayerInfo.chips p) (callFirst + actualRaise) in
    let newChips := Z.max 0 (PlayerInfo.chips p - totalBet) in
    (PlayerInfo.with_stake newChips (PlayerInfo.currentBet p + totalBet)
       (if newChips =? 0 then "AllIn" else PlayerInfo.status p) p,
     mkEffect totalBet (PlayerInfo.currentBet p + totalBet))
  else if String.eqb actionStr "allin" then
    let allInAmount := Z.max 0 (PlayerInfo.chips p) in
    let newPlayerBet := PlayerInfo.currentBet p + allInAmount in
    (PlayerInfo.with_stake 0 newPlayerBet "AllIn" p,
     mkEffect allInAmount
       (if tableBet <? newPlayerBet then newPlayerBet else newTableBet e))
  else (p, e).

(** [currentState.players.map(p => p.name === name ? ... : p)], threading the
    assignments to [potIncrease] and [newTableBet] in array order. *)
Fixpoint updatePlayers (actionStr : string) (amount tableBet : Z)
  (name : string) (players : list PlayerInfo.t) (e : Effect)
  : list PlayerInfo.t * Effect :=
  match players with
  | [] => ([], e)
  | p :: rest =>
      let '(p', e') :=
        if String.eqb (PlayerInfo.name p) name
        then actOn actionStr amount tableBet p e else (p, e) in
      let '(rest', e'') := updatePlayers actionStr amount tableBet name rest e' in
      (p' :: rest', e'')
  end.

Definition notFolded (p : PlayerInfo.t) : bool :=
  negb (String.eqb (PlayerInfo.status p) "Folded").

Definition activeOrAllIn (p : PlayerInfo.t) : bool :=
  String.eqb (PlayerInfo.status p) "Active"
  || String.eqb (PlayerInfo.status p) "AllIn".

(** The map that pays the pot, written twice in the source (fold win and
    showdown) with the same body. *)
Definition awardPot (winnerName : string) (totalPot : Z) (p : PlayerInfo.t)
  : PlayerInfo.t :=
  if String.eqb (PlayerInfo.name p) winnerName then
    PlayerInfo.with_stake (PlayerInfo.chips p + totalPot) 0 "Active" p
  else
    PlayerInfo.with_stake (PlayerInfo.chips p) 0
      (if 0 <? PlayerInfo.chips p then "Active" else "Folded") p.

(** The state broadcast when a single player is left: [winState]. *)
Definition foldWinState (currentState : PokerGameState.t)
  (updatedPlayers : list PlayerInfo.t) (winner : PlayerInfo.t)
  (potIncrease : Z) : PokerGameState.t :=
  let totalPot := PokerGameState.pot currentState + potIncrease in
  let finalPlayers := map (awardPot (PlayerInfo.name winner) totalPot) updatedPlayers in
  {| PokerGameState.tableId := PokerGameState.tableId currentState;
     PokerGameState.tableName := PokerGameState.tableName currentState;
     PokerGameState.players := finalPlayers;
     PokerGameState.pot := 0;
     PokerGameState.communityCards := PokerGameState.communityCards currentState;
     PokerGameState.phase := "Winner";
     PokerGameState.currentBet := 0;
     PokerGameState.dealerPosition := PokerGameState.dealerPosition currentState;
     PokerGameState.currentPlayerIndex := PokerGameState.currentPlayerIndex currentState;
     PokerGameState.playerCount := PokerGameState.playerCount currentState;
     PokerGameState.handNumber := PokerGameState.handNumber currentState;
     PokerGameState.handSeed := PokerGameState.handSeed currentState;
     PokerGameState.dealtCards := PokerGameState.dealtCards currentState;
     PokerGameState.winner :=
       Some (Winner.mk (PlayerInfo.name winner) totalPot "fold" None);
     PokerGameState.showdownCards := PokerGameState.showdownCards currentState |}.

(** One entry of [playerHands]. *)
Record PlayerHand := mkPlayerHand {
  player : PlayerInfo.t;
  holeCards : list (option Card.t);
  bestHand : Hand.t
}.

Definition evaluatePlayer (currentState : PokerGameState.t)
  (updatedPlayers : list PlayerInfo.t) (newCommunityCards : list (option Card.t))
  (player : PlayerInfo.t) : option PlayerHand :=
  let playerIdx :=
    Js.findIndex (fun p => String.eqb (PlayerInfo.name p) (PlayerInfo.name player))
      updatedPlayers in
  let holeCards :=
    default []
      (d ← PokerGameState.dealtCards currentState;
       Js.index (DealtCards.playerCards d) playerIdx) in
  bestHand ← evaluateBestHand holeCards newCommunityCards;
  Some (mkPlayerHand player holeCards bestHand).

(** The loop that collects [winners]; the list is [first :: others] and every
    candidate is compared with [winners[0]]. *)
Fixpoint findWinners (first : PlayerHand) (others rest : list PlayerHand)
  : list PlayerHand :=
  match rest with
  | [] => first :: others
  | ph :: rest' =>
      let comparison := compareHands (bestHand ph) (bestHand first) in
      if 0 <? comparison then findWinners ph [] rest'
      else if comparison =? 0 then findWinners first (others ++ [ph]) rest'
      else findWinners first others rest'
  end.

(** The showdown branch: [None] when evaluating a hand throws. *)
Definition showdownState (currentState : PokerGameState.t)
  (updatedPlayers : list PlayerInfo.t) (newCommunityCards : list (option Card.t))
  (potIncrease : Z) : option PokerGameState.t :=
  let playersInShowdown := filter (fun p => notFolded p = true) updatedPlayers in
  playerHands ← mapM (evaluatePlayer currentState updatedPlayers newCommunityCards)
                  playersInShowdown;
  match playerHands with
  | [] => None
  | ph0 :: rest =>
      let winners := findWinners ph0 [] rest in
      w0 ← head winners;
      let winner := player w0 in
      let winnerHandRank := getHandRankName (Hand.rank (bestHand w0)) in
      let totalPot := PokerGameState.pot currentState + potIncrease in
      let showdownCards :=
        map (fun ph => ShowdownCards.mk (PlayerInfo.name (player ph)) (holeCards ph)
                         (getHandRankName (Hand.rank (bestHand ph))))
            playerHands in
      let showdownPlayers :=
        map (awardPot (PlayerInfo.name winner) totalPot) updatedPlayers in
      Some
        {| PokerGameState.tableId := PokerGameState.tableId currentState;
           PokerGameState.tableName := PokerGameState.tableName currentState;
           PokerGameState.players := showdownPlayers;
           PokerGameState.pot := 0;
           PokerGameState.communityCards := newCommunityCards;
           PokerGameState.phase := "Winner";
           PokerGameState.currentBet := 0;
           PokerGameState.dealerPosition := PokerGameState.dealerPosition currentState;
           PokerGameState.currentPlayerIndex := 0;
           PokerGameState.playerCount := PokerGameState.playerCount currentState;
           PokerGameState.handNumber := PokerGameState.handNumber currentState;
           PokerGameState.handSeed := PokerGameState.handSeed currentState;
           PokerGameState.dealtCards := PokerGameState.dealtCards currentState;
           PokerGameState.winner :=
             Some (Winner.mk (PlayerInfo.name winner) totalPot "showdown"
                     (Some winnerHandRank));
           PokerGameState.showdownCards := Some showdownCards |}
  end.

(** The loop [for (i = 1; i <= numPlayers; i++)] that looks for the first
    Active or AllIn player after the dealer; [n] iterations are left and
    [fallback] is the index kept when none is found. *)
Fixpoint scanFirstToAct (finalPlayers : list PlayerInfo.t)
  (dealerPos numPlayers i : Z) (n : nat) (fallback : Z) : Z :=
  match n with
  | O => fallback
  | S n' =>
      let checkPos := Js.rem (dealerPos + i) numPlayers in
      match Js.index finalPlayers checkPos with
      | Some player =>
          if activeOrAllIn player then checkPos
          else scanFirstToAct finalPlayers dealerPos numPlayers (i + 1) n' fallback
      | None => scanFirstToAct finalPlayers dealerPos numPlayers (i + 1) n' fallback
      end
  end.

Definition phases : list string :=
  ["PreFlop"; "Flop"; "Turn"; "River"; "Showdown"].

(** The community cards after a phase change to [newPhase]: the flop is the
    first three pre-dealt cards, the turn and the river are pushed when
    they are defined. *)
Definition revealCards (newPhase : string)
  (newCommunityCards preDealtCards : list (option Card.t))
  : list (option Card.t) :=
  if String.eqb newPhase "Flop" && (length newCommunityCards =? 0)%nat then
    take 3 preDealtCards
  else if String.eqb newPhase "Turn" && (length newCommunityCards =? 3)%nat then
    match Js.get preDealtCards 3 with
    | Some c => newCommunityCards ++ [Some c]
    | None => newCommunityCards
    end
  else if String.eqb newPhase "River" && (length newCommunityCards =? 4)%nat then
    match Js.get preDealtCards 4 with
    | Some c => newCommunityCards ++ [Some c]
    | None => newCommunityCards
    end
  else newCommunityCards.

(** The state broadcast at the end of [performAction] when the hand goes on. *)
Definition nextState (currentState : PokerGameState.t)
  (finalPlayers : list PlayerInfo.t) (potIncrease tableBet newCurrentPlayerIndex : Z)
  (newPhase : string) (newCommunityCards : list (option Card.t))
  : PokerGameState.t :=
  {| PokerGameState.tableId := PokerGameState.tableId currentState;
     PokerGameState.tableName := PokerGameState.tableName currentState;
     PokerGameState.players := finalPlayers;
     PokerGameState.pot := PokerGameState.pot currentState + potIncrease;
     PokerGameState.communityCards := newCommunityCards;
     PokerGameState.phase := newPhase;
     PokerGameState.currentBet := tableBet;
     PokerGameState.dealerPosition := PokerGameState.dealerPosition currentState;
     PokerGameState.currentPlayerIndex := newCurrentPlayerIndex;
     PokerGameState.playerCount := PokerGameState.playerCount currentState;
     PokerGameState.handNumber := PokerGameState.handNumber currentState;
     PokerGameState.handSeed := PokerGameState.handSeed currentState;
     PokerGameState.dealtCards := PokerGameState.dealtCards currentState;
     PokerGameState.winner := PokerGameState.winner currentState;
     PokerGameState.showdownCards := PokerGameState.showdownCards currentState |}.

(** The action string after the forced-fold guard. *)
Definition effectiveAction (actionStr : string) (actingPlayer : PlayerInfo.t)
  : string :=
  if (PlayerInfo.chips actingPlayer <=? 0)
     && negb (Js.includes ["fold"; "check"] actionStr)
  then "fold" else actionStr.

Definition isClosingAction (actionStr : string) : bool :=
  Js.includes ["check"; "call"; "fold"] actionStr.

(** [allPlayersMatched]: every Active or AllIn player has matched the table
    bet or is all-in. *)
Definition allPlayersMatched (activePlayers : list PlayerInfo.t) (newTableBet : Z)
  : bool :=
  forallb
    (fun p => (PlayerInfo.currentBet p =? newTableBet)
              || String.eqb (PlayerInfo.status p) "AllIn")
    activePlayers.

(** The condition under which [performAction] advances the phase, on the
    players as updated by the action: [bettingRoundComplete], more than one
    player Active or AllIn, and [currentPhaseIdx < phases.length - 1]. *)
Definition roundCloses (currentState : PokerGameState.t) (actionStr : string)
  (updatedPlayers : list PlayerInfo.t) (newTableBet : Z) : bool :=
  let activePlayers := filter (fun p => activeOrAllIn p = true) updatedPlayers in
  allPlayersMatched activePlayers newTableBet && isClosingAction actionStr
  && (1 <? length activePlayers)%nat
  && (Js.indexOf phases (PokerGameState.phase currentState)
      <? Z.of_nat (length phases) - 1).

(** [phases[currentPhaseIdx + 1]]. *)
Definition phaseAfter (currentState : PokerGameState.t) : string :=
  default ""
    (Js.index phases (Js.indexOf phases (PokerGameState.phase currentState) + 1)).

(** [currentState.dealtCards?.communityCards || []]. *)
Definition preDealtCards (currentState : PokerGameState.t)
  : list (option Card.t) :=
  default []
    (DealtCards.communityCards <$> PokerGameState.dealtCards currentState).

(** [performAction(action, playerName)] on [currentState], with [name]
    the resolved [playerName || owner || 'Player'].  The calls to the chain
    do not touch the state and the timers that follow a win are not part of
    the call. *)
Definition performAction (action : Action.t) (name : string)
  (currentState : PokerGameState.t) : ActionResult :=
  let '(actionStr, amount) := parseAction action in
  let players := PokerGameState.players currentState in
  match find (fun p => String.eqb (PlayerInfo.name p) name) players with
  | None => Ignored
  | Some actingPlayer =>
      let actionStr := effectiveAction actionStr actingPlayer in
      let tableBet := PokerGameState.currentBet currentState in
      let '(updatedPlayers, e) :=
        updatePlayers actionStr amount tableBet name players (mkEffect 0 tableBet) in
      let potIncrease := potIncrease e in
      let newTableBet := newTableBet e in
      let playersStillIn := filter (fun p => notFolded p = true) updatedPlayers in
      match playersStillIn with
      | [winner] =>
          Broadcast (foldWinState currentState updatedPlayers winner potIncrease)
      | _ =>
          let activePlayers := filter (fun p => activeOrAllIn p = true) updatedPlayers in
          let currentPlayerIdx :=
            Js.findIndex (fun p => String.eqb (PlayerInfo.name p) name) activePlayers in
          let nextPlayerIndex :=
            if (0 <? length activePlayers)%nat
            then Js.rem (currentPlayerIdx + 1) (Z.of_nat (length activePlayers))
            else 0 in
          let advance := roundCloses currentState actionStr updatedPlayers newTableBet in
          let newPhase :=
            if advance then phaseAfter currentState
            else PokerGameState.phase currentState in
          let resetBets := advance in
          let newCommunityCards :=
            if advance
            then revealCards newPhase (PokerGameState.communityCards currentState)
                   (preDealtCards currentState)
            else PokerGameState.communityCards currentState in
          if advance
             && negb (String.eqb newPhase "Flop"
                      && (length (PokerGameState.communityCards currentState) =? 0)%nat)
             && negb (String.eqb newPhase "Turn"
                      && (length (PokerGameState.communityCards currentState) =? 3)%nat)
             && negb (String.eqb newPhase "River"
                      && (length (PokerGameState.communityCards currentState) =? 4)%nat)
             && String.eqb newPhase "Showdown"
             && (0 <? length playersStillIn)%nat
          then
            match showdownState currentState updatedPlayers newCommunityCards potIncrease with
            | Some s => Broadcast s
            | None => Threw
            end
          else
            let finalPlayers :=
              if resetBets then map (PlayerInfo.with_currentBet 0) updatedPlayers
              else updatedPlayers in
            let newCurrentPlayerIndex :=
              if resetBets && negb (String.eqb newPhase "Showdown") then
                scanFirstToAct finalPlayers (PokerGameState.dealerPosition currentState)
                  (Z.of_nat (length finalPlayers)) 1 (length finalPlayers)
                  nextPlayerIndex
              else nextPlayerIndex in
            Broadcast
              (nextState currentState finalPlayers potIncrease
                 (if resetBets then 0 else newTableBet) newCurrentPlayerIndex
                 newPhase newCommunityCards)
      end
  end.

(** ** Quantities the properties speak of *)

(** The pairs [(i, j)] of indices that the loop of [shuffleDeck] swaps, in
    the order of the loop. *)
Fixpoint shuffleIndices (i : nat) (rng : SeededRandom.t) : list (nat * Z) :=
  match i with
  | O => []
  | S i' =>
      let '(rng', j) := SeededRandom.nextInt rng (Z.of_nat i + 1) in
      (i, j) :: shuffleIndices i' rng'
  end.

(** ** The generator on binary64 numbers

    The same generator written with the machine's binary64 operations, to
    compare the integer model above with on concrete seeds. *)
Module Binary64.

(** The integer part of a finite number (0 for NaN and the infinities, as
    [ToInt32] has it); for a non-negative number it is [Math.floor]. *)
Definition toZ (f : float) : Z :=
  match Prim2SF f with
  | S754_finite sign m e =>
      let magnitude := if 0 <=? e then Z.pos m * 2 ^ e else Z.pos m / 2 ^ (- e) in
      if sign then - magnitude else magnitude
  | _ => 0
  end.

(** The number of a non-negative integer below 2^53. *)
Definition ofZ (z : Z) : float := PrimFloat.of_uint63 (Uint63.of_Z z).

Definition next (seed : float) : float * float :=
  let seed :=
    ofZ (Js.band (toZ (PrimFloat.add (PrimFloat.mul seed (ofZ 1103515245))
                         (ofZ 12345)))
           0x7fffffff) in
  (seed, PrimFloat.div seed (ofZ 0x7fffffff)).

Definition nextInt (seed : float) (max : Z) : float * Z :=
  let '(seed', r) := next seed in
  (seed', toZ (PrimFloat.mul r (ofZ max))).

Fixpoint shuffleIndices (i : nat) (rng : float) : list (nat * Z) :=
  match i with
  | O => []
  | S i' =>
      let '(rng', j) := nextInt rng (Z.of_nat i + 1) in
      (i, j) :: shuffleIndices i' rng'
  end.

End Binary64.

(** Every rank and suit is on exactly one card of [cards]. *)
Definition eachCardOnce (cards : list Card.t) : Prop :=
  Forall
    (fun suit =>
       Forall
         (fun rank =>
            length
              (filter
                 (fun c => String.eqb (Card.rank c) rank
                           && String.eqb (Card.suit c) suit = true)
                 cards)
            = 1%nat)
         ranks)
    suits.

Definition sumZ (l : list Z) : Z := foldr Z.add 0 l.

(** The chips in the players' stacks and the bets of the current round. *)
Definition totalChips (s : PokerGameState.t) : Z :=
  sumZ (map PlayerInfo.chips (PokerGameState.players s)).

Definition totalBets (s : PokerGameState.t) : Z :=
  sumZ (map PlayerInfo.currentBet (PokerGameState.players s)).

Definition playerNames (s : PokerGameState.t) : list string :=
  map PlayerInfo.name (PokerGameState.players s).

(** A hand is being played: the phase is one of the four betting rounds. *)
Definition handInProgress (s : PokerGameState.t) : bool :=
  Js.includes ["PreFlop"; "Flop"; "Turn"; "River"] (PokerGameState.phase s).

(** The player whose turn the table view shows:
    [activePlayers[currentPlayerIndex % Math.max(1, activePlayers.length)]]. *)
Definition currentActor (s : PokerGameState.t) : option PlayerInfo.t :=
  let activePlayers :=
    filter (fun p => activeOrAllIn p = true) (PokerGameState.players s) in
  Js.index activePlayers
    (Js.rem (PokerGameState.currentPlayerIndex s)
       (Z.max 1 (Z.of_nat (length activePlayers)))).

(** The players after the action and the two values the action sets, as
    [performAction] computes them for a player found at the table. *)
Definition actionEffect (action : Action.t) (name : string)
  (currentState : PokerGameState.t) (actingPlayer : PlayerInfo.t)
  : list PlayerInfo.t * Effect :=
  let '(actionStr, amount) := parseAction action in
  updatePlayers (effectiveAction actionStr actingPlayer) amount
    (PokerGameState.currentBet currentState) name
    (PokerGameState.players currentState)
    (mkEffect 0 (PokerGameState.currentBet currentState)).

(** The acting player's action as applied (after the forced-fold guard), the
    players after it and the table bet after it; for a name that is not at
    the table nothing is applied. *)
Definition actingPlayerOf (name : string) (s : PokerGameState.t)
  : option PlayerInfo.t :=
  find (fun p => String.eqb (PlayerInfo.name p) name) (PokerGameState.players s).

Definition appliedAction (action : Action.t) (name : string)
  (s : PokerGameState.t) : string :=
  match actingPlayerOf name s with
  | Some p => effectiveAction (parseAction action).1 p
  | None => (parseAction action).1
  end.

Definition playersAfter (action : Action.t) (name : string)
  (s : PokerGameState.t) : list PlayerInfo.t :=
  match actingPlayerOf name s with
  | Some p => (actionEffect action name s p).1
  | None => PokerGameState.players s
  end.

Definition tableBetAfter (action : Action.t) (name : string)
  (s : PokerGameState.t) : Z :=
  match actingPlayerOf name s with
  | Some p => newTableBet (actionEffect action name s p).2
  | None => PokerGameState.currentBet s
  end.

(** The states of a table: the empty table, a player taking a seat, a hand
    started with a deck large enough for the players, and an action applied
    while a hand is in progress. *)
Inductive reachable (tableId : string) : PokerGameState.t -> Prop :=
| reach_default : reachable tableId (getDefaultState tableId)
| reach_seat s p :
    reachable tableId s ->
    reachable tableId (seatPlayer p s)
| reach_start s s' :
    (2 * length (PokerGameState.players s) + 8 <= 52)%nat ->
    startGame tableId s = StartBroadcast s' ->
    reachable tableId s'
| reach_action s action name s' :
    reachable tableId s ->
    handInProgress s = true ->
    performAction action name s = Broadcast s' ->
    reachable tableId s'.


(** The table after a call: the broadcast state, or the state as it was
    when nothing is broadcast. *)
Definition afterStart (tableId : string) (s : PokerGameState.t)
  : PokerGameState.t :=
  match startGame tableId s with
  | StartBroadcast s' => s'
  | StartError _ => s
  end.

Definition afterAction (action : Action.t) (name : string)
  (s : PokerGameState.t) : PokerGameState.t :=
  match performAction action name s with
  | Broadcast s' => s'
  | Ignored | Threw => s
  end.

(** The same state with another [currentPlayerIndex]. *)
Definition withCurrentPlayerIndex (i : Z) (s : PokerGameState.t)
  : PokerGameState.t :=
  {| PokerGameState.tableId := PokerGameState.tableId s;
     PokerGameState.tableName := PokerGameState.tableName s;
     PokerGameState.players := PokerGameState.players s;
     PokerGameState.pot := PokerGameState.pot s;
     PokerGameState.communityCards := PokerGameState.communityCards s;
     PokerGameState.phase := PokerGameState.phase s;
     PokerGameState.currentBet := PokerGameState.currentBet s;
     PokerGameState.dealerPosition := PokerGameState.dealerPosition s;
     PokerGameState.currentPlayerIndex := i;
     PokerGameState.playerCount := PokerGameState.playerCount s;
     PokerGameState.handNumber := PokerGameState.handNumber s;
     PokerGameState.handSeed := PokerGameState.handSeed s;
     PokerGameState.dealtCards := PokerGameState.dealtCards s;
     PokerGameState.winner := PokerGameState.winner s;
     PokerGameState.showdownCards := PokerGameState.showdownCards s |}.

(** A result with the turn marker of the broadcast state erased. *)
Definition forgetTurn (r : ActionResult) : ActionResult :=
  match r with
  | Broadcast s' => Broadcast (withCurrentPlayerIndex 0 s')
  | Ignored => Ignored
  | Threw => Threw
  end.

(** Name, chips and round bet of every player, in seat order. *)
Definition stacks (s : PokerGameState.t) : list (string * Z * Z) :=
  map (fun p => (PlayerInfo.name p, PlayerInfo.chips p, PlayerInfo.currentBet p))
    (PokerGameState.players s).

(** The five pre-dealt community cards are all defined. *)
Definition fiveDefined (cards : list (option Card.t)) : Prop :=
  exists c1 c2 c3 c4 c5, cards = [Some c1; Some c2; Some c3; Some c4; Some c5].

(** Every card on the board and in the players' hands is defined. *)
Definition cardsDefined (s : PokerGameState.t) : Prop :=
  Forall is_Some (PokerGameState.communityCards s)
  /\ forall d, PokerGameState.dealtCards s = Some d ->
               Forall (Forall is_Some) (DealtCards.playerCards d).

(** What the phase says about the community cards. *)
Definition cardsMatchPhase (s : PokerGameState.t) : Prop :=
  let n := length (PokerGameState.communityCards s) in
  let phase := PokerGameState.phase s in
  (phase = "Waiting" -> n = 0%nat)
  /\ (phase = "PreFlop" -> n = 0%nat)
  /\ (phase = "Flop" -> n = 3%nat)
  /\ (phase = "Turn" -> n = 4%nat)
  /\ (phase = "River" -> n = 5%nat)
  /\ (phase = "Winner" ->
      exists w, PokerGameState.winner s = Some w
        /\ (Winner.reason w = "showdown" /\ n = 5%nat
            \/ Winner.reason w = "fold"
               /\ (n = 0 \/ n = 3 \/ n = 4 \/ n = 5)%nat))
  /\ phase <> "Showdown"
  /\ (phase = "Waiting" \/ phase = "Winner" \/ handInProgress s = true).

Definition tableInvariant (s : PokerGameState.t) : Prop :=
  cardsMatchPhase s /\ (handInProgress s = true -> fiveDefined (preDealtCards s)).

(** The ways [performAction] ends with a broadcast, on the players
    [updated] and the effect [e] of the action: a win by fold, a showdown,
    the next street, or the same street. *)
Inductive Outcome (s : PokerGameState.t) (actionStr : string)
  (updated : list PlayerInfo.t) (e : Effect) (s' : PokerGameState.t) : Prop :=
| FoldWin winner :
    filter (fun p => notFolded p = true) updated = [winner] ->
    s' = foldWinState s updated winner (potIncrease e) ->
    Outcome s actionStr updated e s'
| Showdown :
    roundCloses s actionStr updated (newTableBet e) = true ->
    phaseAfter s = "Showdown" ->
    showdownState s updated
      (revealCards (phaseAfter s) (PokerGameState.communityCards s) (preDealtCards s))
      (potIncrease e) = Some s' ->
    Outcome s actionStr updated e s'
| NextStreet idx :
    roundCloses s actionStr updated (newTableBet e) = true ->
    s' = nextState s (map (PlayerInfo.with_currentBet 0) updated) (potIncrease e) 0 idx
           (phaseAfter s)
           (revealCards (phaseAfter s) (PokerGameState.communityCards s) (preDealtCards s)) ->
    (phaseAfter s = "Showdown" -> filter (fun p => notFolded p = true) updated = []) ->
    Outcome s actionStr updated e s'
| SameStreet idx :
    roundCloses s actionStr updated (newTableBet e) = false ->
    length (filter (fun p => notFolded p = true) updated) <> 1%nat ->
    s' = nextState s updated (potIncrease e) (newTableBet e) idx
           (PokerGameState.phase s) (PokerGameState.communityCards s) ->
    Outcome s actionStr updated e s'.

(** ** Tables used in the scenarios *)

(** The [newPlayer] of [joinTable] for a player without a chain id:
    [address: chainId || playerName], [chainId: chainId || '']. *)
Definition newPlayer (playerName : string) (playerChips : Z) : PlayerInfo.t :=
  PlayerInfo.mk playerName playerName playerChips "Active" 0 (Some "").

(** A and B sit down with 1000 chips each; a hand starts; the small blind
    raises by 100; the big blind folds. *)
Definition headsUpTable : PokerGameState.t :=
  seatPlayer (newPlayer "B" 1000)
    (seatPlayer (newPlayer "A" 1000) (getDefaultState "table-1")).

Definition headsUpPreFlop : PokerGameState.t :=
  Eval vm_compute in afterStart "table-1" headsUpTable.

Definition headsUpRaised : PokerGameState.t :=
  Eval vm_compute in afterAction (Action.Raise 100) "B" headsUpPreFlop.

Definition headsUpWon : PokerGameState.t :=
  Eval vm_compute in afterAction (Action.Named "Fold") "A" headsUpRaised.

(** The small blind calls instead: the bets are matched and the flop comes. *)
Definition headsUpFlop : PokerGameState.t :=
  Eval vm_compute in afterAction (Action.Named "Call") "B" headsUpPreFlop.

(** The big blind raises although the small blind is to act. *)
Definition headsUpOutOfTurn : PokerGameState.t :=
  Eval vm_compute in afterAction (Action.Raise 100) "A" headsUpPreFlop.

(** B is at the table with 30 chips left, goes all-in from the small blind
    for a bet of 30, and A raises to 130; B then checks. *)
Definition shortStackTable : PokerGameState.t :=
  seatPlayer (newPlayer "B" 30)
    (seatPlayer (newPlayer "A" 1000) (getDefaultState "table-1")).

Definition shortStackPreFlop : PokerGameState.t :=
  Eval vm_compute in afterStart "table-1" shortStackTable.

Definition shortStackAllIn : PokerGameState.t :=
  Eval vm_compute in afterAction (Action.Named "AllIn") "B" shortStackPreFlop.

Definition shortStackRaised : PokerGameState.t :=
  Eval vm_compute in afterAction (Action.Raise 100) "A" shortStackAllIn.

Definition shortStackFlop : PokerGameState.t :=
  Eval vm_compute in afterAction (Action.Named "Check") "B" shortStackRaised.

(** Three players, each with a bet of 20 matching the table bet, before the
    flop. *)
Definition threeWayMatched : PokerGameState.t :=
  {| PokerGameState.tableId := "table-1";
     PokerGameState.tableName := "Poker Table";
     PokerGameState.players :=
       [PlayerInfo.mk "A" "A" 980 "Active" 20 (Some "");
        PlayerInfo.mk "B" "B" 980 "Active" 20 (Some "");
        PlayerInfo.mk "C" "C" 980 "Active" 20 (Some "")];
     PokerGameState.pot := 60;
     PokerGameState.communityCards := [];
     PokerGameState.phase := "PreFlop";
     PokerGameState.currentBet := 20;
     PokerGameState.dealerPosition := 1;
     PokerGameState.currentPlayerIndex := 0;
     PokerGameState.playerCount := 3;
     PokerGameState.handNumber := 1;
     PokerGameState.handSeed := 0;
     PokerGameState.dealtCards := Some (dealCards (map Some createDeck) 3);
     PokerGameState.winner := None;
     PokerGameState.showdownCards := None |}.

(** The river with a royal flush on the board: A and B both play the board,
    100 chips each are in the pot and nobody has bet on the river. *)
Definition royalBoard : list (option Card.t) :=
  [Some (Card.mk "A" "spades" 14); Some (Card.mk "K" "spades" 13);
   Some (Card.mk "Q" "spades" 12); Some (Card.mk "J" "spades" 11);
   Some (Card.mk "10" "spades" 10)].

Definition tiedRiver : PokerGameState.t :=
  {| PokerGameState.tableId := "table-1";
     PokerGameState.tableName := "Poker Table";
     PokerGameState.players :=
       [PlayerInfo.mk "A" "A" 900 "Active" 0 (Some "");
        PlayerInfo.mk "B" "B" 900 "Active" 0 (Some "")];
     PokerGameState.pot := 200;
     PokerGameState.communityCards := royalBoard;
     PokerGameState.phase := "River";
     PokerGameState.currentBet := 0;
     PokerGameState.dealerPosition := 1;
     PokerGameState.currentPlayerIndex := 0;
     PokerGameState.playerCount := 2;
     PokerGameState.handNumber := 1;
     PokerGameState.handSeed := 0;
     PokerGameState.dealtCards :=
       Some (DealtCards.mk
               [[Some (Card.mk "2" "hearts" 2); Some (Card.mk "3" "diamonds" 3)];
                [Some (Card.mk "4" "clubs" 4); Some (Card.mk "5" "diamonds" 5)]]
               royalBoard);
     PokerGameState.winner := None;
     PokerGameState.showdownCards := None |}.

Definition tiedShowdown : PokerGameState.t :=
  Eval vm_compute in afterAction (Action.Named "Check") "A" tiedRiver.

(** ** Equality of cards *)

#[global] Instance Card_eq_dec : EqDecision Card.t.
Proof. solve_decision. Defined.

(** ** Further quantities the properties speak of *)

(** The values [getCardValue] gives: 2 to 14 for the ranks of the deck, 0 for
    any other string. *)
Definition cardValue (v : Z) : Prop := 0 <= v <= 14.

(** Who sits where: address, name and chain id of every player, in seat
    order. *)
Definition seatOf (p : PlayerInfo.t) : string * string * option string :=
  (PlayerInfo.address p, PlayerInfo.name p, PlayerInfo.chainId p).

Definition seats (s : PokerGameState.t) : list (string * string * option string) :=
  map seatOf (PokerGameState.players s).

(** The turn marker [performAction] computes within a street:
    [nextPlayerIndex], from the position of the acting player among the
    Active and AllIn players. *)
Definition nextPlayerIndexOf (name : string) (updated : list PlayerInfo.t) : Z :=
  let activePlayers := filter (fun p => activeOrAllIn p = true) updated in
  if (0 <? length activePlayers)%nat
  then Js.rem
         (Js.findIndex (fun p => String.eqb (PlayerInfo.name p) name) activePlayers + 1)
         (Z.of_nat (length activePlayers))
  else 0.

(** ** Taking and leaving a seat *)

(** [chainId || fallback] for the chain id of the hook, a string or [null]:
    the empty string is falsy. *)
Definition orElse (chainId : option string) (fallback : string) : string :=
  match chainId with
  | Some c => if String.eqb c "" then fallback else c
  | None => fallback
  end.

(** The [newPlayer] of [joinTable]. *)
Definition seatedPlayer (chainId : option string) (playerName : string)
  (playerChips : Z) : PlayerInfo.t :=
  PlayerInfo.mk (orElse chainId playerName) playerName playerChips "Active" 0
    (Some (orElse chainId "")).

Definition ROOKIE_LOUNGE_BUYIN : Z := 1000.
Definition NEW_PLAYER_BONUS : Z := 1000.

(** Why [joinTable] returns [false]; the message it sets is determined by
    the reason (the third one prints the two numbers in the locale of the
    browser). *)
Inductive JoinFailure :=
| TableFull
| NewPlayersOnlyRookieLounge
| InsufficientChips (playerChips buyIn : Z).

(** What a call of [joinTable] leaves behind: [true] without a broadcast
    when the player is seated already, [false] and an error, or the
    broadcast state (and [true]). *)
Inductive JoinResult :=
| JoinSeated
| JoinError (reason : JoinFailure)
| JoinBroadcast (newState : PokerGameState.t).

(** [joinTable(playerName, buyIn)] on [currentState].  [chainId] is the
    chain id of the hook; [arenaChips] and [localChips] are what
    [getPlayerChipsFromArena] and [getPlayerChipsFromLocalStorage] return
    for the player ([None] for [null]). *)
Definition joinTable (chainId : option string) (arenaChips localChips : option Z)
  (playerName : string) (buyIn : Z) (currentState : PokerGameState.t)
  : JoinResult :=
  let players := PokerGameState.players currentState in
  if existsb (fun p => String.eqb (PlayerInfo.name p) playerName) players then JoinSeated
  else if (4 <=? length players)%nat then JoinError TableFull
  else
    let fromLocalStorage :=
      match localChips with
      | Some chips => if 0 <? chips then (chips, true) else (0, false)
      | None => (0, false)
      end in
    let '(playerChips, isExistingPlayer) :=
      match arenaChips with
      | Some chips => if 0 <? chips then (chips, true) else fromLocalStorage
      | None => fromLocalStorage
      end in
    if negb isExistingPlayer then
      if negb (buyIn =? ROOKIE_LOUNGE_BUYIN) then JoinError NewPlayersOnlyRookieLounge
      else
        JoinBroadcast
          (seatPlayer (seatedPlayer chainId playerName NEW_PLAYER_BONUS) currentState)
    else if playerChips <? buyIn then JoinError (InsufficientChips playerChips buyIn)
    else
      JoinBroadcast (seatPlayer (seatedPlayer chainId playerName playerChips) currentState).

(** The state [leaveTable] broadcasts for the resolved name:
    [{ ...currentState, players: players.filter(p => p.name !== name),
       playerCount: Math.max(0, playerCount - 1) }]. *)
Definition leaveTable (name : string) (currentState : PokerGameState.t)
  : PokerGameState.t :=
  {| PokerGameState.tableId := PokerGameState.tableId currentState;
     PokerGameState.tableName := PokerGameState.tableName currentState;
     PokerGameState.players :=
       filter (fun p => String.eqb (PlayerInfo.name p) name = false)
         (PokerGameState.players currentState);
     PokerGameState.pot := PokerGameState.pot currentState;
     PokerGameState.communityCards := PokerGameState.communityCards currentState;
     PokerGameState.phase := PokerGameState.phase currentState;
     PokerGameState.currentBet := PokerGameState.currentBet currentState;
     PokerGameState.dealerPosition := PokerGameState.dealerPosition currentState;
     PokerGameState.currentPlayerIndex := PokerGameState.currentPlayerIndex currentState;
     PokerGameState.playerCount := Z.max 0 (PokerGameState.playerCount currentState - 1);
     PokerGameState.handNumber := PokerGameState.handNumber currentState;
     PokerGameState.handSeed := PokerGameState.handSeed currentState;
     PokerGameState.dealtCards := PokerGameState.dealtCards currentState;
     PokerGameState.winner := PokerGameState.winner currentState;
     PokerGameState.showdownCards := PokerGameState.showdownCards currentState |}.

(** ** A state received from the server *)

Definition activePhases : list string :=
  ["PreFlop"; "Flop"; "Turn"; "River"; "Showdown"].

(** The validation of [ws.onmessage] for a [STATE_UPDATE]: a state in an
    active phase with fewer than two players is reset to the Waiting
    phase. *)
Definition validateReceivedState (receivedState : PokerGameState.t)
  : PokerGameState.t :=
  let playerCount := Z.of_nat (length (PokerGameState.players receivedState)) in
  if Js.includes activePhases (PokerGameState.phase receivedState) && (playerCount <? 2)
  then
    {| PokerGameState.tableId := PokerGameState.tableId receivedState;
       PokerGameState.tableName := PokerGameState.tableName receivedState;
       PokerGameState.players :=
         map (fun p => PlayerInfo.with_stake (PlayerInfo.chips p) 0 "Active" p)
           (PokerGameState.players receivedState);
       PokerGameState.pot := 0;
       PokerGameState.communityCards := [];
       PokerGameState.phase := "Waiting";
       PokerGameState.currentBet := 0;
       PokerGameState.dealerPosition := PokerGameState.dealerPosition receivedState;
       PokerGameState.currentPlayerIndex := PokerGameState.currentPlayerIndex receivedState;
       PokerGameState.playerCount := PokerGameState.playerCount receivedState;
       PokerGameState.handNumber := PokerGameState.handNumber receivedState;
       PokerGameState.handSeed := PokerGameState.handSeed receivedState;
       PokerGameState.dealtCards := None;
       PokerGameState.winner := None;
       PokerGameState.showdownCards := PokerGameState.showdownCards receivedState |}
  else receivedState.

(** ** After a win *)

(** The state broadcast five seconds after a win when more than one player
    has chips: [nextHandState]. *)
Definition nextHandState (winState : PokerGameState.t) : PokerGameState.t :=
  {| PokerGameState.tableId := PokerGameState.tableId winState;
     PokerGameState.tableName := PokerGameState.tableName winState;
     PokerGameState.players :=
       map (fun p => PlayerInfo.with_stake (PlayerInfo.chips p) 0
                       (if 0 <? PlayerInfo.chips p then "Active" else "Out") p)
         (PokerGameState.players winState);
     PokerGameState.pot := PokerGameState.pot winState;
     PokerGameState.communityCards := [];
     PokerGameState.phase := "ReadyForNextHand";
     PokerGameState.currentBet := PokerGameState.currentBet winState;
     PokerGameState.dealerPosition := PokerGameState.dealerPosition winState;
     PokerGameState.currentPlayerIndex := PokerGameState.currentPlayerIndex winState;
     PokerGameState.playerCount := PokerGameState.playerCount winState;
     PokerGameState.handNumber := PokerGameState.handNumber winState;
     PokerGameState.handSeed := PokerGameState.handSeed winState;
     PokerGameState.dealtCards := PokerGameState.dealtCards winState;
     PokerGameState.winner := None;
     PokerGameState.showdownCards := PokerGameState.showdownCards winState |}.

(** The state broadcast instead when at most one player has chips:
    [gameOverState], with the reason of the win written again. *)
Definition gameOverState (reason : string) (winState : PokerGameState.t)
  : PokerGameState.t :=
  {| PokerGameState.tableId := PokerGameState.tableId winState;
     PokerGameState.tableName := PokerGameState.tableName winState;
     PokerGameState.players := PokerGameState.players winState;
     PokerGameState.pot := PokerGameState.pot winState;
     PokerGameState.communityCards := [];
     PokerGameState.phase := "GameOver";
     PokerGameState.currentBet := PokerGameState.currentBet winState;
     PokerGameState.dealerPosition := PokerGameState.dealerPosition winState;
     PokerGameState.currentPlayerIndex := PokerGameState.currentPlayerIndex winState;
     PokerGameState.playerCount := PokerGameState.playerCount winState;
     PokerGameState.handNumber := PokerGameState.handNumber winState;
     PokerGameState.handSeed := PokerGameState.handSeed winState;
     PokerGameState.dealtCards := PokerGameState.dealtCards winState;
     PokerGameState.winner :=
       (fun w => Winner.mk (Winner.name w) (Winner.amount w) reason (Winner.handRank w))
         <$> PokerGameState.winner winState;
     PokerGameState.showdownCards := PokerGameState.showdownCards winState |}.

(** The state broadcast five seconds after [gameOverState]: [resetState]. *)
Definition resetState (gameOver : PokerGameState.t) : PokerGameState.t :=
  {| PokerGameState.tableId := PokerGameState.tableId gameOver;
     PokerGameState.tableName := PokerGameState.tableName gameOver;
     PokerGameState.players := [];
     PokerGameState.pot := PokerGameState.pot gameOver;
     PokerGameState.communityCards := PokerGameState.communityCards gameOver;
     PokerGameState.phase := "Waiting";
     PokerGameState.currentBet := PokerGameState.currentBet gameOver;
     PokerGameState.dealerPosition := PokerGameState.dealerPosition gameOver;
     PokerGameState.currentPlayerIndex := PokerGameState.currentPlayerIndex gameOver;
     PokerGameState.playerCount := 0;
     PokerGameState.handNumber := PokerGameState.handNumber gameOver;
     PokerGameState.handSeed := PokerGameState.handSeed gameOver;
     PokerGameState.dealtCards := PokerGameState.dealtCards gameOver;
     PokerGameState.winner := None;
     PokerGameState.showdownCards := PokerGameState.showdownCards gameOver |}.

(** The states the two timers of a win broadcast, in order, from the
    [winState] of the call that set them: they read the players of that
    state ([playersWithChips]), not the table as it is when they fire. *)
Definition winFollowUps (winState : PokerGameState.t) : list PokerGameState.t :=
  let playersWithChips :=
    filter (fun p => 0 < PlayerInfo.chips p) (PokerGameState.players winState) in
  let reason := default "" (Winner.reason <$> PokerGameState.winner winState) in
  if (1 <? length playersWithChips)%nat then [nextHandState winState]
  else
    let gameOver := gameOverState reason winState in
    [gameOver; resetState gameOver].

(** ** The synchronisation server of [server.js]

    The server keeps, by room, the last table state a client sent, the
    clients that joined and the last chat messages.  A client is a
    connection, named by a number; a [Set] of clients is the list of its
    members in insertion order. *)
Module Server.

Record ChatMsg := mkChatMsg {
  id : string;
  playerName : string;
  message : string;
  timestamp : Z;
  type : string
}.

(** What a client sends.  A state that is [null] or missing is [None]. *)
Inductive Message :=
| GET_ROOM_COUNTS
| JOIN_ROOM (roomId : string)
| UPDATE_STATE (roomId : string) (state : option PokerGameState.t)
| GET_STATE (roomId : string)
| RESET_ROOM (roomId : string)
| CHAT_MESSAGE (roomId : string) (playerName message : string) (msgType : option string)
| GET_CHAT_HISTORY (roomId : string).

(** What the server sends. *)
Inductive Outgoing :=
| ROOM_COUNTS (counts : gmap string Z)
| STATE_UPDATE (state : option PokerGameState.t)
| ROOM_RESET
| CHAT (chatMsg : ChatMsg)
| CHAT_HISTORY (messages : list ChatMsg).

(** The three maps of the server, the connected clients ([wss.clients]) with
    those among them whose [readyState] is 1, and the [currentRoom] of every
    connection. *)
Record t := mk {
  gameStates : gmap string (option PokerGameState.t);
  roomClients : gmap string (list nat);
  roomChats : gmap string (list ChatMsg);
  clients : list nat;
  isOpen : nat -> bool;
  currentRoom : gmap nat string
}.

Definition empty : t := mk ∅ ∅ ∅ [] (fun _ => false) ∅.

(** [set.add(ws)]. *)
Definition setAdd (ws : nat) (set : list nat) : list nat :=
  if bool_decide (ws ∈ set) then set else (set ++ [ws])%list.

(** [getRoomPlayerCounts]: [state?.players?.length || 0] for every room. *)
Definition getRoomPlayerCounts (srv : t) : gmap string Z :=
  (fun state =>
     match state with
     | Some s => Z.of_nat (length (PokerGameState.players s))
     | None => 0
     end) <$> gameStates srv.

(** [set.forEach(client => { if (client.readyState === 1) client.send(m) })]. *)
Definition sendToOpen (srv : t) (set : list nat) (m : Outgoing)
  : list (nat * Outgoing) :=
  map (fun client => (client, m)) (filter (fun client => isOpen srv client = true) set).

Definition broadcastRoomCounts (srv : t) : list (nat * Outgoing) :=
  sendToOpen srv (clients srv) (ROOM_COUNTS (getRoomPlayerCounts srv)).

(** [gameStates.get(roomId)], [undefined] and [null] alike being [None]. *)
Definition stateOf (srv : t) (roomId : string) : option PokerGameState.t :=
  mjoin (gameStates srv !! roomId).

(** [chatHistory.push(chatMsg); if (chatHistory.length > 50) chatHistory.shift()]. *)
Definition pushChat (chatHistory : list ChatMsg) (chatMsg : ChatMsg) : list ChatMsg :=
  let pushed := (chatHistory ++ [chatMsg])%list in
  if (50 <? length pushed)%nat then tail pushed else pushed.

(** [wss.on('connection')]: the new client is sent the room counts. *)
Definition onConnection (srv : t) (ws : nat) : t * list (nat * Outgoing) :=
  (mk (gameStates srv) (roomClients srv) (roomChats srv) (setAdd ws (clients srv))
     (fun client => if bool_decide (client = ws) then true else isOpen srv client)
     (currentRoom srv),
   [(ws, ROOM_COUNTS (getRoomPlayerCounts srv))]).

(** The three values a chat message takes from the environment: the two
    reads of [Date.now()] (for the id and for the timestamp) and the random
    part of the id. *)
Record Env := mkEnv { idTime : Z; random : string; now : Z }.

(** The handler of [ws.on('message')] for the client [ws]: the server after
    the message and what is sent, in order. *)
Definition onMessage (env : Env) (srv : t) (ws : nat) (msg : Message)
  : t * list (nat * Outgoing) :=
  match msg with
  | GET_ROOM_COUNTS => (srv, [(ws, ROOM_COUNTS (getRoomPlayerCounts srv))])
  | JOIN_ROOM roomId =>
      let members := setAdd ws (default [] (roomClients srv !! roomId)) in
      let srv' :=
        mk (gameStates srv) (<[roomId := members]> (roomClients srv)) (roomChats srv)
          (clients srv) (isOpen srv) (<[ws := roomId]> (currentRoom srv)) in
      (srv',
       match stateOf srv roomId with
       | Some state => [(ws, STATE_UPDATE (Some state))]
       | None => []
       end)
  | UPDATE_STATE roomId state =>
      let srv' :=
        mk (<[roomId := state]> (gameStates srv)) (roomClients srv) (roomChats srv)
          (clients srv) (isOpen srv) (currentRoom srv) in
      (srv',
       (match roomClients srv !! roomId with
        | Some members => sendToOpen srv members (STATE_UPDATE state)
        | None => []
        end ++ broadcastRoomCounts srv')%list)
  | GET_STATE roomId => (srv, [(ws, STATE_UPDATE (stateOf srv roomId))])
  | RESET_ROOM roomId =>
      let srv' :=
        mk (delete roomId (gameStates srv)) (roomClients srv) (roomChats srv)
          (clients srv) (isOpen srv) (currentRoom srv) in
      (srv',
       (match roomClients srv !! roomId with
        | Some members => sendToOpen srv members ROOM_RESET
        | None => []
        end ++ broadcastRoomCounts srv')%list)
  | CHAT_MESSAGE roomId playerName message msgType =>
      let chatMsg :=
        mkChatMsg (Js.numberToString (idTime env) ++ "-" ++ random env) playerName message
          (now env)
          (match msgType with
           | Some t => if String.eqb t "" then "chat" else t
           | None => "chat"
           end) in
      let chatHistory := pushChat (default [] (roomChats srv !! roomId)) chatMsg in
      let srv' :=
        mk (gameStates srv) (roomClients srv) (<[roomId := chatHistory]> (roomChats srv))
          (clients srv) (isOpen srv) (currentRoom srv) in
      (srv',
       match roomClients srv !! roomId with
       | Some members => sendToOpen srv members (CHAT chatMsg)
       | None => []
       end)
  | GET_CHAT_HISTORY roomId =>
      (srv, [(ws, CHAT_HISTORY (default [] (roomChats srv !! roomId)))])
  end.


(** The handling of a list of messages, each with its environment and its
    sender: the server at the end and everything sent. *)
Fixpoint run (srv : t) (inbox : list (Env * nat * Message))
  : t * list (nat * Outgoing) :=
  match inbox with
  | [] => (srv, [])
  | (env, ws, msg) :: rest =>
      let '(srv', sent) := onMessage env srv ws msg in
      let '(srv'', sent') := run srv' rest in
      (srv'', (sent ++ sent')%list)
  end.

End Server.

(** ** The leaderboard sent with a state *)

Module Leaderboard.

(** A value of the [globalLeaderboard] map. *)
Record Cached := mkCached {
  name : string;
  chips : Z;
  chainId : string;
  lastUpdated : Z
}.

(** The map itself: a JavaScript [Map] lists its keys in insertion order
    and [set] on a key it holds keeps the place of the key. *)
Definition t := list (string * Cached).

Fixpoint set (key : string) (value : Cached) (m : t) : t :=
  match m with
  | [] => [(key, value)]
  | (k, v) :: rest =>
      if String.eqb k key then (k, value) :: rest else (k, v) :: set key value rest
  end.

(** [LeaderboardEntry]. *)
Record Entry := mkEntry {
  playerName : string;
  entryChips : Z;
  entryChainId : string
}.

(** [p.chainId || p.address || '']. *)
Definition chainOf (p : PlayerInfo.t) : string :=
  match PlayerInfo.chainId p with
  | Some c => if String.eqb c "" then PlayerInfo.address p else c
  | None => PlayerInfo.address p
  end.

(** [updateLocalLeaderboard(players)] on the map: every player is written
    with the current chips, in the order of the array.  [clock i] is
    [Date.now()] when the player of index [i] is written; the copy saved to
    the local storage is not part of the map. *)
Definition updateLocalLeaderboard (clock : nat -> Z) (players : list PlayerInfo.t)
  (m : t) : t :=
  fold_left
    (fun m ip =>
       set (PlayerInfo.name ip.2)
         (mkCached (PlayerInfo.name ip.2) (PlayerInfo.chips ip.2) (chainOf ip.2)
            (clock ip.1)) m)
    (imap (fun i p => (i, p)) players) m.

(** The comparator [(a, b) => b.chips - a.chips]. *)
Definition byChips (a b : Entry) : Z := entryChips b - entryChips a.

(** The part of [broadcastState] that builds the leaderboard of the state it
    sends: the map after [updateLocalLeaderboard] and the ten entries with
    the most chips. *)
Definition broadcastState (clock : nat -> Z) (newState : PokerGameState.t) (m : t)
  : t * list Entry :=
  let m' :=
    if (0 <? length (PokerGameState.players newState))%nat
    then updateLocalLeaderboard clock (PokerGameState.players newState) m
    else m in
  let leaderboardEntries :=
    map (fun kv => mkEntry kv.1 (chips kv.2) (chainId kv.2)) m' in
  (m', take 10 (Js.sort byChips leaderboardEntries)).

End Leaderboard.

(** ** What a hand holds *)

(** The values of the cards of a hand, as [evaluate5Cards] reads them. *)
Definition valuesOf (cards : list Card.t) : list Z :=
  map (fun c => getCardValue (Card.rank c)) cards.

(** How many of the values [l] are [v]. *)
Definition occZ (v : Z) (l : list Z) : Z :=
  Z.of_nat (length (filter (fun x => x = v) l)).

(** How many cards of the hand have the value [v]. *)
Definition occurrences (v : Z) (cards : list Card.t) : Z :=
  occZ v (valuesOf cards).

(** All cards are of one suit. *)
Definition sameSuit (cards : list Card.t) : Prop :=
  forall c c', c ∈ cards -> c' ∈ cards -> Card.suit c = Card.suit c'.

(** The five values are consecutive with [high] on top, or they are the
    wheel A 2 3 4 5, whose top is 5. *)
Definition straightTo (high : Z) (cards : list Card.t) : Prop :=
  valuesOf cards ≡ₚ [high; high - 1; high - 2; high - 3; high - 4]
  \/ (high = 5 /\ valuesOf cards ≡ₚ [14; 5; 4; 3; 2]).

(** * Properties *)

(** ** The generator and the shuffle *)

Lemma round_nearest_even_multiple m e :
  1 <= e -> 2 ^ (52 + e) <= m ->
  exists k, Js.round_nearest_even m e = 2 * k /\ 2 ^ 52 <= k.
Proof.
  intros He Hm. unfold Js.round_nearest_even.
  assert (Hpow : 2 ^ e = 2 * 2 ^ (e - 1)).
  { rewrite <- Z.pow_succ_r by lia. f_equal. lia. }
  assert (Hpos : 0 < 2 ^ (e - 1)) by (apply Z.pow_pos_nonneg; lia).
  assert (Hq : 2 ^ 52 <= m / 2 ^ e).
  { apply Z.div_le_lower_bound; [lia |].
    rewrite Z.pow_add_r in Hm by lia. lia. }
  set (q := m / 2 ^ e) in *. clearbody q.
  assert (H52 : 0 < 2 ^ 52) by reflexivity.
  repeat case_match.
  all: first [ exists (q * 2 ^ (e - 1)); split; [lia | nia]
             | exists ((q + 1) * 2 ^ (e - 1)); split; [lia | nia] ].
Qed.

(** A number is either small enough to be exact or it is rounded to an even
    integer of the same sign. *)
Lemma js_double_cases x :
  (Z.abs x < 2 ^ 53 /\ Js.js_double x = x)
  \/ (2 ^ 53 <= Z.abs x /\
      exists k, Js.js_double x = 2 * k /\ 2 ^ 52 <= Z.abs k /\ Z.sgn k = Z.sgn x).
Proof.
  unfold Js.js_double. cbv zeta.
  destruct (Z.ltb_spec (Z.abs x) (2 ^ 53)) as [Hlt | Hge]; [left; done | right].
  split; [done |].
  assert (Hlog : 53 <= Z.log2 (Z.abs x)).
  { apply Z.log2_le_pow2; lia. }
  destruct (round_nearest_even_multiple (Z.abs x) (Z.log2 (Z.abs x) - 52))
    as (k & Hk & Hk52).
  { lia. }
  { replace (52 + (Z.log2 (Z.abs x) - 52)) with (Z.log2 (Z.abs x)) by lia.
    apply Z.log2_spec. lia. }
  rewrite Hk. exists (Z.sgn x * k).
  assert (H52 : 0 < 2 ^ 52) by reflexivity.
  destruct (Z.sgn_spec x) as [[? ->] | [[? ->] | [? ->]]]; [ | lia | ].
  - repeat split; [lia | lia |]. rewrite Z.mul_1_l. apply Z.sgn_pos. lia.
  - repeat split; [lia | lia |]. apply Z.sgn_neg. lia.
Qed.

Lemma toInt32_mod x : Js.toInt32 x mod 2 ^ 31 = x mod 2 ^ 31.
Proof.
  unfold Js.toInt32.
  change (2 ^ 32) with (2 * 2 ^ 31).
  change (2 ^ 31) with 2147483648.
  Z.div_mod_to_equations. lia.
Qed.

Lemma band_mask x : Js.band x 0x7fffffff = x mod 2 ^ 31.
Proof.
  unfold Js.band.
  change (Js.toInt32 0x7fffffff) with (Z.ones 31).
  rewrite Z.land_ones by lia. apply toInt32_mod.
Qed.

Lemma next_state this :
  (SeededRandom.next this).1
  = Js.js_double (Js.js_double (this * 1103515245) + 12345) mod 2 ^ 31.
Proof. unfold SeededRandom.next. cbn [fst]. apply band_mask. Qed.

(** The generator never reaches the state [0x7fffffff], the only one for
    which [next] would return 1: an exact product would need a seed
    congruent to 230538014 modulo 2^31, too large for the product to be
    exact, and a rounded one is even. *)
Lemma next_state_below this :
  0 <= (SeededRandom.next this).1 < 0x7fffffff.
Proof.
  rewrite next_state.
  set (p := Js.js_double (this * 1103515245)).
  set (y := Js.js_double (p + 12345)).
  assert (Hrange : 0 <= y mod 2 ^ 31 < 2 ^ 31) by (apply Z.mod_pos_bound; reflexivity).
  enough (y mod 2 ^ 31 <> 2147483647).
  { change (2 ^ 31) with 2147483648 in *. lia. }
  intros Hy.
  destruct (js_double_cases (p + 12345)) as [[Hsmall Hexact] | [_ (k & Hk & _)]].
  2:{ subst y. rewrite Hk in Hy. change (2 ^ 31) with 2147483648 in *.
      Z.div_mod_to_equations. lia. }
  fold y in Hexact. rewrite Hexact in Hy. clear Hexact y Hrange.
  destruct (js_double_cases (this * 1103515245))
    as [[Hs He] | [Hbig (k & Hk & Hk52 & Hsgn)]]; fold p in He || fold p in Hk.
  - rewrite He in Hy. clear He Hsmall p.
    change (2 ^ 31) with 2147483648 in *. change (2 ^ 53) with 9007199254740992 in *.
    pose proof (Z.div_mod (this * 1103515245 + 12345) 2147483648 ltac:(lia)) as Hdm.
    rewrite Hy in Hdm.
    set (q := (this * 1103515245 + 12345) / 2147483648) in *. clearbody q.
    lia.
  - rewrite Hk in Hy, Hsmall.
    change (2 ^ 31) with 2147483648 in *. change (2 ^ 53) with 9007199254740992 in *.
    change (2 ^ 52) with 4503599627370496 in *.
    Z.div_mod_to_equations. lia.
Qed.

Lemma next_unit_interval this :
  (0 <= (SeededRandom.next this).2 < 1)%Q.
Proof.
  pose proof (next_state_below this) as Hs.
  unfold SeededRandom.next in *. cbn [fst snd] in *.
  set (s := Js.band _ _) in *. clearbody s.
  unfold Qle, Qlt, Qdiv, Qmult, Qinv, inject_Z. cbn. lia.
Qed.

Lemma nextInt_value this max :
  (SeededRandom.nextInt this max).2
  = ((SeededRandom.next this).1 * max) / 2147483647.
Proof.
  unfold SeededRandom.nextInt, SeededRandom.next. cbn [fst snd].
  set (s := Js.band _ _). clearbody s.
  unfold Qfloor, Qdiv, Qmult, Qinv, inject_Z. cbn.
  f_equal. lia.
Qed.

Lemma nextInt_range this i :
  0 <= i -> 0 <= (SeededRandom.nextInt this (i + 1)).2 <= i.
Proof.
  intros Hi. rewrite nextInt_value.
  pose proof (next_state_below this) as Hs.
  set (s := (SeededRandom.next this).1) in *. clearbody s.
  change 0x7fffffff with 2147483647 in Hs.
  split.
  - apply Z.div_pos; nia.
  - enough (s * (i + 1) / 2147483647 < i + 1) by lia.
    apply Z.div_lt_upper_bound; nia.
Qed.

Section ArraySwap.
Context {A : Type}.
Implicit Types l : list A.

Lemma insert_head_perm l j y a :
  l !! j = Some y -> y :: <[j := a]> l ≡ₚ a :: l.
Proof.
  revert j. induction l as [| b t IH]; intros [| j] Hj; simplify_eq/=.
  - apply perm_swap.
  - rewrite (perm_swap b y), (IH _ Hj). apply perm_swap.
Qed.

Lemma insert_swap_perm l i j x y :
  l !! i = Some x -> l !! j = Some y -> <[j := x]> (<[i := y]> l) ≡ₚ l.
Proof.
  revert i j. induction l as [| a t IH]; intros [| i] [| j] Hi Hj; simplify_eq/=.
  - done.
  - by apply insert_head_perm.
  - by apply insert_head_perm.
  - f_equiv. by apply IH.
Qed.

End ArraySwap.

Lemma swap_in_bounds deck (i : nat) (j : Z) :
  (i < length deck)%nat -> 0 <= j < Z.of_nat (length deck) ->
  swap deck i j ≡ₚ deck.
Proof.
  intros Hi Hj. unfold swap, Js.get, Js.index.
  destruct (Z.ltb_spec j 0) as [? | _]; [lia |].
  destruct (Z.ltb_spec (Z.of_nat i) 0) as [? | _]; [lia |].
  rewrite Nat2Z.id.
  destruct (lookup_lt_is_Some_2 deck i Hi) as [x Hx].
  destruct (lookup_lt_is_Some_2 deck (Z.to_nat j) ltac:(lia)) as [y Hy].
  rewrite Hx, Hy. cbn [mjoin option_join].
  unfold Js.set.
  destruct (Nat.ltb_spec i (length deck)) as [_ | ?]; [| lia].
  rewrite length_insert.
  destruct (Nat.ltb_spec (Z.to_nat j) (length deck)) as [_ | ?]; [| lia].
  by apply insert_swap_perm.
Qed.

Lemma fisherYates_perm i rng deck :
  (i < length deck)%nat -> fisherYates i rng deck ≡ₚ deck.
Proof.
  revert rng deck. induction i as [| i IH]; intros rng deck Hi; [done |].
  cbn [fisherYates].
  pose proof (nextInt_range rng (Z.of_nat (S i)) ltac:(lia)) as Hj.
  destruct (SeededRandom.nextInt rng (Z.of_nat (S i) + 1)) as [rng' j].
  cbn [snd] in Hj.
  assert (Hswap : swap deck (S i) j ≡ₚ deck) by (apply swap_in_bounds; lia).
  rewrite IH; [done |].
  rewrite (Permutation_length Hswap). lia.
Qed.

Lemma shuffleDeck_perm seed : shuffleDeck seed ≡ₚ map Some createDeck.
Proof. unfold shuffleDeck. apply fisherYates_perm. vm_compute. lia. Qed.

Lemma shuffleDeck_cards seed :
  exists cards, shuffleDeck seed = map Some cards /\ cards ≡ₚ createDeck.
Proof.
  destruct (Permutation_map_inv Some createDeck (shuffleDeck_perm seed))
    as (cards & Heq & Hperm).
  exists cards. split; [done | by symmetry].
Qed.

Lemma fisherYates_indices i rng deck :
  fisherYates i rng deck
  = fold_left (fun d ij => swap d ij.1 ij.2) (shuffleIndices i rng) deck.
Proof.
  revert rng deck. induction i as [| i IH]; intros rng deck; [done |].
  cbn [fisherYates shuffleIndices].
  destruct (SeededRandom.nextInt rng (Z.of_nat (S i) + 1)) as [rng' j].
  cbn [fold_left fst snd]. apply IH.
Qed.

Lemma shuffleIndices_bounds n i rng :
  (i <= n)%nat ->
  Forall (fun ij => (1 <= ij.1 <= n)%nat /\ 0 <= ij.2 <= Z.of_nat ij.1)
    (shuffleIndices i rng).
Proof.
  revert rng. induction i as [| i IH]; intros rng Hi; [constructor |].
  cbn [shuffleIndices].
  pose proof (nextInt_range rng (Z.of_nat (S i)) ltac:(lia)) as Hj.
  destruct (SeededRandom.nextInt rng (Z.of_nat (S i) + 1)) as [rng' j].
  constructor; [cbn [fst snd] in *; lia | apply IH; lia].
Qed.

(** The seed of the first hand of A and B at the table "table-1". *)
Example generateHandSeed_heads_up :
  generateHandSeed "table-1" 1 ["A"; "B"] = hashString "table-1:1:A,B"
  /\ hashString "table-1:1:A,B" = 1403237190.
Proof. split; vm_compute; reflexivity. Qed.

(** The index pairs drawn with binary64 arithmetic are those of the integer
    model, on the seeds 0, 1, the seed of the first heads-up hand, the
    largest hash and the only seed whose exact successor would be
    [0x7fffffff]. *)
Example binary64_draws_agree :
  Forall
    (fun seed => Binary64.shuffleIndices 51 (Binary64.ofZ seed)
                 = shuffleIndices 51 (SeededRandom.create seed))
    [0; 1; 12345; 1403237190; 2147483647; 2147483648; 230538014].
Proof.
  repeat (constructor; [vm_compute; reflexivity |]). constructor.
Qed.

Lemma createDeck_eachCardOnce : eachCardOnce createDeck.
Proof. unfold eachCardOnce. repeat constructor. Qed.

Lemma eachCardOnce_perm cards cards' :
  cards ≡ₚ cards' -> eachCardOnce cards' -> eachCardOnce cards.
Proof.
  intros Hperm. unfold eachCardOnce. intros Hall.
  eapply Forall_impl; [exact Hall |]. intros suit Hsuit. cbn beta in *.
  eapply Forall_impl; [exact Hsuit |]. intros rank Hrank. cbn beta in *.
  by rewrite Hperm.
Qed.

(** ** The hand evaluator *)

Lemma royal_flush_of_any_suit suit :
  evaluate5Cards
    [Card.mk "A" suit 14; Card.mk "K" suit 13; Card.mk "Q" suit 12;
     Card.mk "J" suit 11; Card.mk "10" suit 10]
  = Some (Hand.mk HAND_RANKS.ROYAL_FLUSH [14]).
Proof.
  unfold evaluate5Cards. cbn [map Card.suit Card.rank forallb].
  rewrite String.eqb_refl. reflexivity.
Qed.

(** *** The evaluator returns a hand for five defined cards *)

Lemma sort_insert_perm {A} (cmp : A -> A -> Z) x l :
  Js.sort_insert cmp x l ≡ₚ x :: l.
Proof.
  induction l as [| y l IH]; [done |]. cbn [Js.sort_insert].
  destruct (_ <=? 0); [done |]. rewrite IH. apply perm_swap.
Qed.

Lemma sort_perm {A} (cmp : A -> A -> Z) l : Js.sort cmp l ≡ₚ l.
Proof.
  unfold Js.sort. induction l as [| x l IH]; [done |].
  cbn [foldr]. by rewrite sort_insert_perm, IH.
Qed.

Lemma countUp_total v counts :
  sumZ (map snd (countUp v counts)) = sumZ (map snd counts) + 1.
Proof.
  unfold sumZ. induction counts as [| [k n] rest IH]; [done |].
  cbn [countUp]. repeat case_match; cbn [map foldr snd] in *. all: lia.
Qed.

Lemma counts_total values counts :
  sumZ (map snd (fold_left (fun counts v => countUp v counts) values counts))
  = sumZ (map snd counts) + Z.of_nat (length values).
Proof.
  revert counts. induction values as [| v values IH]; intros counts.
  - cbn [fold_left length]. lia.
  - cbn [fold_left length]. rewrite IH, countUp_total. lia.
Qed.

Lemma sumZ_perm l l' : l ≡ₚ l' -> sumZ l = sumZ l'.
Proof. unfold sumZ. induction 1; cbn [foldr] in *; lia. Qed.

Lemma evaluate5Cards_total cards :
  length cards = 5%nat -> is_Some (evaluate5Cards cards).
Proof.
  intros Hlen. unfold evaluate5Cards.
  set (values := Js.sort descending (map (fun c => getCardValue (Card.rank c)) cards)).
  assert (Hvalues : length values = 5%nat).
  { unfold values. by rewrite (Permutation_length (sort_perm _ _)), length_map. }
  set (countValues :=
         Js.sort byCountThenValue
           (fold_left (fun counts v => countUp v counts) values [])).
  assert (Hsum : sumZ (map snd countValues) = 5).
  { unfold countValues.
    rewrite (sumZ_perm _ _ (fmap_Permutation snd _ _ (sort_perm _ _))).
    rewrite counts_total, Hvalues. done. }
  clearbody countValues.
  destruct (match map Card.suit cards with [] => true | s0 :: _ => _ end);
    destruct (if (length _ =? 5)%nat then _ else _) as [[] straightHigh];
    cbn [andb].
  all: try (destruct (straightHigh =? 14); done).
  all: destruct countValues as [| [v0 n0] [| [v1 n1] rest]];
    unfold sumZ in Hsum; cbn [map foldr snd] in Hsum; [lia | |];
    cbn [lookup list_lookup mbind option_bind fst snd].
  all: repeat match goal with
              | |- context [?a =? ?b] => destruct (Z.eqb_spec a b)
              end;
         cbn [mbind option_bind]; try done; lia.
Qed.

Lemma getCombinations_spec {A} (cards : list A) (size : nat) combo :
  combo ∈ getCombinations cards size ->
  length combo = size /\ (forall x, x ∈ combo -> x ∈ cards).
Proof.
  revert size combo. induction cards as [| c rest IH]; intros [| k] combo Hin;
    cbn [getCombinations] in Hin.
  - apply list_elem_of_singleton in Hin as ->. split; [done |]. by intros x ?%elem_of_nil.
  - by apply elem_of_nil in Hin.
  - apply list_elem_of_singleton in Hin as ->. split; [done |]. by intros x ?%elem_of_nil.
  - apply elem_of_app in Hin as [Hin | Hin].
    + apply list_elem_of_fmap in Hin as (combo' & -> & Hin).
      destruct (IH _ _ Hin) as [Hlen Hsub]. split; [cbn; lia |].
      intros x [-> | Hx]%elem_of_cons; [left | right; by apply Hsub].
    + destruct (IH _ _ Hin) as [Hlen Hsub]. split; [done |].
      intros x Hx. right. by apply Hsub.
Qed.

Lemma evaluateBestHand_total holeCards communityCards :
  Forall is_Some holeCards -> Forall is_Some communityCards ->
  is_Some (evaluateBestHand holeCards communityCards).
Proof.
  intros Hhole Hcomm. unfold evaluateBestHand.
  assert (Hall : Forall is_Some (holeCards ++ communityCards)) by by apply Forall_app.
  assert (Hcombos : forall combo,
            combo ∈ getCombinations (holeCards ++ communityCards) 5 ->
            exists cards, definedCards combo = Some cards /\ length cards = 5%nat).
  { intros combo Hin. destruct (getCombinations_spec _ _ _ Hin) as [Hlen Hsub].
    destruct (mapM id combo) as [cards |] eqn:Hcards.
    - exists cards. split; [done |]. apply length_mapM in Hcards. lia.
    - exfalso. assert (Hs : is_Some (mapM id combo)); [| rewrite Hcards in Hs; by destruct Hs].
      apply mapM_is_Some. apply Forall_forall. intros x Hx.
      rewrite Forall_forall in Hall. apply Hall, Hsub, Hx. }
  generalize (Hand.mk 0 [0]) as best.
  induction (getCombinations (holeCards ++ communityCards) 5) as [| combo combos IH];
    intros best; [done |].
  cbn [fold_left mbind option_bind].
  destruct (Hcombos combo ltac:(left)) as (cards & -> & Hlen).
  cbn [mbind option_bind].
  destruct (evaluate5Cards_total cards Hlen) as [hand ->].
  cbn [mbind option_bind]. apply IH. intros c Hc. apply Hcombos. by right.
Qed.

Lemma findWinners_head first others rest :
  is_Some (head (findWinners first others rest)).
Proof.
  revert first others. induction rest as [| ph rest IH]; intros first others; [done |].
  cbn [findWinners]. repeat case_match; apply IH.
Qed.

Lemma evaluatePlayer_total s updated cards p :
  Forall is_Some cards ->
  (forall d, PokerGameState.dealtCards s = Some d ->
             Forall (Forall is_Some) (DealtCards.playerCards d)) ->
  is_Some (evaluatePlayer s updated cards p).
Proof.
  intros Hcards Hhole. unfold evaluatePlayer.
  set (hole := default [] _).
  assert (Hdef : Forall is_Some hole).
  { unfold hole. destruct (PokerGameState.dealtCards s) as [d |]; [| done].
    cbn [mbind option_bind]. unfold Js.index. destruct (_ <? 0); [done |].
    destruct (DealtCards.playerCards d !! _) as [h |] eqn:Hh; [| done].
    cbn [default]. specialize (Hhole d eq_refl). rewrite Forall_forall in Hhole.
    apply Hhole. by eapply list_elem_of_lookup_2. }
  destruct (evaluateBestHand_total hole cards Hdef Hcards) as [best ->]. done.
Qed.

Lemma showdownState_total s updated cards potInc :
  filter (fun p => notFolded p = true) updated <> [] ->
  Forall is_Some cards ->
  (forall d, PokerGameState.dealtCards s = Some d ->
             Forall (Forall is_Some) (DealtCards.playerCards d)) ->
  is_Some (showdownState s updated cards potInc).
Proof.
  intros Hin Hcards Hhole. unfold showdownState.
  destruct (mapM (evaluatePlayer s updated cards)
              (filter (fun p => notFolded p = true) updated)) as [hands |] eqn:Hhands.
  2:{ assert (Hs : is_Some (mapM (evaluatePlayer s updated cards)
                              (filter (fun p => notFolded p = true) updated))).
      { apply mapM_is_Some, Forall_forall. intros p _. by apply evaluatePlayer_total. }
      rewrite Hhands in Hs. by destruct Hs. }
  cbn [mbind option_bind].
  destruct hands as [| ph0 rest].
  { apply length_mapM in Hhands. destruct (filter _ updated); [done | discriminate]. }
  destruct (findWinners_head ph0 [] rest) as [w0 ->]. done.
Qed.

(** ** The betting state machine *)

Lemma performAction_inv action name s s' :
  performAction action name s = Broadcast s' ->
  exists actingPlayer updated e,
    find (fun p => String.eqb (PlayerInfo.name p) name) (PokerGameState.players s)
      = Some actingPlayer
    /\ actionEffect action name s actingPlayer = (updated, e)
    /\ Outcome s (effectiveAction (parseAction action).1 actingPlayer) updated e s'.
Proof.
  unfold performAction, actionEffect.
  destruct (parseAction action) as [actionStr amount]. cbn [fst].
  destruct (find _ _) as [actingPlayer |]; [| done].
  destruct (updatePlayers _ _ _ _ _ _) as [updated e] eqn:Hupd.
  intros H. exists actingPlayer, updated, e. split; [done |]. split; [done |].
  set (a := effectiveAction actionStr actingPlayer) in *. clearbody a.
  destruct (roundCloses s a updated (newTableBet e)) eqn:Hadv.
  - assert (Hnext : forall idx,
      (phaseAfter s = "Showdown" ->
       filter (fun p => notFolded p = true) updated = []) ->
      Outcome s a updated e
        (nextState s (map (PlayerInfo.with_currentBet 0) updated) (potIncrease e) 0
           idx (phaseAfter s)
           (revealCards (phaseAfter s) (PokerGameState.communityCards s)
              (preDealtCards s)))).
    { intros idx Hsd. by eapply NextStreet. }
    destruct (filter (fun p => notFolded p = true) updated) as [| w [| w' rest]] eqn:Hin.
    + cbn [length Nat.ltb Nat.leb andb] in H. rewrite andb_false_r in H.
      simplify_eq. by apply Hnext.
    + simplify_eq. by eapply FoldWin.
    + cbn [andb] in H.
      destruct (String.eqb_spec (phaseAfter s) "Showdown") as [Hsd | Hsd].
      * assert (Hf : String.eqb (phaseAfter s) "Flop" = false) by by rewrite Hsd.
        assert (Ht : String.eqb (phaseAfter s) "Turn" = false) by by rewrite Hsd.
        assert (Hr : String.eqb (phaseAfter s) "River" = false) by by rewrite Hsd.
        rewrite Hf, Ht, Hr in H. cbn [andb negb length Nat.ltb Nat.leb] in H.
        destruct (showdownState _ _ _ _) as [s'' |] eqn:Hshow; [| done].
        simplify_eq. by apply Showdown.
      * rewrite !andb_false_r in H. cbn [andb] in H. simplify_eq.
        apply Hnext. done.
  - cbn [andb] in H.
    destruct (filter (fun p => notFolded p = true) updated) as [| w [| w' rest]] eqn:Hin.
    + simplify_eq. eapply SameStreet; [done | | done]. by rewrite Hin.
    + simplify_eq. by eapply FoldWin.
    + simplify_eq. eapply SameStreet; [done | | done]. by rewrite Hin.
Qed.

(** *** Chip accounting *)



Lemma updatePlayers_absent actionStr amount tableBet name players e :
  name ∉ map PlayerInfo.name players ->
  updatePlayers actionStr amount tableBet name players e = (players, e).
Proof.
  induction players as [| p rest IH]; intros Hnot; [done |].
  cbn in Hnot. apply not_elem_of_cons in Hnot as [Hne Hrest].
  cbn [updatePlayers].
  destruct (String.eqb_spec (PlayerInfo.name p) name) as [Heq | _]; [congruence |].
  by rewrite IH.
Qed.




Lemma awardPot_bets winnerName totalPot players :
  sumZ (map PlayerInfo.currentBet (map (awardPot winnerName totalPot) players)) = 0.
Proof.
  induction players as [| p rest IH]; [done |].
  cbn [map sumZ foldr].
  fold (sumZ (map PlayerInfo.currentBet (map (awardPot winnerName totalPot) rest))).
  rewrite IH. unfold awardPot. by destruct (String.eqb _ _).
Qed.


Lemma reset_bets_total players :
  sumZ (map PlayerInfo.currentBet (map (PlayerInfo.with_currentBet 0) players)) = 0.
Proof. induction players as [| p rest IH]; [done |]. cbn. apply IH. Qed.

(** *** The winner of a showdown is one of the players *)

Lemma findWinners_subset first others rest :
  forall ph, ph ∈ findWinners first others rest -> ph ∈ first :: others ++ rest.
Proof.
  revert first others. induction rest as [| c rest IH]; intros first others ph.
  - cbn. by rewrite app_nil_r.
  - cbn [findWinners]. intros Hin.
    repeat case_match; apply IH in Hin;
      repeat (rewrite ?elem_of_cons, ?elem_of_app, ?elem_of_nil in Hin);
      repeat (rewrite ?elem_of_cons, ?elem_of_app); tauto.
Qed.

Lemma evaluatePlayer_player s updated cards p ph :
  evaluatePlayer s updated cards p = Some ph -> player ph = p.
Proof.
  unfold evaluatePlayer. intros H.
  destruct (evaluateBestHand _ _); simplify_eq/=. done.
Qed.

Lemma showdownState_inv s updated cards potInc s' :
  showdownState s updated cards potInc = Some s' ->
  exists winner handRank showdownCards,
    winner ∈ updated
    /\ s' = {| PokerGameState.tableId := PokerGameState.tableId s;
             PokerGameState.tableName := PokerGameState.tableName s;
             PokerGameState.players :=
               map (awardPot (PlayerInfo.name winner) (PokerGameState.pot s + potInc))
                 updated;
             PokerGameState.pot := 0;
             PokerGameState.communityCards := cards;
             PokerGameState.phase := "Winner";
             PokerGameState.currentBet := 0;
             PokerGameState.dealerPosition := PokerGameState.dealerPosition s;
             PokerGameState.currentPlayerIndex := 0;
             PokerGameState.playerCount := PokerGameState.playerCount s;
             PokerGameState.handNumber := PokerGameState.handNumber s;
             PokerGameState.handSeed := PokerGameState.handSeed s;
             PokerGameState.dealtCards := PokerGameState.dealtCards s;
             PokerGameState.winner :=
               Some (Winner.mk (PlayerInfo.name winner) (PokerGameState.pot s + potInc)
                       "showdown" (Some handRank));
             PokerGameState.showdownCards := Some showdownCards |}.
Proof.
  unfold showdownState. intros H.
  destruct (mapM _ _) as [playerHands |] eqn:Hhands; [| done].
  cbn [mbind option_bind] in H.
  destruct playerHands as [| ph0 rest]; [done |].
  destruct (head (findWinners ph0 [] rest)) as [w0 |] eqn:Hhead; [| done].
  cbn [mbind option_bind] in H. injection H as <-.
  eexists (player w0), _, _. split; [| reflexivity].
  apply head_Some_elem_of in Hhead.
  apply findWinners_subset in Hhead. cbn [app] in Hhead.
  apply mapM_Some in Hhands.
  apply list_elem_of_lookup in Hhead as [i Hi].
  destruct (Forall2_lookup_r _ _ _ _ _ Hhands Hi) as (p & Hp & Hev).
  apply evaluatePlayer_player in Hev. rewrite Hev.
  apply list_elem_of_lookup_2 in Hp. by apply list_elem_of_filter in Hp as [_ ?].
Qed.

Lemma handInProgress_phase s :
  handInProgress s = true ->
  PokerGameState.phase s = "PreFlop" \/ PokerGameState.phase s = "Flop"
  \/ PokerGameState.phase s = "Turn" \/ PokerGameState.phase s = "River".
Proof.
  unfold handInProgress, Js.includes. cbn [existsb].
  destruct (String.eqb_spec (PokerGameState.phase s) "PreFlop"); [tauto |].
  destruct (String.eqb_spec (PokerGameState.phase s) "Flop"); [tauto |].
  destruct (String.eqb_spec (PokerGameState.phase s) "Turn"); [tauto |].
  destruct (String.eqb_spec (PokerGameState.phase s) "River"); [tauto |].
  done.
Qed.




Lemma effectiveAction_fold_check actionStr p :
  actionStr = "fold" \/ actionStr = "check" ->
  effectiveAction actionStr p = actionStr.
Proof.
  unfold effectiveAction. intros [-> | ->]; cbn; by rewrite andb_false_r.
Qed.

Lemma phaseAfter_differs s :
  handInProgress s = true -> phaseAfter s <> PokerGameState.phase s.
Proof.
  intros Hin. unfold phaseAfter.
  destruct (handInProgress_phase _ Hin) as [-> | [-> | [-> | ->]]]; done.
Qed.

Lemma winner_not_in_progress s :
  handInProgress s = true -> PokerGameState.phase s <> "Winner".
Proof.
  intros Hin. destruct (handInProgress_phase _ Hin) as [-> | [-> | [-> | ->]]]; done.
Qed.

Lemma allPlayersMatched_spec updated tableBet :
  allPlayersMatched (filter (fun p => activeOrAllIn p = true) updated) tableBet = true
  <-> (forall p, p ∈ updated -> PlayerInfo.status p = "Active" ->
                 PlayerInfo.currentBet p = tableBet).
Proof.
  unfold allPlayersMatched. rewrite forallb_forall. split.
  - intros H p Hin Hst.
    specialize (H p). rewrite <- list_elem_of_In, list_elem_of_filter in H.
    unfold activeOrAllIn in H. rewrite Hst in H. cbn in H.
    specialize (H (conj eq_refl Hin)). lia.
  - intros H p. rewrite <- list_elem_of_In, list_elem_of_filter.
    unfold activeOrAllIn. intros [Hact Hin].
    destruct (String.eqb_spec (PlayerInfo.status p) "AllIn") as [| Hne];
      [by rewrite orb_true_r |].
    rewrite orb_false_r in *. apply String.eqb_eq in Hact.
    rewrite (H p Hin Hact). apply Z.eqb_refl.
Qed.

Lemma isClosingAction_spec actionStr :
  isClosingAction actionStr = true
  <-> actionStr = "check" \/ actionStr = "call" \/ actionStr = "fold".
Proof.
  unfold isClosingAction, Js.includes. cbn [existsb].
  rewrite !orb_true_iff, !String.eqb_eq. intuition discriminate.
Qed.

Lemma phase_index_in_progress s :
  handInProgress s = true ->
  (Js.indexOf phases (PokerGameState.phase s) <? Z.of_nat (length phases) - 1) = true.
Proof.
  intros Hin. destruct (handInProgress_phase _ Hin) as [-> | [-> | [-> | ->]]]; done.
Qed.

Lemma active_not_folded p : activeOrAllIn p = true -> notFolded p = true.
Proof.
  unfold activeOrAllIn, notFolded. intros H.
  apply orb_true_iff in H as [H | H]; apply String.eqb_eq in H; by rewrite H.
Qed.

Lemma active_length_still_in players :
  (length (filter (fun p => activeOrAllIn p = true) players)
   <= length (filter (fun p => notFolded p = true) players))%nat.
Proof.
  induction players as [| p rest IH]; [done |].
  rewrite !filter_cons.
  destruct (decide (activeOrAllIn p = true)) as [Ha | Ha].
  - rewrite decide_True by by apply active_not_folded. cbn. lia.
  - destruct (decide (notFolded p = true)); cbn; lia.
Qed.

Lemma updatePlayers_check amount tableBet name players e :
  updatePlayers "check" amount tableBet name players e = (players, e).
Proof.
  induction players as [| p rest IH]; [done |].
  cbn [updatePlayers]. change (actOn "check" amount tableBet p e) with (p, e).
  destruct (String.eqb _ _); by rewrite IH.
Qed.

Lemma get_defined (cards : list Card.t) (i : Z) :
  0 <= i -> Js.get (map Some cards) i = cards !! Z.to_nat i.
Proof.
  intros Hi. unfold Js.get, Js.index.
  destruct (Z.ltb_spec i 0); [lia |].
  rewrite list_lookup_fmap. by destruct (cards !! Z.to_nat i).
Qed.

Lemma dealPlayerCards_index deck n cardIndex :
  (dealPlayerCards deck n cardIndex).2 = cardIndex + 2 * Z.of_nat n.
Proof.
  revert cardIndex. induction n as [| n IH]; intros cardIndex.
  - cbn. lia.
  - cbn [dealPlayerCards]. specialize (IH (cardIndex + 2)).
    destruct (dealPlayerCards deck n (cardIndex + 2)). cbn [snd] in *. lia.
Qed.

Lemma dealCards_community (cards : list Card.t) (n : nat) :
  length cards = 52%nat -> (2 * n + 8 <= 52)%nat ->
  fiveDefined (DealtCards.communityCards (dealCards (map Some cards) n)).
Proof.
  intros Hlen Hn. unfold dealCards.
  pose proof (dealPlayerCards_index (map Some cards) n 0) as Hidx.
  destruct (dealPlayerCards (map Some cards) n 0) as [playerCards cardIndex].
  cbn [snd] in Hidx. cbn [DealtCards.communityCards].
  rewrite !get_defined by lia.
  destruct (lookup_lt_is_Some_2 cards (Z.to_nat (cardIndex + 1)) ltac:(lia)) as [c1 ->].
  destruct (lookup_lt_is_Some_2 cards (Z.to_nat (cardIndex + 1 + 1)) ltac:(lia)) as [c2 ->].
  destruct (lookup_lt_is_Some_2 cards (Z.to_nat (cardIndex + 1 + 2)) ltac:(lia)) as [c3 ->].
  destruct (lookup_lt_is_Some_2 cards (Z.to_nat (cardIndex + 1 + 3 + 1)) ltac:(lia)) as [c4 ->].
  destruct (lookup_lt_is_Some_2 cards (Z.to_nat (cardIndex + 1 + 3 + 1 + 1 + 1)) ltac:(lia))
    as [c5 ->].
  by exists c1, c2, c3, c4, c5.
Qed.

Lemma startGame_inv tableId s s' :
  (2 * length (PokerGameState.players s) + 8 <= 52)%nat ->
  startGame tableId s = StartBroadcast s' ->
  PokerGameState.phase s' = "PreFlop"
  /\ PokerGameState.communityCards s' = []
  /\ fiveDefined (preDealtCards s').
Proof.
  intros Hn. unfold startGame.
  destruct (_ <? 2)%nat; [done |]. intros [= <-].
  cbn [PokerGameState.phase PokerGameState.communityCards].
  split; [done |]. split; [done |].
  unfold preDealtCards. cbn [PokerGameState.dealtCards fmap option_fmap option_map default].
  destruct (shuffleDeck_cards
              (generateHandSeed tableId (PokerGameState.handNumber s + 1)
                 (map PlayerInfo.address (PokerGameState.players s))))
    as (cards & -> & Hperm).
  apply dealCards_community; [| done].
  by rewrite (Permutation_length Hperm).
Qed.

Lemma still_in_nil_active players :
  filter (fun p => notFolded p = true) players = [] ->
  filter (fun p => activeOrAllIn p = true) players = [].
Proof.
  intros H. pose proof (active_length_still_in players) as Hle.
  rewrite H in Hle. cbn in Hle. by apply length_zero_iff_nil; lia.
Qed.

Lemma roundCloses_many s actionStr updated tableBet :
  roundCloses s actionStr updated tableBet = true ->
  (1 < length (filter (fun p => activeOrAllIn p = true) updated))%nat.
Proof.
  unfold roundCloses. rewrite !andb_true_iff. intros [[_ H] _]. by apply Nat.ltb_lt.
Qed.

Lemma cardsMatchPhase_street s :
  handInProgress s = true ->
  (PokerGameState.phase s = "PreFlop" -> length (PokerGameState.communityCards s) = 0%nat) ->
  (PokerGameState.phase s = "Flop" -> length (PokerGameState.communityCards s) = 3%nat) ->
  (PokerGameState.phase s = "Turn" -> length (PokerGameState.communityCards s) = 4%nat) ->
  (PokerGameState.phase s = "River" -> length (PokerGameState.communityCards s) = 5%nat) ->
  cardsMatchPhase s.
Proof.
  intros Hhand Hpre Hflop Hturn Hriver. unfold cardsMatchPhase.
  repeat split; try done; try tauto.
  all: intros H; unfold handInProgress in Hhand; by rewrite H in Hhand.
Qed.

Lemma cardsMatchPhase_winner s w :
  PokerGameState.phase s = "Winner" ->
  PokerGameState.winner s = Some w ->
  (Winner.reason w = "showdown" /\ length (PokerGameState.communityCards s) = 5%nat
   \/ Winner.reason w = "fold"
      /\ (length (PokerGameState.communityCards s) = 0
          \/ length (PokerGameState.communityCards s) = 3
          \/ length (PokerGameState.communityCards s) = 4
          \/ length (PokerGameState.communityCards s) = 5)%nat) ->
  cardsMatchPhase s.
Proof.
  intros Hphase Hw Hn. unfold cardsMatchPhase. rewrite Hphase.
  repeat split; try done; try tauto. intros _. by exists w.
Qed.

Lemma revealCards_flop cards preDealt :
  length cards = 0%nat -> fiveDefined preDealt ->
  length (revealCards "Flop" cards preDealt) = 3%nat.
Proof.
  intros Hlen (c1 & c2 & c3 & c4 & c5 & ->). unfold revealCards.
  change (String.eqb "Flop" "Flop") with true. by rewrite Hlen.
Qed.

Lemma revealCards_turn cards preDealt :
  length cards = 3%nat -> fiveDefined preDealt ->
  length (revealCards "Turn" cards preDealt) = 4%nat.
Proof.
  intros Hlen (c1 & c2 & c3 & c4 & c5 & ->). unfold revealCards.
  change (String.eqb "Turn" "Flop") with false.
  change (String.eqb "Turn" "Turn") with true.
  rewrite Hlen.
  change (Js.get [Some c1; Some c2; Some c3; Some c4; Some c5] 3) with (Some c4).
  cbn [andb Nat.eqb]. rewrite length_app, Hlen. done.
Qed.

Lemma revealCards_river cards preDealt :
  length cards = 4%nat -> fiveDefined preDealt ->
  length (revealCards "River" cards preDealt) = 5%nat.
Proof.
  intros Hlen (c1 & c2 & c3 & c4 & c5 & ->). unfold revealCards.
  change (String.eqb "River" "Flop") with false.
  change (String.eqb "River" "Turn") with false.
  change (String.eqb "River" "River") with true.
  rewrite Hlen.
  change (Js.get [Some c1; Some c2; Some c3; Some c4; Some c5] 4) with (Some c5).
  cbn [andb Nat.eqb]. rewrite length_app, Hlen. done.
Qed.

Lemma revealCards_showdown cards preDealt :
  revealCards "Showdown" cards preDealt = cards.
Proof. reflexivity. Qed.

Lemma performAction_invariant action name s s' :
  tableInvariant s -> handInProgress s = true ->
  performAction action name s = Broadcast s' ->
  tableInvariant s'.
Proof.
  intros [Hcards Hdealt] Hhand Hact. specialize (Hdealt Hhand).
  destruct (performAction_inv _ _ _ _ Hact) as (actingPlayer & updated & e & _ & _ & Hout).
  destruct Hcards as (_ & Hpre & Hflop & Hturn & Hriver & _).
  destruct Hout as [winner Hwin -> | Hclose Hsd Hshow | idx Hclose -> Hsd | idx Hopen Hlen ->].
  - (* the last opponent folded *)
    split; [| done].
    eapply cardsMatchPhase_winner; [reflexivity | reflexivity |].
    right. split; [done |]. cbn [foldWinState PokerGameState.communityCards].
    destruct (handInProgress_phase _ Hhand) as [H | [H | [H | H]]];
      [rewrite (Hpre H) | rewrite (Hflop H) | rewrite (Hturn H) | rewrite (Hriver H)];
      tauto.
  - (* showdown *)
    destruct (showdownState_inv _ _ _ _ _ Hshow) as (winner & hr & sc & Hin & ->).
    split; [| done].
    eapply cardsMatchPhase_winner; [reflexivity | reflexivity |].
    left. split; [done |]. cbn [PokerGameState.communityCards].
    rewrite Hsd, revealCards_showdown. apply Hriver.
    unfold phaseAfter in Hsd.
    destruct (handInProgress_phase _ Hhand) as [H | [H | [H | H]]];
      rewrite H in Hsd; done.
  - (* next street *)
    apply roundCloses_many in Hclose.
    assert (Hnsd : phaseAfter s <> "Showdown").
    { intros H. apply Hsd, still_in_nil_active in H. rewrite H in Hclose.
      cbn in Hclose. lia. }
    assert (Hnext : PokerGameState.phase s = "PreFlop" /\ phaseAfter s = "Flop"
                    \/ PokerGameState.phase s = "Flop" /\ phaseAfter s = "Turn"
                    \/ PokerGameState.phase s = "Turn" /\ phaseAfter s = "River").
    { unfold phaseAfter in *.
      destruct (handInProgress_phase _ Hhand) as [H | [H | [H | H]]];
        rewrite H in *; tauto. }
    assert (Hin : handInProgress
                    (nextState s (map (PlayerInfo.with_currentBet 0) updated)
                       (potIncrease e) 0 idx (phaseAfter s)
                       (revealCards (phaseAfter s) (PokerGameState.communityCards s)
                          (preDealtCards s))) = true).
    { unfold handInProgress. cbn [nextState PokerGameState.phase].
      destruct Hnext as [[_ ->] | [[_ ->] | [_ ->]]]; reflexivity. }
    split; [| done].
    apply cardsMatchPhase_street; [done | ..];
      cbn [nextState PokerGameState.phase PokerGameState.communityCards];
      intros Hp; rewrite Hp in *;
      destruct Hnext as [[H Hq] | [[H Hq] | [H Hq]]]; try discriminate Hq.
    + by apply revealCards_flop; [apply Hpre |].
    + by apply revealCards_turn; [apply Hflop |].
    + by apply revealCards_river; [apply Hturn |].
  - (* same street *)
    split; [| done].
    apply cardsMatchPhase_street; done.
Qed.

Lemma showdownState_turn i s updated cards potInc :
  showdownState (withCurrentPlayerIndex i s) updated cards potInc
  = showdownState s updated cards potInc.
Proof. reflexivity. Qed.

(** After a hand is over [performAction] still applies actions: in the
    Winner state of the tied showdown a check finds all bets matched and,
    the phase not being one of [phases], moves the table to PreFlop with the
    five community cards of the finished hand. *)
Example action_after_the_hand_restarts_preflop :
  PokerGameState.phase tiedShowdown = "Winner"
  /\ PokerGameState.phase (afterAction (Action.Named "Check") "A" tiedShowdown)
     = "PreFlop"
  /\ length (PokerGameState.communityCards
               (afterAction (Action.Named "Check") "A" tiedShowdown)) = 5%nat.
Proof. repeat split; vm_compute; reflexivity. Qed.

(** * The claims of the specification *)

(** C1.  A showdown with a tie.  On the river the board is a royal flush,
    A and B both play the board and their best hands compare equal; the pot
    is 200.  A's check closes the round: the whole pot goes to A, the first
    of the tied players (stack 1100), B keeps 900; an even split would give
    each of them 100. *)
Theorem showdown_tie_pays_first_winner :
  (exists handA handB : Hand.t,
     evaluateBestHand
       [Some (Card.mk "2" "hearts" 2); Some (Card.mk "3" "diamonds" 3)] royalBoard
     = Some handA
     /\ evaluateBestHand
          [Some (Card.mk "4" "clubs" 4); Some (Card.mk "5" "diamonds" 5)] royalBoard
        = Some handB
     /\ compareHands handA handB = 0
     /\ compareHands handB handA = 0)
  /\ stacks tiedRiver = [("A", 900, 0); ("B", 900, 0)]
  /\ PokerGameState.pot tiedRiver = 200
  /\ performAction (Action.Named "Check") "A" tiedRiver = Broadcast tiedShowdown
  /\ PokerGameState.phase tiedShowdown = "Winner"
  /\ PokerGameState.winner tiedShowdown
     = Some (Winner.mk "A" 200 "showdown" (Some "Royal Flush"))
  /\ stacks tiedShowdown = [("A", 1100, 0); ("B", 900, 0)].
Proof.
  split; [eexists _, _; repeat split; vm_compute; reflexivity |].
  repeat split; vm_compute; reflexivity.
Qed.




(** C3, counterexample.  Before the flop of the heads-up hand the current
    actor is B, the small blind.  A raise submitted by A is not rejected: it
    is applied, A's stack goes from 980 to 880 and the pot from 30 to 130. *)
Lemma out_of_turn_raise_is_applied :
  PlayerInfo.name <$> currentActor headsUpPreFlop = Some "B"
  /\ performAction (Action.Raise 100) "A" headsUpPreFlop = Broadcast headsUpOutOfTurn
  /\ stacks headsUpPreFlop = [("A", 980, 20); ("B", 990, 10)]
  /\ PokerGameState.pot headsUpPreFlop = 30
  /\ stacks headsUpOutOfTurn = [("A", 880, 120); ("B", 990, 10)]
  /\ PokerGameState.pot headsUpOutOfTurn = 130.
Proof. repeat split; vm_compute; reflexivity. Qed.

(** C3, amended.  [performAction] does not look at whose turn it is.  An
    action in the name of a player who is not at the table is ignored: no
    state is broadcast, no error is set, the table stays as it was.  An
    action of a player at the table is applied whoever the current actor
    is: up to the turn marker of the resulting state, the result does not
    depend on [currentPlayerIndex]. *)
Theorem action_applied_whoever_acts :
  (forall action name s,
     (forall p, p ∈ PokerGameState.players s -> PlayerInfo.name p <> name) ->
     performAction action name s = Ignored
     /\ afterAction action name s = s)
  /\ (forall action name s i,
        forgetTurn (performAction action name (withCurrentPlayerIndex i s))
        = forgetTurn (performAction action name s)).
Proof.
  split.
  - intros action name s Hnone.
    assert (H : performAction action name s = Ignored).
    { unfold performAction. destruct (parseAction action) as [actionStr amount].
      destruct (find _ _) as [p |] eqn:Hfind; [| done].
      apply find_some in Hfind as [Hin Heq]. apply String.eqb_eq in Heq.
      apply list_elem_of_In in Hin. by destruct (Hnone p Hin). }
    split; [done |]. unfold afterAction. by rewrite H.
  - intros action name s i. unfold performAction.
    destruct (parseAction action) as [actionStr amount].
    cbn [withCurrentPlayerIndex PokerGameState.players PokerGameState.currentBet].
    destruct (find _ _) as [actingPlayer |]; [| done].
    destruct (updatePlayers _ _ _ _ _ _) as [updated e].
    change (roundCloses (withCurrentPlayerIndex i s)) with (roundCloses s).
    change (phaseAfter (withCurrentPlayerIndex i s)) with (phaseAfter s).
    change (preDealtCards (withCurrentPlayerIndex i s)) with (preDealtCards s).
    cbn [withCurrentPlayerIndex PokerGameState.phase PokerGameState.communityCards
           PokerGameState.dealerPosition].
    fold (withCurrentPlayerIndex i s). rewrite showdownState_turn.
    destruct (filter _ updated) as [| w [| w' rest]]; try reflexivity;
      repeat case_match; reflexivity.
Qed.

Lemma action_applied_whoever_acts_witness :
  (forall p, p ∈ PokerGameState.players headsUpPreFlop -> PlayerInfo.name p <> "C")
  /\ performAction (Action.Named "Fold") "C" headsUpPreFlop = Ignored
  /\ afterAction (Action.Named "Fold") "C" headsUpPreFlop = headsUpPreFlop.
Proof.
  assert (Hnone : forall p, p ∈ PokerGameState.players headsUpPreFlop ->
                            PlayerInfo.name p <> "C").
  { intros p. cbn. rewrite !elem_of_cons, elem_of_nil.
    intros [-> | [-> | []]]; discriminate. }
  split; [exact Hnone |].
  exact (proj1 action_applied_whoever_acts (Action.Named "Fold") "C" headsUpPreFlop Hnone).
Defined.

(** C4, counterexample.  B is all-in for a bet of 30, A has raised to 130 and
    B checks: after the check B, whose status is AllIn, still has a bet of
    30 against a table bet of 130, and the phase moves from PreFlop to Flop. *)
Lemma round_closes_with_unmatched_all_in :
  reachable "table-1" shortStackRaised
  /\ stacks shortStackRaised = [("A", 870, 130); ("B", 0, 30)]
  /\ map PlayerInfo.status (PokerGameState.players shortStackRaised)
     = ["Active"; "AllIn"]
  /\ PokerGameState.currentBet shortStackRaised = 130
  /\ performAction (Action.Named "Check") "B" shortStackRaised
     = Broadcast shortStackFlop
  /\ playersAfter (Action.Named "Check") "B" shortStackRaised
     = PokerGameState.players shortStackRaised
  /\ tableBetAfter (Action.Named "Check") "B" shortStackRaised = 130
  /\ PokerGameState.phase shortStackRaised = "PreFlop"
  /\ PokerGameState.phase shortStackFlop = "Flop".
Proof.
  split; [| repeat split; vm_compute; reflexivity].
  apply (reach_action _ shortStackAllIn (Action.Raise 100) "A");
    [| reflexivity | vm_compute; reflexivity].
  apply (reach_action _ shortStackPreFlop (Action.Named "AllIn") "B");
    [| reflexivity | vm_compute; reflexivity].
  apply (reach_start _ shortStackTable); [cbn; lia | vm_compute; reflexivity].
Qed.

(** C4, amended.  During a hand, unless the action leaves a single player
    who has not folded (which ends the hand at once), the phase changes
    exactly when (a) every player whose status is Active has a bet equal to
    the table bet (players who are AllIn need not match it), (b) the action
    applied was a check, a call or a fold, and (c) more than one player is
    Active or AllIn; a raise or an all-in therefore never closes the round.
    When the phase changes the bets of the round are reset.  In particular,
    with three Active players who each have a bet of 20 and a table bet of
    20, and every dealt card defined, a check of the current actor moves
    the hand to the next phase, or on the river to the showdown that ends
    it. *)
Theorem round_closes_iff_active_matched_and_closing :
  (forall action name s s',
     handInProgress s = true ->
     length (filter (fun p => notFolded p = true) (playersAfter action name s))
     <> 1%nat ->
     performAction action name s = Broadcast s' ->
     (PokerGameState.phase s' <> PokerGameState.phase s
      <-> (forall p, p ∈ playersAfter action name s ->
                     PlayerInfo.status p = "Active" ->
                     PlayerInfo.currentBet p = tableBetAfter action name s)
          /\ (appliedAction action name s = "check"
              \/ appliedAction action name s = "call"
              \/ appliedAction action name s = "fold")
          /\ (1 < length (filter (fun p => activeOrAllIn p = true)
                            (playersAfter action name s)))%nat)
     /\ (PokerGameState.phase s' <> PokerGameState.phase s ->
         PokerGameState.currentBet s' = 0 /\ totalBets s' = 0))
  /\ (forall s p1 p2 p3 actor,
        handInProgress s = true ->
        PokerGameState.players s = [p1; p2; p3] ->
        (forall p, p ∈ [p1; p2; p3] ->
                   PlayerInfo.status p = "Active" /\ PlayerInfo.currentBet p = 20) ->
        PokerGameState.currentBet s = 20 ->
        cardsDefined s ->
        currentActor s = Some actor ->
        exists s',
          performAction (Action.Named "Check") (PlayerInfo.name actor) s = Broadcast s'
          /\ PokerGameState.phase s' <> PokerGameState.phase s
          /\ (PokerGameState.phase s = "River" /\ PokerGameState.phase s' = "Winner"
              \/ PokerGameState.phase s <> "River"
                 /\ PokerGameState.phase s' = phaseAfter s)).
Proof.
  split.
  - intros action name s s' Hhand Hmany Hact.
    destruct (performAction_inv _ _ _ _ Hact)
      as (actingPlayer & updated & e & Hfind & Heff & Hout).
    unfold playersAfter, tableBetAfter, appliedAction, actingPlayerOf in *.
    rewrite Hfind, Heff in *. cbn [fst snd] in *.
    set (actionStr := effectiveAction (parseAction action).1 actingPlayer) in *.
    pose proof (winner_not_in_progress _ Hhand) as Hnw.
    pose proof (phaseAfter_differs _ Hhand) as Hpa.
    assert (Hcl : roundCloses s actionStr updated (newTableBet e) = true
                  <-> (forall p, p ∈ updated -> PlayerInfo.status p = "Active" ->
                                 PlayerInfo.currentBet p = newTableBet e)
                      /\ (actionStr = "check" \/ actionStr = "call" \/ actionStr = "fold")
                      /\ (1 < length (filter (fun p => activeOrAllIn p = true)
                                        updated))%nat).
    { unfold roundCloses. rewrite (phase_index_in_progress _ Hhand), andb_true_r.
      rewrite !andb_true_iff, allPlayersMatched_spec, isClosingAction_spec, Nat.ltb_lt.
      tauto. }
    destruct Hout as [winner Hwin -> | Hclose Hsd Hshow | idx Hclose -> Hsd | idx Hopen Hlen ->].
    + rewrite Hwin in Hmany. done.
    + destruct (showdownState_inv _ _ _ _ _ Hshow) as (winner & hr & sc & Hin & ->).
      cbn [PokerGameState.phase PokerGameState.currentBet]. rewrite <- Hcl.
      split; [split; [done | congruence] |]. intros _. split; [done |].
      unfold totalBets. cbn [PokerGameState.players]. apply awardPot_bets.
    + cbn [nextState PokerGameState.phase PokerGameState.currentBet]. rewrite <- Hcl.
      split; [done |]. intros _. split; [done |].
      unfold totalBets. cbn [PokerGameState.players]. apply reset_bets_total.
    + cbn [nextState PokerGameState.phase]. rewrite <- Hcl, Hopen.
      split; [split; done | done].
  - intros s p1 p2 p3 actor Hhand Hplayers Hall Hbet [Hboard Hhole] Hactor.
    assert (Hin : actor ∈ PokerGameState.players s).
    { unfold currentActor, Js.index in Hactor.
      destruct (_ <? 0); [done |].
      apply list_elem_of_lookup_2 in Hactor.
      by apply list_elem_of_filter in Hactor as [_ ?]. }
    destruct (find (fun p => String.eqb (PlayerInfo.name p) (PlayerInfo.name actor))
                (PokerGameState.players s)) as [actingPlayer |] eqn:Hfind.
    2:{ apply list_elem_of_In in Hin.
        eapply find_none in Hfind; [| exact Hin]. cbn in Hfind.
        by rewrite String.eqb_refl in Hfind. }
    destruct (Hall p1) as [Hs1 Hb1]; [rewrite !elem_of_cons; tauto |].
    destruct (Hall p2) as [Hs2 Hb2]; [rewrite !elem_of_cons; tauto |].
    destruct (Hall p3) as [Hs3 Hb3]; [rewrite !elem_of_cons; tauto |].
    assert (Hstill : filter (fun p => notFolded p = true) [p1; p2; p3] = [p1; p2; p3]).
    { rewrite !filter_cons, filter_nil. unfold notFolded. by rewrite Hs1, Hs2, Hs3. }
    assert (Hactive : filter (fun p => activeOrAllIn p = true) [p1; p2; p3] = [p1; p2; p3]).
    { rewrite !filter_cons, filter_nil. unfold activeOrAllIn. by rewrite Hs1, Hs2, Hs3. }
    assert (Hclose : roundCloses s "check" [p1; p2; p3] 20 = true).
    { unfold roundCloses. rewrite Hactive, (phase_index_in_progress _ Hhand).
      unfold allPlayersMatched. cbn [forallb]. by rewrite Hb1, Hb2, Hb3. }
    pose proof (phaseAfter_differs _ Hhand) as Hdiff.
    pose proof (winner_not_in_progress _ Hhand) as Hnw.
    unfold performAction.
    change (parseAction (Action.Named "Check")) with ("check", 0).
    rewrite Hfind.
    rewrite effectiveAction_fold_check by tauto.
    rewrite updatePlayers_check. cbn [potIncrease newTableBet].
    rewrite Hplayers, Hbet, Hstill, Hclose.
    destruct (String.eqb_spec (PokerGameState.phase s) "River") as [Hriver | Hriver].
    + assert (Hsd : phaseAfter s = "Showdown") by (unfold phaseAfter; by rewrite Hriver).
      rewrite Hsd. cbn [andb negb String.eqb Ascii.eqb Bool.eqb length Nat.ltb Nat.leb].
      rewrite revealCards_showdown.
      destruct (showdownState_total s [p1; p2; p3] (PokerGameState.communityCards s) 0)
        as [s' Hshow]; [by rewrite Hstill | done | done |].
      rewrite Hshow. exists s'. split; [done |].
      destruct (showdownState_inv _ _ _ _ _ Hshow) as (winner & hr & sc & _ & ->).
      cbn [PokerGameState.phase]. split; [congruence | tauto].
    + assert (Hnsd : String.eqb (phaseAfter s) "Showdown" = false).
      { unfold phaseAfter.
        destruct (handInProgress_phase _ Hhand) as [H | [H | [H | H]]];
          rewrite H in *; done. }
      rewrite Hnsd, !andb_false_r. cbn [andb].
      eexists. split; [reflexivity |]. cbn [nextState PokerGameState.phase].
      split; [done | tauto].
Qed.

Lemma round_closes_iff_active_matched_and_closing_witness :
  handInProgress headsUpPreFlop = true
  /\ length (filter (fun p => notFolded p = true)
               (playersAfter (Action.Named "Call") "B" headsUpPreFlop)) <> 1%nat
  /\ performAction (Action.Named "Call") "B" headsUpPreFlop = Broadcast headsUpFlop
  /\ (PokerGameState.phase headsUpFlop <> PokerGameState.phase headsUpPreFlop
      <-> (forall p, p ∈ playersAfter (Action.Named "Call") "B" headsUpPreFlop ->
                     PlayerInfo.status p = "Active" ->
                     PlayerInfo.currentBet p
                     = tableBetAfter (Action.Named "Call") "B" headsUpPreFlop)
          /\ (appliedAction (Action.Named "Call") "B" headsUpPreFlop = "check"
              \/ appliedAction (Action.Named "Call") "B" headsUpPreFlop = "call"
              \/ appliedAction (Action.Named "Call") "B" headsUpPreFlop = "fold")
          /\ (1 < length (filter (fun p => activeOrAllIn p = true)
                            (playersAfter (Action.Named "Call") "B"
                               headsUpPreFlop)))%nat).
Proof.
  assert (Hmany : length (filter (fun p => notFolded p = true)
                    (playersAfter (Action.Named "Call") "B" headsUpPreFlop)) <> 1%nat)
    by (vm_compute; lia).
  assert (Hact : performAction (Action.Named "Call") "B" headsUpPreFlop
                 = Broadcast headsUpFlop) by (vm_compute; reflexivity).
  split; [reflexivity |]. split; [exact Hmany |]. split; [exact Hact |].
  exact (proj1 (proj1 round_closes_iff_active_matched_and_closing
                  (Action.Named "Call") "B" headsUpPreFlop headsUpFlop
                  eq_refl Hmany Hact)).
Defined.

(** C5.  The heads-up scenario.  A and B sit down with 1000 chips each.
    StartGame makes B, in the second seat, the dealer: B posts the small
    blind of 10 (stack 990), A the big blind of 20 (stack 980), the pot is 30
    and B is first to act.  B raises by 100: with the 10 to call B pays 110,
    B's bet is 120, B's stack 880 and the pot 140.  A folds: B's stack is
    1020, A's is 980, the phase is Winner, by fold, for 140. *)
Theorem heads_up_fold_win_scenario :
  stacks headsUpTable = [("A", 1000, 0); ("B", 1000, 0)]
  /\ startGame "table-1" headsUpTable = StartBroadcast headsUpPreFlop
  /\ PokerGameState.phase headsUpPreFlop = "PreFlop"
  /\ PokerGameState.dealerPosition headsUpPreFlop = 1
  /\ stacks headsUpPreFlop = [("A", 980, 20); ("B", 990, 10)]
  /\ PokerGameState.pot headsUpPreFlop = 30
  /\ PokerGameState.currentPlayerIndex headsUpPreFlop = 1
  /\ PlayerInfo.name <$> currentActor headsUpPreFlop = Some "B"
  /\ performAction (Action.Raise 100) "B" headsUpPreFlop = Broadcast headsUpRaised
  /\ stacks headsUpRaised = [("A", 980, 20); ("B", 880, 120)]
  /\ PokerGameState.currentBet headsUpRaised = 120
  /\ PokerGameState.pot headsUpRaised = 140
  /\ performAction (Action.Named "Fold") "A" headsUpRaised = Broadcast headsUpWon
  /\ stacks headsUpWon = [("A", 980, 0); ("B", 1020, 0)]
  /\ PokerGameState.phase headsUpWon = "Winner"
  /\ PokerGameState.pot headsUpWon = 0
  /\ PokerGameState.winner headsUpWon = Some (Winner.mk "B" 140 "fold" None).
Proof. repeat split; vm_compute; reflexivity. Qed.

(** C6.  [shuffleDeck] is a function of the seed alone (the generator is
    created from the seed inside the call and nothing else enters the
    result): equal seeds give the same sequence; and for every seed the
    sequence holds 52 defined cards that are a permutation of [createDeck],
    every rank and suit on exactly one card. *)
Theorem shuffleDeck_deterministic_permutation :
  (forall seed1 seed2 : Z, seed1 = seed2 -> shuffleDeck seed1 = shuffleDeck seed2)
  /\ (forall seed : Z,
        exists cards : list Card.t,
          shuffleDeck seed = map Some cards
          /\ length cards = 52%nat
          /\ cards ≡ₚ createDeck
          /\ eachCardOnce cards).
Proof.
  split; [by intros seed1 seed2 -> |].
  intros seed. destruct (shuffleDeck_cards seed) as (cards & Heq & Hperm).
  exists cards. split; [done |]. split; [by rewrite (Permutation_length Hperm) |].
  split; [done |].
  eapply eachCardOnce_perm; [exact Hperm | apply createDeck_eachCardOnce].
Qed.

Lemma shuffleDeck_deterministic_permutation_witness :
  12345 = 12345 /\ shuffleDeck 12345 = shuffleDeck 12345.
Proof.
  split; [reflexivity |].
  apply (proj1 shuffleDeck_deterministic_permutation 12345 12345). reflexivity.
Defined.

(** C7.  The evaluator on the hands of the correctness table: A K Q J 10 of
    one suit is rank 10 (Royal Flush); A A A K K is a Full House with high
    cards [14; 13]; A 2 3 4 5 of mixed suits is a Straight with the single
    high card 5; and of the two pairs of sevens 7 7 2 9 K and 7 7 2 9 A the
    hand with the ace compares strictly greater. *)
Theorem evaluator_correctness_table :
  (forall suit : string,
     evaluate5Cards
       [Card.mk "A" suit 14; Card.mk "K" suit 13; Card.mk "Q" suit 12;
        Card.mk "J" suit 11; Card.mk "10" suit 10]
     = Some (Hand.mk 10 [14]))
  /\ evaluate5Cards
       [Card.mk "A" "spades" 14; Card.mk "A" "hearts" 14;
        Card.mk "A" "diamonds" 14; Card.mk "K" "spades" 13;
        Card.mk "K" "hearts" 13]
     = Some (Hand.mk HAND_RANKS.FULL_HOUSE [14; 13])
  /\ evaluate5Cards
       [Card.mk "A" "spades" 14; Card.mk "2" "hearts" 2;
        Card.mk "3" "diamonds" 3; Card.mk "4" "spades" 4;
        Card.mk "5" "hearts" 5]
     = Some (Hand.mk HAND_RANKS.STRAIGHT [5])
  /\ exists kingKicker aceKicker : Hand.t,
       evaluate5Cards
         [Card.mk "7" "clubs" 7; Card.mk "7" "diamonds" 7;
          Card.mk "2" "spades" 2; Card.mk "9" "hearts" 9;
          Card.mk "K" "diamonds" 13] = Some kingKicker
       /\ evaluate5Cards
            [Card.mk "7" "clubs" 7; Card.mk "7" "diamonds" 7;
             Card.mk "2" "spades" 2; Card.mk "9" "hearts" 9;
             Card.mk "A" "diamonds" 14] = Some aceKicker
       /\ Hand.rank kingKicker = HAND_RANKS.ONE_PAIR
       /\ Hand.rank aceKicker = HAND_RANKS.ONE_PAIR
       /\ compareHands aceKicker kingKicker = 1
       /\ compareHands kingKicker aceKicker = -1.
Proof.
  split; [exact royal_flush_of_any_suit |].
  split; [reflexivity |]. split; [reflexivity |].
  eexists _, _. repeat split; reflexivity.
Qed.

(** C8, counterexample.  The heads-up hand that ends with a fold before the
    flop is reachable through StartGame and PlayerAction; its phase is
    Winner and it has no community cards, not five. *)
Lemma fold_win_before_flop_has_no_community_cards :
  reachable "table-1" headsUpWon
  /\ PokerGameState.phase headsUpWon = "Winner"
  /\ length (PokerGameState.communityCards headsUpWon) = 0%nat.
Proof.
  split; [| split; reflexivity].
  apply (reach_action _ headsUpRaised (Action.Named "Fold") "A");
    [| reflexivity | vm_compute; reflexivity].
  apply (reach_action _ headsUpPreFlop (Action.Raise 100) "B");
    [| reflexivity | vm_compute; reflexivity].
  apply (reach_start _ headsUpTable); [cbn; lia | vm_compute; reflexivity].
Qed.

(** C8, amended.  In every state reached from the empty table by seating
    players, starting hands (with a deck large enough for the
    players, [2 * players + 8 <= 52]) and applying actions while a hand is in
    progress, the number of community cards is 0 in Waiting and PreFlop, 3
    in Flop, 4 in Turn and 5 in River; in Winner it is 5 when the hand was
    won at the showdown, and after a win by fold it is the number of the
    phase in which the last opponent folded (0, 3, 4 or 5); Showdown is
    never the phase of a broadcast state. *)
Theorem community_cards_follow_phase tableId s :
  reachable tableId s ->
  let n := length (PokerGameState.communityCards s) in
  let phase := PokerGameState.phase s in
  (phase = "Waiting" -> n = 0%nat)
  /\ (phase = "PreFlop" -> n = 0%nat)
  /\ (phase = "Flop" -> n = 3%nat)
  /\ (phase = "Turn" -> n = 4%nat)
  /\ (phase = "River" -> n = 5%nat)
  /\ (phase = "Winner" ->
      exists w, PokerGameState.winner s = Some w
        /\ (Winner.reason w = "showdown" /\ n = 5%nat
            \/ Winner.reason w = "fold"
               /\ (n = 0 \/ n = 3 \/ n = 4 \/ n = 5)%nat))
  /\ phase <> "Showdown"
  /\ (phase = "Waiting" \/ phase = "Winner" \/ handInProgress s = true).
Proof.
  intros Hreach. enough (tableInvariant s) as [H _] by exact H.
  induction Hreach
    as [| s p Hreach IH | s s' Hn Hstart | s action name s' Hreach IH Hhand Hact].
  - split; [| done]. unfold cardsMatchPhase. cbn. repeat split; try done; tauto.
  - exact IH.
  - destruct (startGame_inv _ _ _ Hn Hstart) as (Hphase & Hcc & Hfive).
    assert (Hin : handInProgress s' = true) by (unfold handInProgress; by rewrite Hphase).
    split; [| done].
    apply cardsMatchPhase_street; [done | ..]; rewrite Hphase, Hcc; done.
  - by eapply performAction_invariant.
Qed.

Lemma community_cards_follow_phase_witness :
  reachable "table-1" headsUpFlop
  /\ PokerGameState.phase headsUpFlop = "Flop"
  /\ length (PokerGameState.communityCards headsUpFlop) = 3%nat.
Proof.
  assert (Hreach : reachable "table-1" headsUpFlop).
  { apply (reach_action _ headsUpPreFlop (Action.Named "Call") "B");
      [| reflexivity | vm_compute; reflexivity].
    apply (reach_start _ headsUpTable); [cbn; lia | vm_compute; reflexivity]. }
  split; [exact Hreach |]. split; [reflexivity |].
  exact (proj1 (proj2 (proj2 (community_cards_follow_phase "table-1" headsUpFlop Hreach)))
           eq_refl).
Defined.

(** C9.  Whatever state the generator is in, [next()] returns a value in
    [0, 1) (the state it moves to is below [0x7fffffff]), so
    [nextInt(i + 1)] returns an index between 0 and [i]; the loop of
    [shuffleDeck] is the sequence of swaps at the index pairs
    [shuffleIndices], and every pair lies inside the 52-card array. *)
Theorem shuffle_draws_within_deck :
  (forall this : SeededRandom.t,
     0 <= (SeededRandom.next this).1 < 0x7fffffff
     /\ (0 <= (SeededRandom.next this).2 < 1)%Q)
  /\ (forall (this : SeededRandom.t) (i : nat),
        0 <= (SeededRandom.nextInt this (Z.of_nat i + 1)).2 <= Z.of_nat i)
  /\ (forall seed : Z,
        shuffleDeck seed
        = fold_left (fun deck ij => swap deck ij.1 ij.2)
            (shuffleIndices 51 (SeededRandom.create seed)) (map Some createDeck)
        /\ Forall (fun ij => (1 <= ij.1 < 52)%nat /\ 0 <= ij.2 <= Z.of_nat ij.1)
             (shuffleIndices 51 (SeededRandom.create seed))
        /\ length (shuffleDeck seed) = 52%nat).
Proof.
  split; [| split].
  - intros this. split; [apply next_state_below | apply next_unit_interval].
  - intros this i. apply nextInt_range. lia.
  - intros seed. split; [| split].
    + unfold shuffleDeck. apply fisherYates_indices.
    + eapply Forall_impl; [apply (shuffleIndices_bounds 51); lia |].
      intros [i j]. cbn. lia.
    + by rewrite (Permutation_length (shuffleDeck_perm seed)).
Qed.



(** * Further properties of the engine *)

(** ** The seed of a hand *)

Lemma toInt32_range x : - 2 ^ 31 <= Js.toInt32 x < 2 ^ 31.
Proof. unfold Js.toInt32. pose proof (Z.mod_pos_bound (x + 2 ^ 31) (2 ^ 32)). lia. Qed.

Lemma toInt32_small x : - 2 ^ 31 <= x < 2 ^ 31 -> Js.toInt32 x = x.
Proof. intros H. unfold Js.toInt32. rewrite Z.mod_small; lia. Qed.

Lemma toInt32_congr a b :
  a mod 2 ^ 32 = b mod 2 ^ 32 -> Js.toInt32 a = Js.toInt32 b.
Proof.
  intros H. unfold Js.toInt32.
  by rewrite (Z.add_mod a), H, <- (Z.add_mod b) by lia.
Qed.

Lemma toInt32_mod32 a : Js.toInt32 a mod 2 ^ 32 = a mod 2 ^ 32.
Proof.
  unfold Js.toInt32.
  rewrite <- Zminus_mod_idemp_l, Z.mod_mod by lia.
  rewrite Zminus_mod_idemp_l. f_equal. lia.
Qed.

Lemma js_double_small x : Z.abs x < 2 ^ 53 -> Js.js_double x = x.
Proof. intros H. unfold Js.js_double. by destruct (Z.ltb_spec (Z.abs x) (2 ^ 53)); [| lia]. Qed.

(** One step of the hash on a 32-bit hash and a code unit: the sums stay
    far below 2^53, so the step is [31 * hash + char] wrapped to 32 bits. *)
Lemma hashStep_wraps hash char :
  0 <= char < 2 ^ 16 ->
  hashStep (Js.toInt32 hash) char = Js.toInt32 (31 * hash + char).
Proof.
  intros Hc. unfold hashStep, Js.band, Js.shl, Js.add.
  pose proof (toInt32_range hash) as Hh.
  rewrite (toInt32_small (Js.toInt32 hash)) by done.
  rewrite Z.shiftl_mul_pow2 by lia.
  pose proof (toInt32_range (Js.toInt32 hash * 2 ^ 5)) as Hs.
  rewrite (js_double_small (_ + - _)) by lia.
  rewrite js_double_small by lia.
  rewrite Z.land_diag.
  apply toInt32_congr.
  rewrite <- Z.add_assoc, Z.add_mod, toInt32_mod32, <- Z.add_mod by lia.
  replace (Js.toInt32 hash * 2 ^ 5 + (- Js.toInt32 hash + char))
    with (31 * Js.toInt32 hash + char) by lia.
  rewrite Z.add_mod, Z.mul_mod, toInt32_mod32, <- Z.mul_mod, <- Z.add_mod by lia.
  done.
Qed.

Lemma charCodes_range str : Forall (fun c => 0 <= c < 2 ^ 16) (charCodes str).
Proof.
  unfold charCodes. apply Forall_fmap, Forall_forall. intros c _. cbn.
  pose proof (N_ascii_bounded c). lia.
Qed.

Lemma fold_left_cons {A B} (f : A -> B -> A) (x : B) (l : list B) (a : A) :
  fold_left f (x :: l) a = fold_left f l (f a x).
Proof. reflexivity. Qed.

Lemma fold_hashStep codes hash :
  Forall (fun c => 0 <= c < 2 ^ 16) codes ->
  fold_left hashStep codes (Js.toInt32 hash)
  = Js.toInt32 (fold_left (fun h c => 31 * h + c) codes hash).
Proof.
  intros H. revert hash. induction H as [| c codes Hc _ IH]; intros hash.
  - reflexivity.
  - rewrite !fold_left_cons, hashStep_wraps by exact Hc. apply IH.
Qed.

(** X1.  [hashString] is the polynomial hash of base 31 over the code units
    of the string, wrapped to a signed 32-bit integer, in absolute value; it
    lies between 0 and 2^31. *)
Theorem hashString_polynomial str :
  hashString str
  = Z.abs (Js.toInt32 (fold_left (fun h c => 31 * h + c) (charCodes str) 0))
  /\ 0 <= hashString str <= 2 ^ 31.
Proof.
  assert (hashString str
          = Z.abs (Js.toInt32 (fold_left (fun h c => 31 * h + c) (charCodes str) 0)))
    as Heq.
  { unfold hashString. change 0 with (Js.toInt32 0) at 1.
    by rewrite fold_hashStep by apply charCodes_range. }
  split; [done |]. rewrite Heq.
  pose proof (toInt32_range (fold_left (fun h c => 31 * h + c) (charCodes str) 0)).
  lia.
Qed.

(** *** Sorting with a total order gives one result per multiset *)

Section sort_unique.
Context {A : Type} (cmp : A -> A -> Z).
Hypothesis cmp_total : forall a b, 0 < cmp a b -> cmp b a <= 0.

Lemma sort_insert_sorted x l :
  Sorted (fun a b => cmp a b <= 0) l ->
  Sorted (fun a b => cmp a b <= 0) (Js.sort_insert cmp x l).
Proof.
  induction 1 as [| y l Hl IH Hhd]; cbn [Js.sort_insert].
  - by repeat constructor.
  - destruct (Z.leb_spec (cmp x y) 0) as [Hxy | Hxy].
    + constructor; [by constructor |]. by constructor.
    + constructor; [done |].
      destruct Hhd as [| z l' Hyz]; cbn [Js.sort_insert].
      * constructor. by apply cmp_total.
      * destruct (cmp x z <=? 0); constructor; [by apply cmp_total | done].
Qed.

Lemma sort_sorted l : Sorted (fun a b => cmp a b <= 0) (Js.sort cmp l).
Proof.
  induction l as [| x l IH]; [constructor |]. by apply sort_insert_sorted.
Qed.

Lemma sort_perm_eq l l' :
  Transitive (fun a b => cmp a b <= 0) ->
  AntiSymm (=) (fun a b => cmp a b <= 0) ->
  l ≡ₚ l' -> Js.sort cmp l = Js.sort cmp l'.
Proof.
  intros Htrans Hanti Hperm.
  apply (Sorted_unique (fun a b => cmp a b <= 0)); [apply sort_sorted.. |].
  by rewrite !sort_perm.
Qed.
End sort_unique.

Lemma compareStrings_le a b :
  compareStrings a b <= 0 <-> String.compare a b <> Gt.
Proof. unfold compareStrings. destruct (String.compare a b); split; (done || lia). Qed.

Lemma compareStrings_total a b :
  0 < compareStrings a b -> compareStrings b a <= 0.
Proof.
  unfold compareStrings. rewrite (String.compare_antisym a b).
  destruct (String.compare b a); cbn; lia.
Qed.

Lemma compareStrings_trans :
  Transitive (fun a b => compareStrings a b <= 0).
Proof.
  intros a b c. rewrite !compareStrings_le. intros Hab Hbc Hac.
  destruct (String.compare a b) eqn:Eab; [| | done].
  - apply String.compare_eq_iff in Eab as ->. done.
  - destruct (String.compare b c) eqn:Ebc; [| | done].
    + apply String.compare_eq_iff in Ebc as ->. congruence.
    + apply OrderedTypeEx.String_as_OT.cmp_lt in Eab, Ebc.
      pose proof (OrderedTypeEx.String_as_OT.lt_trans _ _ _ Eab Ebc) as H.
      apply OrderedTypeEx.String_as_OT.cmp_lt in H.
      unfold OrderedTypeEx.String_as_OT.cmp in H. congruence.
Qed.

Lemma compareStrings_antisym :
  AntiSymm (=) (fun a b => compareStrings a b <= 0).
Proof.
  intros a b. rewrite !compareStrings_le, (String.compare_antisym a b).
  destruct (String.compare b a) eqn:E; cbn; [| done..].
  intros _ _. by apply String.compare_eq_iff in E.
Qed.

(** X2.  The seed of a hand does not depend on the order in which the
    players' addresses are listed: two tables that seat the same players in
    a different order draw the same seed. *)
Theorem generateHandSeed_order_independent tableId handNumber addresses addresses' :
  addresses ≡ₚ addresses' ->
  generateHandSeed tableId handNumber addresses
  = generateHandSeed tableId handNumber addresses'.
Proof.
  intros Hperm. unfold generateHandSeed.
  by rewrite (sort_perm_eq compareStrings compareStrings_total _ _
                compareStrings_trans compareStrings_antisym Hperm).
Qed.

Lemma generateHandSeed_order_independent_witness :
  ["B"; "A"] ≡ₚ ["A"; "B"]
  /\ generateHandSeed "table-1" 1 ["B"; "A"] = generateHandSeed "table-1" 1 ["A"; "B"].
Proof.
  split; [apply perm_swap |].
  apply (generateHandSeed_order_independent "table-1" 1 ["B"; "A"] ["A"; "B"]).
  apply perm_swap.
Defined.

(** ** Dealing *)

Lemma dealPlayerCards_take (cards : list Card.t) (n k : nat) :
  (k + 2 * n <= length cards)%nat ->
  let hands := (dealPlayerCards (map Some cards) n (Z.of_nat k)).1 in
  length hands = n
  /\ Forall (fun hole => length hole = 2%nat) hands
  /\ concat hands = map Some (take (2 * n) (drop k cards)).
Proof.
  revert k. induction n as [| n IH]; intros k Hk; cbn zeta.
  - by cbn.
  - cbn [dealPlayerCards].
    replace (Z.of_nat k + 2) with (Z.of_nat (k + 2)) by lia.
    replace (Z.of_nat k + 1) with (Z.of_nat (S k)) by lia.
    destruct (IH (k + 2)%nat ltac:(lia)) as (Hlen & Htwo & Hcat).
    destruct (dealPlayerCards (map Some cards) n (Z.of_nat (k + 2))) as [rest idx].
    cbn [fst] in *. rewrite !get_defined, !Nat2Z.id by lia.
    destruct (lookup_lt_is_Some_2 cards k ltac:(lia)) as [a Ha].
    destruct (lookup_lt_is_Some_2 cards (S k) ltac:(lia)) as [b Hb].
    rewrite Ha, Hb. cbn [length concat app]. rewrite Hlen, Hcat.
    split; [done |]. split; [by constructor |].
    rewrite (drop_S cards a k Ha), (drop_S cards b (S k) Hb).
    replace (2 * S n)%nat with (S (S (2 * n))) by lia. cbn [take map].
    by replace (k + 2)%nat with (S (S k)) by lia.
Qed.

Lemma dealCards_deals_distinct_cards_aux (cards : list Card.t) (n : nat) :
  NoDup cards -> (2 * n + 8 <= length cards)%nat ->
  let d := dealCards (map Some cards) n in
  exists dealt : list Card.t,
    length (DealtCards.playerCards d) = n
    /\ Forall (fun hole => length hole = 2%nat) (DealtCards.playerCards d)
    /\ length (DealtCards.communityCards d) = 5%nat
    /\ (concat (DealtCards.playerCards d) ++ DealtCards.communityCards d)%list
       = map Some dealt
    /\ dealt `sublist_of` cards
    /\ NoDup dealt.
Proof.
  intros Hnodup Hn. cbn zeta. unfold dealCards.
  pose proof (dealPlayerCards_index (map Some cards) n 0) as Hidx.
  destruct (dealPlayerCards_take cards n 0 ltac:(lia)) as (Hlen & Htwo & Hcat).
  change (Z.of_nat 0) with 0 in *.
  destruct (dealPlayerCards (map Some cards) n 0) as [hands cardIndex].
  cbn [fst snd] in *. subst cardIndex.
  cbn [DealtCards.playerCards DealtCards.communityCards].
  rewrite drop_0 in Hcat. rewrite !get_defined by lia.
  pose proof (take_drop (2 * n) cards) as Hsplit.
  assert (length (drop (2 * n) cards) = (length cards - 2 * n)%nat) as Hdrop
    by apply length_drop.
  destruct (drop (2 * n) cards) as [| b1 [| f1 [| f2 [| f3 [| b2 [| t [| b3 [| r rest]]]]]]]];
    cbn [length] in Hdrop; try lia.
  assert (length (take (2 * n) cards) = (2 * n)%nat) as Htake
    by (rewrite length_take; lia).
  assert (forall j, cards !! (2 * n + j)%nat
                    = (b1 :: f1 :: f2 :: f3 :: b2 :: t :: b3 :: r :: rest) !! j) as Hget.
  { intros j. rewrite <- Hsplit at 1. rewrite lookup_app_r by lia.
    f_equal. lia. }
  replace (Z.to_nat (0 + 2 * Z.of_nat n + 1)) with (2 * n + 1)%nat by lia.
  replace (Z.to_nat (0 + 2 * Z.of_nat n + 1 + 1)) with (2 * n + 2)%nat by lia.
  replace (Z.to_nat (0 + 2 * Z.of_nat n + 1 + 2)) with (2 * n + 3)%nat by lia.
  replace (Z.to_nat (0 + 2 * Z.of_nat n + 1 + 3 + 1)) with (2 * n + 5)%nat by lia.
  replace (Z.to_nat (0 + 2 * Z.of_nat n + 1 + 3 + 1 + 1 + 1)) with (2 * n + 7)%nat by lia.
  rewrite !Hget. cbn [lookup list_lookup app].
  exists (take (2 * n) cards ++ [f1; f2; f3; t; r])%list.
  assert ((take (2 * n) cards ++ [f1; f2; f3; t; r])%list `sublist_of` cards) as Hsub.
  { rewrite <- Hsplit at 2. apply sublist_app; [done |].
    apply sublist_cons. do 3 apply sublist_skip. apply sublist_cons.
    apply sublist_skip. apply sublist_cons. apply sublist_skip.
    apply sublist_nil_l. }
  split; [done |]. split; [done |]. split; [done |].
  split; [by rewrite Hcat, map_app |].
  split; [done |]. by apply (sublist_NoDup _ cards).
Qed.

(** X3.  From a deck of distinct cards that is large enough, [dealCards]
    gives every player two cards and the table five, all of them defined,
    pairwise distinct and in the order of the deck. *)
Theorem dealCards_deals_distinct_cards (cards : list Card.t) (n : nat) :
  NoDup cards -> (2 * n + 8 <= length cards)%nat ->
  let d := dealCards (map Some cards) n in
  exists dealt : list Card.t,
    length (DealtCards.playerCards d) = n
    /\ Forall (fun hole => length hole = 2%nat) (DealtCards.playerCards d)
    /\ length (DealtCards.communityCards d) = 5%nat
    /\ (concat (DealtCards.playerCards d) ++ DealtCards.communityCards d)%list
       = map Some dealt
    /\ dealt `sublist_of` cards
    /\ NoDup dealt.
Proof. apply dealCards_deals_distinct_cards_aux. Qed.

Lemma dealCards_deals_distinct_cards_witness :
  NoDup createDeck /\ (2 * 2 + 8 <= length createDeck)%nat
  /\ exists dealt : list Card.t,
       length (DealtCards.playerCards (dealCards (map Some createDeck) 2)) = 2%nat
       /\ Forall (fun hole => length hole = 2%nat)
            (DealtCards.playerCards (dealCards (map Some createDeck) 2))
       /\ length (DealtCards.communityCards (dealCards (map Some createDeck) 2)) = 5%nat
       /\ (concat (DealtCards.playerCards (dealCards (map Some createDeck) 2))
           ++ DealtCards.communityCards (dealCards (map Some createDeck) 2))%list
          = map Some dealt
       /\ dealt `sublist_of` createDeck
       /\ NoDup dealt.
Proof.
  assert (NoDup createDeck) as Hnodup
    by (apply (bool_decide_unpack _); vm_compute; reflexivity).
  assert (2 * 2 + 8 <= length createDeck)%nat as Hlen by (vm_compute; lia).
  split; [exact Hnodup |]. split; [exact Hlen |].
  exact (dealCards_deals_distinct_cards createDeck 2 Hnodup Hlen).
Defined.

Lemma createDeck_NoDup : NoDup createDeck.
Proof. apply (bool_decide_unpack _). vm_compute. reflexivity. Qed.

Lemma concat_length_two {A} (hands : list (list A)) :
  Forall (fun hole => length hole = 2%nat) hands ->
  length (concat hands) = (2 * length hands)%nat.
Proof.
  induction 1 as [| hole hands Hhole _ IH]; [done |].
  cbn [concat length]. rewrite length_app. lia.
Qed.

(** X4.  A hand started at a table of two to twenty-two players deals
    [2 * players + 5] cards, all defined and pairwise distinct cards of the
    deck of [createDeck]: two to every seat and five to the table. *)
Theorem startGame_deals_distinct_deck_cards tableId s :
  (2 <= length (PokerGameState.players s) <= 22)%nat ->
  exists s' d (dealt : list Card.t),
    startGame tableId s = StartBroadcast s'
    /\ PokerGameState.dealtCards s' = Some d
    /\ length (DealtCards.playerCards d) = length (PokerGameState.players s)
    /\ Forall (fun hole => length hole = 2%nat) (DealtCards.playerCards d)
    /\ (concat (DealtCards.playerCards d) ++ DealtCards.communityCards d)%list
       = map Some dealt
    /\ length dealt = (2 * length (PokerGameState.players s) + 5)%nat
    /\ NoDup dealt
    /\ dealt ⊆ createDeck.
Proof.
  intros Hn. unfold startGame.
  destruct (Nat.ltb_spec (length (PokerGameState.players s)) 2) as [| _]; [lia |].
  destruct (shuffleDeck_cards
              (generateHandSeed tableId (PokerGameState.handNumber s + 1)
                 (map PlayerInfo.address (PokerGameState.players s))))
    as (cards & Hdeck & Hperm).
  rewrite Hdeck.
  assert (NoDup cards) as Hnodup by (rewrite Hperm; apply createDeck_NoDup).
  assert (length cards = 52%nat) as Hlen by by rewrite (Permutation_length Hperm).
  destruct (dealCards_deals_distinct_cards_aux cards (length (PokerGameState.players s))
              Hnodup ltac:(lia))
    as (dealt & Hhands & Htwo & Hcomm & Hcat & Hsub & Hdealt).
  eexists _, _, dealt. split; [reflexivity |].
  cbn [PokerGameState.dealtCards]. split; [reflexivity |].
  split; [done |]. split; [done |]. split; [done |].
  split.
  { apply (f_equal length) in Hcat.
    rewrite length_app, length_map, Hcomm, (concat_length_two _ Htwo), Hhands in Hcat.
    lia. }
  split; [done |].
  intros c Hc. rewrite <- Hperm. by apply (sublist_subseteq _ _ Hsub).
Qed.

Lemma startGame_deals_distinct_deck_cards_witness :
  exists s' d (dealt : list Card.t),
    startGame "table-1" headsUpTable = StartBroadcast s'
    /\ PokerGameState.dealtCards s' = Some d
    /\ length (DealtCards.playerCards d) = length (PokerGameState.players headsUpTable)
    /\ Forall (fun hole => length hole = 2%nat) (DealtCards.playerCards d)
    /\ (concat (DealtCards.playerCards d) ++ DealtCards.communityCards d)%list
       = map Some dealt
    /\ length dealt = (2 * length (PokerGameState.players headsUpTable) + 5)%nat
    /\ NoDup dealt
    /\ dealt ⊆ createDeck.
Proof.
  apply (startGame_deals_distinct_deck_cards "table-1" headsUpTable).
  cbn. lia.
Defined.

(** ** The hand evaluator on any five cards *)

Lemma getCardValue_range rank : cardValue (getCardValue rank).
Proof.
  unfold cardValue, getCardValue, cardValues. cbn [find fst snd].
  repeat (destruct (String.eqb _ rank); [cbn [snd]; lia |]). lia.
Qed.

Lemma uniqueOf_Forall (P : Z -> Prop) seen values :
  Forall P values -> Forall P (uniqueOf seen values).
Proof.
  intros H. revert seen. induction H as [| v values Hv _ IH]; intros seen; [constructor |].
  cbn [uniqueOf]. destruct (existsb _ seen); [apply IH |]. constructor; [done | apply IH].
Qed.

Lemma countUp_Forall (P : Z -> Prop) v counts :
  P v -> Forall (fun kn => P kn.1) counts -> Forall (fun kn => P kn.1) (countUp v counts).
Proof.
  intros Hv H. induction H as [| [k n] counts Hk Hrest IH]; cbn [countUp].
  - by repeat constructor.
  - destruct (v =? k); [by constructor |].
    destruct (v <? k); constructor; try done. by constructor.
Qed.

Lemma counts_Forall (P : Z -> Prop) values counts :
  Forall P values -> Forall (fun kn => P kn.1) counts ->
  Forall (fun kn => P kn.1) (fold_left (fun counts v => countUp v counts) values counts).
Proof.
  intros H. revert counts. induction H as [| v values Hv _ IH]; intros counts Hc; [done |].
  rewrite fold_left_cons. apply IH. by apply countUp_Forall.
Qed.

Lemma orZero_lookup_Forall (l : list Z) (k : nat) :
  Forall cardValue l -> cardValue (orZero (l !! k)).
Proof.
  intros H. destruct (l !! k) as [v |] eqn:Hk; cbn; [| unfold cardValue; lia].
  rewrite Forall_forall in H. apply H. by eapply list_elem_of_lookup_2.
Qed.

Lemma orZero_find_Forall (f : Z -> bool) (l : list Z) :
  Forall cardValue l -> cardValue (orZero (find f l)).
Proof.
  induction 1 as [| v l Hv _ IH]; cbn [find]; [unfold cardValue; cbn; lia |].
  by destruct (f v).
Qed.

Lemma evaluate5Cards_range cards :
  length cards = 5%nat ->
  exists hand,
    evaluate5Cards cards = Some hand
    /\ 1 <= Hand.rank hand <= 10
    /\ Hand.highCards hand <> []
    /\ Forall cardValue (Hand.highCards hand).
Proof.
  intros Hlen. unfold evaluate5Cards.
  set (values := Js.sort descending (map (fun c => getCardValue (Card.rank c)) cards)).
  assert (Hvalues : length values = 5%nat).
  { unfold values. by rewrite (Permutation_length (sort_perm _ _)), length_map. }
  assert (HPvalues : Forall cardValue values).
  { unfold values. rewrite sort_perm. apply Forall_fmap, Forall_forall.
    intros c _. apply getCardValue_range. }
  set (uniqueValues := Js.sort descending (uniqueOf [] values)).
  assert (HPunique : Forall cardValue uniqueValues).
  { unfold uniqueValues. rewrite sort_perm. by apply uniqueOf_Forall. }
  set (countValues :=
         Js.sort byCountThenValue
           (fold_left (fun counts v => countUp v counts) values [])).
  assert (Hsum : sumZ (map snd countValues) = 5).
  { unfold countValues.
    rewrite (sumZ_perm _ _ (fmap_Permutation snd _ _ (sort_perm _ _))).
    rewrite counts_total, Hvalues. done. }
  assert (HPcounts : Forall (fun kn => cardValue kn.1) countValues).
  { unfold countValues. rewrite sort_perm. by apply counts_Forall. }
  clearbody countValues.
  set (straight :=
         if (length uniqueValues =? 5)%nat then
           let '(isStraight, straightHigh) :=
             if orZero (uniqueValues !! 0%nat) - orZero (uniqueValues !! 4%nat) =? 4
             then (true, orZero (uniqueValues !! 0%nat)) else (false, 0) in
           if (orZero (uniqueValues !! 0%nat) =? 14)
              && (orZero (uniqueValues !! 1%nat) =? 5)
              && (orZero (uniqueValues !! 4%nat) =? 2)
           then (true, 5) else (isStraight, straightHigh)
         else (false, 0)).
  assert (Hstraight : cardValue straight.2).
  { unfold straight. pose proof (orZero_lookup_Forall uniqueValues 0 HPunique).
    unfold cardValue in *.
    destruct (_ =? 5)%nat; [| cbn; lia].
    destruct (_ =? 4); cbn [snd]; destruct (_ && _); cbn [snd]; lia. }
  assert (Hdesc : Forall cardValue values -> True) by done.
  clearbody straight uniqueValues.
  destruct straight as [isStraight straightHigh]. cbn [snd] in Hstraight.
  destruct (match map Card.suit cards with [] => true | s0 :: _ => _ end);
    destruct isStraight; cbn [andb].
  all: try (destruct (straightHigh =? 14); eexists; split; [reflexivity |];
            cbn [Hand.rank Hand.highCards];
            unfold HAND_RANKS.ROYAL_FLUSH, HAND_RANKS.STRAIGHT_FLUSH;
            (split; [lia |]); (split; [done |]); repeat constructor;
            unfold cardValue in *; lia).
  all: destruct countValues as [| [v0 n0] [| [v1 n1] rest]];
    unfold sumZ in Hsum; cbn [map foldr snd] in Hsum; [lia | |];
    cbn [lookup list_lookup mbind option_bind fst snd].
  all: repeat match goal with
              | |- context [?a =? ?b] => destruct (Z.eqb_spec a b)
              end;
         cbn [mbind option_bind]; try lia.
  all: eexists; (split; [reflexivity |]); cbn [Hand.rank Hand.highCards].
  all: unfold HAND_RANKS.FOUR_OF_A_KIND, HAND_RANKS.FULL_HOUSE, HAND_RANKS.FLUSH,
         HAND_RANKS.STRAIGHT, HAND_RANKS.THREE_OF_A_KIND, HAND_RANKS.TWO_PAIR,
         HAND_RANKS.ONE_PAIR, HAND_RANKS.HIGH_CARD, HAND_RANKS.ROYAL_FLUSH,
         HAND_RANKS.STRAIGHT_FLUSH.
  all: (split; [lia |]).
  all: split;
    [intros Heq; apply (f_equal length) in Heq;
     rewrite ?length_app in Heq; cbn [length] in Heq; lia |].
  all: rewrite ?Forall_app, ?sort_perm.
  all: repeat match goal with
              | H : Forall _ (_ :: _) |- _ => apply Forall_cons_1 in H as [? H]
              end; cbn [fst] in *.
  all: repeat split; repeat (apply Forall_cons_2); try apply Forall_nil_2;
    try done; try (unfold cardValue; lia).
  all: try (apply Forall_forall; intros v [_ Hv]%list_elem_of_filter;
            by rewrite Forall_forall in HPvalues; apply HPvalues).
  all: try (apply orZero_find_Forall; done).
Qed.



(** *** The order of the five cards does not matter *)

Lemma sort_descending_perm l l' :
  l ≡ₚ l' -> Js.sort descending l = Js.sort descending l'.
Proof.
  apply sort_perm_eq; unfold descending.
  - intros a b. lia.
  - intros a b c. lia.
  - intros a b. lia.
Qed.

Lemma same_suit_spec (suits : list string) :
  match suits with
  | [] => true
  | s0 :: _ => forallb (fun s => String.eqb s s0) suits
  end = true
  <-> forall a b, a ∈ suits -> b ∈ suits -> a = b.
Proof.
  destruct suits as [| s0 rest]; [split; [by intros _ a b ?%elem_of_nil | done] |].
  rewrite forallb_forall. split.
  - intros H a b Ha%list_elem_of_In Hb%list_elem_of_In.
    apply H, String.eqb_eq in Ha, Hb. congruence.
  - intros H s Hs%list_elem_of_In. apply String.eqb_eq, H; [done | by left].
Qed.

Lemma same_suit_perm (suits suits' : list string) :
  suits ≡ₚ suits' ->
  match suits with
  | [] => true
  | s0 :: _ => forallb (fun s => String.eqb s s0) suits
  end
  = match suits' with
    | [] => true
    | s0 :: _ => forallb (fun s => String.eqb s s0) suits'
    end.
Proof.
  intros Hperm. apply eq_true_iff_eq. rewrite !same_suit_spec.
  by setoid_rewrite Hperm.
Qed.

(** X6.  The hand [evaluate5Cards] gives does not depend on the order of the
    five cards. *)
Theorem evaluate5Cards_order_independent cards cards' :
  cards ≡ₚ cards' -> evaluate5Cards cards = evaluate5Cards cards'.
Proof.
  intros Hperm. unfold evaluate5Cards.
  rewrite (sort_descending_perm
             (map (fun c => getCardValue (Card.rank c)) cards)
             (map (fun c => getCardValue (Card.rank c)) cards'))
    by by apply fmap_Permutation.
  rewrite (same_suit_perm (map Card.suit cards) (map Card.suit cards'))
    by by apply fmap_Permutation.
  reflexivity.
Qed.

Lemma evaluate5Cards_order_independent_witness :
  evaluate5Cards
    [Card.mk "A" "spades" 14; Card.mk "2" "hearts" 2; Card.mk "3" "diamonds" 3;
     Card.mk "4" "spades" 4; Card.mk "5" "hearts" 5]
  = evaluate5Cards
      [Card.mk "2" "hearts" 2; Card.mk "A" "spades" 14; Card.mk "3" "diamonds" 3;
       Card.mk "4" "spades" 4; Card.mk "5" "hearts" 5].
Proof.
  apply evaluate5Cards_order_independent. apply perm_swap.
Defined.

(** ** The best hand out of seven cards *)

Lemma getCombinations_short {A} (cards : list A) (size : nat) :
  (length cards < size)%nat -> getCombinations cards size = [].
Proof.
  revert size. induction cards as [| c rest IH]; intros [| k] Hlen;
    cbn [length] in Hlen; try lia; [done |].
  cbn [getCombinations]. rewrite (IH k), (IH (S k)) by lia. done.
Qed.

(** X7.  [getCombinations cards size] lists exactly the sub-sequences of
    [cards] that have [size] elements. *)
Theorem getCombinations_sublists {A} (cards : list A) (size : nat) (combo : list A) :
  combo ∈ getCombinations cards size
  <-> combo `sublist_of` cards /\ length combo = size.
Proof.
  split.
  - revert size combo. induction cards as [| c rest IH]; intros [| k] combo Hin;
      cbn [getCombinations] in Hin.
    + apply list_elem_of_singleton in Hin as ->. split; [constructor | done].
    + by apply elem_of_nil in Hin.
    + apply list_elem_of_singleton in Hin as ->. split; [apply sublist_nil_l | done].
    + apply elem_of_app in Hin as [Hin | Hin].
      * apply list_elem_of_fmap in Hin as (combo' & -> & Hin).
        destruct (IH _ _ Hin) as [Hsub Hlen]. split; [by apply sublist_skip |].
        cbn [length]. lia.
      * destruct (IH _ _ Hin) as [Hsub Hlen]. split; [by apply sublist_cons | done].
  - intros [Hsub <-]. induction Hsub as [| x l1 l2 Hsub IH | x l1 l2 Hsub IH].
    + cbn. by left.
    + cbn [length getCombinations]. apply elem_of_app. left.
      by apply list_elem_of_fmap_2.
    + destruct l1 as [| y l1]; cbn [length getCombinations] in *; [by left |].
      apply elem_of_app. by right.
Qed.

(** With fewer than five cards between the hole cards and the board there
    is nothing to evaluate: [evaluateBestHand] returns the initial hand of
    rank 0, whether or not the cards are defined. *)
Lemma evaluateBestHand_short holeCards communityCards :
  (length holeCards + length communityCards < 5)%nat ->
  evaluateBestHand holeCards communityCards = Some (Hand.mk 0 [0]).
Proof.
  intros Hlen. unfold evaluateBestHand.
  rewrite getCombinations_short; [done |]. rewrite length_app. lia.
Qed.

(** *** Comparing hands *)

Lemma compareHighCards_antisym high1 high2 i n :
  compareHighCards high2 high1 i n = - compareHighCards high1 high2 i n.
Proof.
  revert i. induction n as [| n IH]; intros i; cbn [compareHighCards]; [done |].
  destruct (Z.eqb_spec (orZero (high1 !! i)) (orZero (high2 !! i))) as [Heq | Hne].
  - rewrite Heq, Z.eqb_refl. apply IH.
  - destruct (Z.eqb_spec (orZero (high2 !! i)) (orZero (high1 !! i))); [congruence |].
    destruct (Z.ltb_spec (orZero (high2 !! i)) (orZero (high1 !! i)));
      destruct (Z.ltb_spec (orZero (high1 !! i)) (orZero (high2 !! i))); lia.
Qed.

Lemma compareHighCards_values high1 high2 i n :
  compareHighCards high1 high2 i n = -1
  \/ compareHighCards high1 high2 i n = 0
  \/ compareHighCards high1 high2 i n = 1.
Proof.
  revert i. induction n as [| n IH]; intros i; cbn [compareHighCards]; [by right; left |].
  destruct (_ =? _); [apply IH |]. destruct (_ <? _); [by right; right | by left].
Qed.

Lemma compareHands_antisym_aux hand1 hand2 :
  compareHands hand2 hand1 = - compareHands hand1 hand2.
Proof.
  unfold compareHands.
  destruct (Z.eqb_spec (Hand.rank hand1) (Hand.rank hand2)) as [Heq | Hne].
  - rewrite Heq, Z.eqb_refl, Nat.max_comm. apply compareHighCards_antisym.
  - destruct (Z.eqb_spec (Hand.rank hand2) (Hand.rank hand1)); [congruence |].
    destruct (Z.ltb_spec (Hand.rank hand2) (Hand.rank hand1));
      destruct (Z.ltb_spec (Hand.rank hand1) (Hand.rank hand2)); lia.
Qed.

(** X9.  [compareHands] answers -1, 0 or 1, a hand ties with itself, and
    swapping the two hands negates the answer: if the first hand wins one
    way round, the second loses the other way round. *)
Theorem compareHands_antisymmetric hand1 hand2 :
  compareHands hand2 hand1 = - compareHands hand1 hand2
  /\ compareHands hand1 hand1 = 0
  /\ (compareHands hand1 hand2 = -1 \/ compareHands hand1 hand2 = 0
      \/ compareHands hand1 hand2 = 1).
Proof.
  split; [apply compareHands_antisym_aux |]. split.
  - pose proof (compareHands_antisym_aux hand1 hand1). lia.
  - unfold compareHands. destruct (_ =? _); [apply compareHighCards_values |].
    destruct (_ <? _); [by right; right | by left].
Qed.

Lemma compareHighCards_equal high1 high2 i n :
  (forall k, (i <= k)%nat -> orZero (high1 !! k) = orZero (high2 !! k)) ->
  compareHighCards high1 high2 i n = 0.
Proof.
  revert i. induction n as [| n IH]; intros i Heq; cbn [compareHighCards]; [done |].
  rewrite (Heq i) by lia. rewrite Z.eqb_refl. apply IH. intros k Hk. apply Heq. lia.
Qed.

Lemma compareHighCards_more high1 high2 i n m :
  (forall k, (i + n <= k)%nat -> orZero (high1 !! k) = orZero (high2 !! k)) ->
  compareHighCards high1 high2 i (n + m) = compareHighCards high1 high2 i n.
Proof.
  revert i. induction n as [| n IH]; intros i Heq.
  - cbn [Nat.add compareHighCards]. apply compareHighCards_equal.
    intros k Hk. apply Heq. lia.
  - cbn [Nat.add compareHighCards]. rewrite IH; [done |].
    intros k Hk. apply Heq. lia.
Qed.

(** [compareHands] may run its loop over any number of indices that covers
    both lists: beyond them every entry reads as 0. *)
Lemma compareHands_upto (N : nat) hand1 hand2 :
  (length (Hand.highCards hand1) <= N)%nat ->
  (length (Hand.highCards hand2) <= N)%nat ->
  compareHands hand1 hand2
  = if Hand.rank hand1 =? Hand.rank hand2 then
      compareHighCards (Hand.highCards hand1) (Hand.highCards hand2) 0 N
    else if Hand.rank hand2 <? Hand.rank hand1 then 1 else -1.
Proof.
  intros H1 H2. unfold compareHands. destruct (_ =? _); [| done].
  set (n := Nat.max _ _).
  replace N with (n + (N - n))%nat by lia.
  rewrite compareHighCards_more; [done |].
  intros k Hk. rewrite !lookup_ge_None_2 by lia. done.
Qed.

Lemma compareHighCards_trans high1 high2 high3 i n :
  0 <= compareHighCards high1 high2 i n ->
  0 <= compareHighCards high2 high3 i n ->
  0 <= compareHighCards high1 high3 i n.
Proof.
  revert i. induction n as [| n IH]; intros i; cbn [compareHighCards]; [done |].
  destruct (Z.eqb_spec (orZero (high1 !! i)) (orZero (high2 !! i)));
    destruct (Z.eqb_spec (orZero (high2 !! i)) (orZero (high3 !! i)));
    destruct (Z.eqb_spec (orZero (high1 !! i)) (orZero (high3 !! i)));
    repeat match goal with
           | |- context [?a <? ?b] => destruct (Z.ltb_spec a b)
           end;
    try lia; apply IH.
Qed.

Lemma compareHands_trans hand1 hand2 hand3 :
  0 <= compareHands hand1 hand2 ->
  0 <= compareHands hand2 hand3 ->
  0 <= compareHands hand1 hand3.
Proof.
  set (N := (length (Hand.highCards hand1) + length (Hand.highCards hand2)
             + length (Hand.highCards hand3))%nat).
  rewrite (compareHands_upto N hand1 hand2), (compareHands_upto N hand2 hand3),
    (compareHands_upto N hand1 hand3) by lia.
  destruct (Z.eqb_spec (Hand.rank hand1) (Hand.rank hand2));
    destruct (Z.eqb_spec (Hand.rank hand2) (Hand.rank hand3));
    destruct (Z.eqb_spec (Hand.rank hand1) (Hand.rank hand3));
    repeat match goal with
           | |- context [?a <? ?b] => destruct (Z.ltb_spec a b)
           end;
    try lia; apply compareHighCards_trans.
Qed.

Lemma compareHands_refl hand : compareHands hand hand = 0.
Proof. pose proof (compareHands_antisym_aux hand hand). lia. Qed.

(** The scan of [evaluateBestHand] over the high cards agrees with
    [compareHands] as long as the high cards of the best hand so far are
    not negative. *)
Lemma compareHighCards_padding high1 high2 i n :
  (forall k, (i <= k)%nat -> orZero (high2 !! k) = 0) ->
  (forall k, 0 <= orZero (high1 !! k)) ->
  0 <= compareHighCards high1 high2 i n.
Proof.
  revert i. induction n as [| n IH]; intros i Hzero Hpos; cbn [compareHighCards]; [done |].
  rewrite (Hzero i) by lia. specialize (Hpos i) as Hi.
  destruct (Z.eqb_spec (orZero (high1 !! i)) 0); [apply IH; [| done] |].
  - intros k Hk. apply Hzero. lia.
  - destruct (Z.ltb_spec 0 (orZero (high1 !! i))); lia.
Qed.

Lemma beatsOnHighCards_spec handFull bestHigh handHigh i n :
  (forall j, orZero (handFull !! (i + j)%nat) = orZero (handHigh !! j)) ->
  (length handHigh <= n)%nat ->
  (forall k, 0 <= orZero (bestHigh !! k)) ->
  if beatsOnHighCards handHigh bestHigh i
  then compareHighCards handFull bestHigh i n = 1
  else 0 <= compareHighCards bestHigh handFull i n.
Proof.
  revert i n. induction handHigh as [| h rest IH]; intros i n Hfull Hlen Hpos.
  - cbn [beatsOnHighCards]. apply compareHighCards_padding; [| done].
    intros k Hk. replace k with (i + (k - i))%nat by lia. by rewrite Hfull.
  - destruct n as [| n]; cbn [length] in Hlen; [lia |].
    cbn [beatsOnHighCards compareHighCards].
    pose proof (Hfull 0%nat) as H0. rewrite Nat.add_0_r in H0. cbn in H0. rewrite H0.
    destruct (Z.ltb_spec (orZero (bestHigh !! i)) h) as [Hlt | Hge].
    + destruct (Z.eqb_spec h (orZero (bestHigh !! i))); [lia |]. done.
    + destruct (Z.ltb_spec h (orZero (bestHigh !! i))) as [Hlt' | Hge'].
      * destruct (Z.eqb_spec (orZero (bestHigh !! i)) h); [lia |]. done.
      * assert (h = orZero (bestHigh !! i)) as Heq by lia. rewrite <- Heq, Z.eqb_refl.
        apply IH; [| lia | done].
        intros j. replace (S i + j)%nat with (i + S j)%nat by lia. by rewrite Hfull.
Qed.

Lemma keepBetter_spec bestHand hand :
  Forall cardValue (Hand.highCards bestHand) ->
  (keepBetter bestHand hand = hand \/ keepBetter bestHand hand = bestHand)
  /\ 0 <= compareHands (keepBetter bestHand hand) hand
  /\ 0 <= compareHands (keepBetter bestHand hand) bestHand.
Proof.
  intros Hpos. unfold keepBetter.
  destruct (Z.ltb_spec (Hand.rank bestHand) (Hand.rank hand)) as [Hlt | Hge].
  { split; [by left |]. rewrite compareHands_refl. split; [done |].
    unfold compareHands. destruct (Z.eqb_spec (Hand.rank hand) (Hand.rank bestHand)); [lia |].
    destruct (Z.ltb_spec (Hand.rank bestHand) (Hand.rank hand)); lia. }
  destruct (Z.eqb_spec (Hand.rank hand) (Hand.rank bestHand)) as [Heq | Hne].
  - set (N := (length (Hand.highCards hand) + length (Hand.highCards bestHand))%nat).
    pose proof (beatsOnHighCards_spec (Hand.highCards hand) (Hand.highCards bestHand)
                  (Hand.highCards hand) 0 N) as Hspec.
    destruct (beatsOnHighCards _ _ 0).
    + split; [by left |]. rewrite compareHands_refl. split; [done |].
      rewrite (compareHands_upto N) by lia. rewrite Heq, Z.eqb_refl.
      rewrite Hspec; [done | done | lia |].
      intros k. by apply orZero_lookup_Forall.
    + split; [by right |]. rewrite compareHands_refl. split; [| done].
      rewrite (compareHands_upto N) by lia. rewrite Heq, Z.eqb_refl.
      apply Hspec; [done | lia |].
      intros k. by apply orZero_lookup_Forall.
  - split; [by right |]. rewrite compareHands_refl. split; [| done].
    unfold compareHands.
    destruct (Z.eqb_spec (Hand.rank bestHand) (Hand.rank hand)); [lia |].
    destruct (Z.ltb_spec (Hand.rank hand) (Hand.rank bestHand)); lia.
Qed.

Lemma getCombinations_nonempty {A} (cards : list A) (size : nat) :
  (size <= length cards)%nat -> getCombinations cards size <> [].
Proof.
  revert size. induction cards as [| c rest IH]; intros [| k] Hlen;
    cbn [length] in Hlen; cbn [getCombinations]; try done; [lia |].
  intros Heq. apply app_eq_nil in Heq as [Heq _].
  apply fmap_nil_inv in Heq. by apply (IH k); [lia |].
Qed.

(** The loop of [evaluateBestHand] over combinations of five cards. *)
Lemma bestHand_fold combos best0 best :
  Forall (fun combo => length combo = 5%nat) combos ->
  Forall cardValue (Hand.highCards best0) ->
  fold_left
    (fun bestHand combo =>
       bestHand ← bestHand;
       cards ← definedCards combo;
       hand ← evaluate5Cards cards;
       Some (keepBetter bestHand hand))
    combos (Some best0) = Some best ->
  Forall cardValue (Hand.highCards best)
  /\ 0 <= compareHands best best0
  /\ (forall combo cards hand,
        combo ∈ combos -> definedCards combo = Some cards ->
        evaluate5Cards cards = Some hand -> 0 <= compareHands best hand)
  /\ (best = best0
      \/ exists combo cards,
           combo ∈ combos /\ definedCards combo = Some cards
           /\ evaluate5Cards cards = Some best).
Proof.
  intros Hfive. revert best0.
  induction Hfive as [| combo combos Hlen _ IH]; intros best0 Hpos Hfold.
  - cbn in Hfold. injection Hfold as <-. split; [done |].
    rewrite compareHands_refl. split; [done |]. split; [| by left].
    by intros combo cards hand ?%elem_of_nil.
  - rewrite fold_left_cons in Hfold. cbn [mbind option_bind] in Hfold.
    destruct (definedCards combo) as [cards |] eqn:Hcards; cbn [mbind option_bind] in Hfold.
    2: { exfalso. clear -Hfold. induction combos as [| c combos IH]; [done |].
         rewrite fold_left_cons in Hfold. cbn [mbind option_bind] in Hfold. auto. }
    destruct (evaluate5Cards cards) as [hand |] eqn:Hhand; cbn [mbind option_bind] in Hfold.
    2: { exfalso. clear -Hfold. induction combos as [| c combos IH]; [done |].
         rewrite fold_left_cons in Hfold. cbn [mbind option_bind] in Hfold. auto. }
    assert (length cards = 5%nat) as Hlen'.
    { apply length_mapM in Hcards. lia. }
    destruct (evaluate5Cards_range cards Hlen') as (hand' & Hhand' & _ & _ & Hposh).
    rewrite Hhand in Hhand'. injection Hhand' as <-.
    destruct (keepBetter_spec best0 hand Hpos) as (Hwhich & Hbh & Hbb).
    assert (Forall cardValue (Hand.highCards (keepBetter best0 hand))) as Hpos'.
    { by destruct Hwhich as [-> | ->]. }
    destruct (IH _ Hpos' Hfold) as (Hposb & Hge & Hall & Hfrom).
    split; [done |]. split; [by apply (compareHands_trans _ _ _ Hge) |]. split.
    + intros combo' cards' hand' [-> | Hin]%elem_of_cons Hc Hh.
      * rewrite Hcards in Hc. injection Hc as <-. rewrite Hhand in Hh. injection Hh as <-.
        by apply (compareHands_trans _ _ _ Hge).
      * by apply (Hall combo' cards' hand').
    + destruct Hfrom as [-> | (combo' & cards' & Hin & Hc & Hh)].
      * destruct Hwhich as [-> | ->]; [| by left].
        right. exists combo, cards. split; [by left | done].
      * right. exists combo', cards'. split; [by right | done].
Qed.

(** X10.  The hand [evaluateBestHand] returns is at least as good, by
    [compareHands], as every five-card hand out of the hole and community
    cards; with five cards or more it is the hand of one of these
    combinations, of a rank between 1 and 10. *)
Theorem evaluateBestHand_is_best holeCards communityCards best :
  evaluateBestHand holeCards communityCards = Some best ->
  (forall combo cards hand,
     combo ∈ getCombinations (holeCards ++ communityCards) 5 ->
     definedCards combo = Some cards ->
     evaluate5Cards cards = Some hand ->
     0 <= compareHands best hand)
  /\ ((5 <= length (holeCards ++ communityCards))%nat ->
      1 <= Hand.rank best <= 10
      /\ exists combo cards,
           combo ∈ getCombinations (holeCards ++ communityCards) 5
           /\ definedCards combo = Some cards
           /\ evaluate5Cards cards = Some best).
Proof.
  unfold evaluateBestHand. intros Hfold.
  assert (Forall (fun combo => length combo = 5%nat)
            (getCombinations (holeCards ++ communityCards) 5)) as Hfive.
  { apply Forall_forall. intros combo Hin. by apply getCombinations_spec in Hin as [? _]. }
  assert (Forall cardValue (Hand.highCards (Hand.mk 0 [0]))) as Hpos0.
  { constructor; [unfold cardValue; lia | constructor]. }
  destruct (bestHand_fold _ _ _ Hfive Hpos0 Hfold) as (_ & _ & Hall & Hfrom).
  split; [exact Hall |]. intros Hlen.
  pose proof (getCombinations_nonempty (holeCards ++ communityCards) 5 Hlen) as Hne.
  destruct Hfrom as [-> | (combo & cards & Hin & Hc & Hh)].
  - exfalso.
    destruct (getCombinations (holeCards ++ communityCards) 5) as [| combo combos] eqn:Hcombos;
      [done |].
    rewrite fold_left_cons in Hfold. cbn [mbind option_bind] in Hfold.
    destruct (definedCards combo) as [cards |] eqn:Hcards; cbn [mbind option_bind] in Hfold.
    2: { clear -Hfold. induction combos as [| c combos IH]; [done |].
         rewrite fold_left_cons in Hfold. cbn [mbind option_bind] in Hfold. auto. }
    destruct (evaluate5Cards cards) as [hand |] eqn:Hhand; cbn [mbind option_bind] in Hfold.
    2: { clear -Hfold. induction combos as [| c combos IH]; [done |].
         rewrite fold_left_cons in Hfold. cbn [mbind option_bind] in Hfold. auto. }
    assert (length cards = 5%nat) as Hlen'.
    { apply length_mapM in Hcards. apply Forall_cons_1 in Hfive as [? _]. lia. }
    destruct (evaluate5Cards_range cards Hlen') as (hand' & Hhand' & Hrank & _).
    rewrite Hhand in Hhand'. injection Hhand' as <-.
    specialize (Hall combo cards hand ltac:(left) Hcards Hhand).
    unfold compareHands in Hall. cbn [Hand.rank] in Hall.
    destruct (Z.eqb_spec 0 (Hand.rank hand)); [lia |].
    destruct (Z.ltb_spec (Hand.rank hand) 0); lia.
  - split; [| by exists combo, cards].
    assert (length cards = 5%nat) as Hlen'.
    { apply length_mapM in Hc. rewrite Forall_forall in Hfive.
      specialize (Hfive _ Hin). lia. }
    destruct (evaluate5Cards_range cards Hlen') as (hand' & Hhand' & Hrank & _).
    rewrite Hh in Hhand'. by injection Hhand' as <-.
Qed.

Lemma evaluateBestHand_is_best_witness :
  exists best,
    evaluateBestHand
      [Some (Card.mk "2" "hearts" 2); Some (Card.mk "3" "diamonds" 3)] royalBoard
    = Some best
    /\ forall combo cards hand,
         combo ∈ getCombinations
                   ([Some (Card.mk "2" "hearts" 2); Some (Card.mk "3" "diamonds" 3)]
                    ++ royalBoard) 5 ->
         definedCards combo = Some cards ->
         evaluate5Cards cards = Some hand ->
         0 <= compareHands best hand.
Proof.
  exists (Hand.mk 10 [14]).
  assert (evaluateBestHand
            [Some (Card.mk "2" "hearts" 2); Some (Card.mk "3" "diamonds" 3)] royalBoard
          = Some (Hand.mk 10 [14])) as Hbest by (vm_compute; reflexivity).
  split; [exact Hbest |].
  exact (proj1 (evaluateBestHand_is_best _ _ _ Hbest)).
Defined.

(** ** The showdown *)

Lemma findWinners_best first others rest w :
  head (findWinners first others rest) = Some w ->
  (w = first \/ w ∈ rest)
  /\ 0 <= compareHands (bestHand w) (bestHand first)
  /\ forall ph, ph ∈ rest -> 0 <= compareHands (bestHand w) (bestHand ph).
Proof.
  revert first others. induction rest as [| ph rest IH]; intros first others Hhead.
  - cbn in Hhead. injection Hhead as <-. split; [by left |].
    rewrite compareHands_refl. split; [done |]. by intros ph ?%elem_of_nil.
  - cbn [findWinners] in Hhead.
    pose proof (compareHands_antisym_aux (bestHand ph) (bestHand first)) as Hanti.
    destruct (Z.ltb_spec 0 (compareHands (bestHand ph) (bestHand first))) as [Hgt | Hle].
    + destruct (IH _ _ Hhead) as (Hin & Hph & Hrest).
      split; [destruct Hin as [-> | Hin]; right; [by left | by right] |].
      split; [apply (compareHands_trans _ _ _ Hph); lia |].
      intros ph' [-> | Hin']%elem_of_cons; [done | by apply Hrest].
    + assert (0 <= compareHands (bestHand first) (bestHand ph)) as Hfirst by lia.
      destruct (compareHands (bestHand ph) (bestHand first) =? 0);
        destruct (IH _ _ Hhead) as (Hin & Hf & Hrest).
      all: split; [destruct Hin as [-> | Hin]; [by left | by right; right] |].
      all: split; [done |].
      all: intros ph' [-> | Hin']%elem_of_cons;
        [by apply (compareHands_trans _ _ _ Hf) | by apply Hrest].
Qed.

Lemma showdownState_best s updated cards potInc s' :
  showdownState s updated cards potInc = Some s' ->
  exists hands best,
    mapM (evaluatePlayer s updated cards)
      (filter (fun p => notFolded p = true) updated) = Some hands
    /\ map player hands = filter (fun p => notFolded p = true) updated
    /\ best ∈ hands
    /\ PokerGameState.winner s'
       = Some (Winner.mk (PlayerInfo.name (player best)) (PokerGameState.pot s + potInc)
                 "showdown" (Some (getHandRankName (Hand.rank (bestHand best)))))
    /\ forall ph, ph ∈ hands -> 0 <= compareHands (bestHand best) (bestHand ph).
Proof.
  unfold showdownState. intros H.
  destruct (mapM _ _) as [playerHands |] eqn:Hhands; [| done].
  cbn [mbind option_bind] in H.
  destruct playerHands as [| ph0 rest]; [done |].
  destruct (head (findWinners ph0 [] rest)) as [w0 |] eqn:Hhead; [| done].
  cbn [mbind option_bind] in H. injection H as <-.
  destruct (findWinners_best _ _ _ _ Hhead) as (Hin & Hfirst & Hrest).
  exists (ph0 :: rest), w0. split; [done |]. split.
  { apply mapM_Some in Hhands. clear -Hhands.
    induction Hhands as [| p ph players hands Hev _ IH]; [done |].
    cbn [map]. rewrite IH. f_equal. by apply evaluatePlayer_player in Hev. }
  split; [destruct Hin as [-> | Hin]; [by left | by right] |].
  split; [done |].
  intros ph [-> | Hph]%elem_of_cons; [done | by apply Hrest].
Qed.

(** X11.  When an action ends the hand by a showdown, the winner announced
    is a player who has not folded and whose best hand is at least as good,
    by [compareHands], as the best hand of every player who has not
    folded. *)
Theorem showdown_winner_has_best_hand action name s s' w :
  handInProgress s = true ->
  performAction action name s = Broadcast s' ->
  PokerGameState.phase s' = "Winner" ->
  PokerGameState.winner s' = Some w ->
  Winner.reason w = "showdown" ->
  exists hands best,
    mapM (evaluatePlayer s (playersAfter action name s) (PokerGameState.communityCards s'))
      (filter (fun p => notFolded p = true) (playersAfter action name s)) = Some hands
    /\ map player hands
       = filter (fun p => notFolded p = true) (playersAfter action name s)
    /\ best ∈ hands
    /\ Winner.name w = PlayerInfo.name (player best)
    /\ Winner.handRank w = Some (getHandRankName (Hand.rank (bestHand best)))
    /\ forall ph, ph ∈ hands -> 0 <= compareHands (bestHand best) (bestHand ph).
Proof.
  intros Hhand Hact Hphase Hwinner Hreason.
  destruct (performAction_inv _ _ _ _ Hact) as (actingPlayer & updated & e & Hfind & Heff & Hout).
  assert (playersAfter action name s = updated) as ->.
  { unfold playersAfter, actingPlayerOf. by rewrite Hfind, Heff. }
  destruct Hout as [winner Hwin -> | Hclose Hsd Hshow | idx Hclose -> Hsd | idx Hopen Hlen ->].
  - cbn [foldWinState PokerGameState.winner] in Hwinner. injection Hwinner as <-.
    done.
  - destruct (showdownState_best _ _ _ _ _ Hshow) as (hands & best & Hm & Hp & Hin & Hw & Hb).
    destruct (showdownState_inv _ _ _ _ _ Hshow) as (? & ? & ? & _ & Hs').
    assert (PokerGameState.communityCards s'
            = revealCards (phaseAfter s) (PokerGameState.communityCards s)
                (preDealtCards s)) as -> by by rewrite Hs'.
    exists hands, best. rewrite Hw in Hwinner. injection Hwinner as <-.
    done.
  - cbn [nextState PokerGameState.phase] in Hphase. exfalso.
    unfold phaseAfter in Hphase.
    destruct (handInProgress_phase _ Hhand) as [H | [H | [H | H]]];
      rewrite H in Hphase; done.
  - cbn [nextState PokerGameState.phase] in Hphase.
    by apply winner_not_in_progress in Hhand.
Qed.

Lemma showdown_winner_has_best_hand_witness :
  exists hands best,
    mapM (evaluatePlayer tiedRiver
            (playersAfter (Action.Named "Check") "A" tiedRiver)
            (PokerGameState.communityCards tiedShowdown))
      (filter (fun p => notFolded p = true)
         (playersAfter (Action.Named "Check") "A" tiedRiver)) = Some hands
    /\ map player hands
       = filter (fun p => notFolded p = true)
           (playersAfter (Action.Named "Check") "A" tiedRiver)
    /\ best ∈ hands
    /\ Winner.name (Winner.mk "A" 200 "showdown" (Some "Royal Flush"))
       = PlayerInfo.name (player best)
    /\ Winner.handRank (Winner.mk "A" 200 "showdown" (Some "Royal Flush"))
       = Some (getHandRankName (Hand.rank (bestHand best)))
    /\ forall ph, ph ∈ hands -> 0 <= compareHands (bestHand best) (bestHand ph).
Proof.
  apply (showdown_winner_has_best_hand (Action.Named "Check") "A" tiedRiver tiedShowdown
           (Winner.mk "A" 200 "showdown" (Some "Royal Flush"))).
  - reflexivity.
  - vm_compute. reflexivity.
  - reflexivity.
  - reflexivity.
  - reflexivity.
Defined.

(** ** What an action leaves untouched *)

Lemma actOn_seat actionStr amount tableBet p e :
  seatOf (actOn actionStr amount tableBet p e).1 = seatOf p.
Proof.
  unfold actOn. repeat (destruct (_ : bool); [done |]). done.
Qed.

Lemma updatePlayers_seats actionStr amount tableBet name players e :
  map seatOf (updatePlayers actionStr amount tableBet name players e).1
  = map seatOf players.
Proof.
  revert e. induction players as [| p rest IH]; intros e; [done |].
  cbn [updatePlayers].
  destruct (String.eqb (PlayerInfo.name p) name).
  - pose proof (actOn_seat actionStr amount tableBet p e) as Hp.
    destruct (actOn actionStr amount tableBet p e) as [p' e']. cbn [fst] in Hp.
    specialize (IH e'). destruct (updatePlayers _ _ _ _ rest e') as [rest' e''].
    cbn [fst map] in *. by rewrite Hp, IH.
  - specialize (IH e). destruct (updatePlayers _ _ _ _ rest e) as [rest' e''].
    cbn [fst map] in *. by rewrite IH.
Qed.

Lemma awardPot_seats winnerName totalPot players :
  map seatOf (map (awardPot winnerName totalPot) players) = map seatOf players.
Proof.
  rewrite map_map. apply map_ext. intros p. unfold awardPot.
  by destruct (String.eqb _ _).
Qed.

Lemma reset_bets_seats players :
  map seatOf (map (PlayerInfo.with_currentBet 0) players) = map seatOf players.
Proof. rewrite map_map. by apply map_ext. Qed.

Lemma performAction_keeps_seats_aux action name s s' :
  performAction action name s = Broadcast s' ->
  seats s' = seats s
  /\ PokerGameState.tableId s' = PokerGameState.tableId s
  /\ PokerGameState.dealerPosition s' = PokerGameState.dealerPosition s
  /\ PokerGameState.playerCount s' = PokerGameState.playerCount s
  /\ PokerGameState.handNumber s' = PokerGameState.handNumber s
  /\ PokerGameState.handSeed s' = PokerGameState.handSeed s
  /\ PokerGameState.dealtCards s' = PokerGameState.dealtCards s.
Proof.
  intros Hact.
  destruct (performAction_inv _ _ _ _ Hact) as (actingPlayer & updated & e & Hfind & Heff & Hout).
  assert (map seatOf updated = seats s) as Hupd.
  { unfold actionEffect in Heff. destruct (parseAction action) as [actionStr amount].
    pose proof (updatePlayers_seats (effectiveAction actionStr actingPlayer) amount
                  (PokerGameState.currentBet s) name (PokerGameState.players s)
                  (mkEffect 0 (PokerGameState.currentBet s))) as H.
    by rewrite Heff in H. }
  destruct Hout as [winner Hwin -> | Hclose Hsd Hshow | idx Hclose -> Hsd | idx Hopen Hlen ->].
  - unfold seats. cbn [foldWinState PokerGameState.players]. by rewrite awardPot_seats.
  - destruct (showdownState_inv _ _ _ _ _ Hshow) as (winner & hr & sc & _ & ->).
    unfold seats. cbn [PokerGameState.players]. by rewrite awardPot_seats.
  - unfold seats. cbn [nextState PokerGameState.players]. by rewrite reset_bets_seats.
  - done.
Qed.

(** X12.  An action never changes who sits where, nor the table, the dealer,
    the hand number, the seed or the cards dealt for the hand: the broadcast
    state has the same players (address, name and chain id) in the same
    seats. *)
Theorem performAction_keeps_seats action name s s' :
  performAction action name s = Broadcast s' ->
  seats s' = seats s
  /\ PokerGameState.tableId s' = PokerGameState.tableId s
  /\ PokerGameState.dealerPosition s' = PokerGameState.dealerPosition s
  /\ PokerGameState.playerCount s' = PokerGameState.playerCount s
  /\ PokerGameState.handNumber s' = PokerGameState.handNumber s
  /\ PokerGameState.handSeed s' = PokerGameState.handSeed s
  /\ PokerGameState.dealtCards s' = PokerGameState.dealtCards s.
Proof. apply performAction_keeps_seats_aux. Qed.

Lemma performAction_keeps_seats_witness :
  seats headsUpRaised = seats headsUpPreFlop
  /\ PokerGameState.tableId headsUpRaised = PokerGameState.tableId headsUpPreFlop
  /\ PokerGameState.dealerPosition headsUpRaised
     = PokerGameState.dealerPosition headsUpPreFlop
  /\ PokerGameState.playerCount headsUpRaised = PokerGameState.playerCount headsUpPreFlop
  /\ PokerGameState.handNumber headsUpRaised = PokerGameState.handNumber headsUpPreFlop
  /\ PokerGameState.handSeed headsUpRaised = PokerGameState.handSeed headsUpPreFlop
  /\ PokerGameState.dealtCards headsUpRaised = PokerGameState.dealtCards headsUpPreFlop.
Proof.
  apply (performAction_keeps_seats (Action.Raise 100) "B" headsUpPreFlop headsUpRaised).
  vm_compute. reflexivity.
Defined.

(** ** An action never ends in the catch block *)

Lemma performAction_threw_inv action name s :
  performAction action name s = Threw ->
  exists actingPlayer updated e,
    actionEffect action name s actingPlayer = (updated, e)
    /\ phaseAfter s = "Showdown"
    /\ filter (fun p => notFolded p = true) updated <> []
    /\ showdownState s updated
         (revealCards (phaseAfter s) (PokerGameState.communityCards s) (preDealtCards s))
         (potIncrease e) = None.
Proof.
  unfold performAction, actionEffect.
  destruct (parseAction action) as [actionStr amount].
  destruct (find _ _) as [actingPlayer |]; [| done].
  destruct (updatePlayers _ _ _ _ _ _) as [updated e] eqn:Hupd.
  intros H. exists actingPlayer, updated, e. split; [done |].
  set (a := effectiveAction actionStr actingPlayer) in *. clearbody a.
  destruct (roundCloses s a updated (newTableBet e)) eqn:Hadv.
  - destruct (filter (fun p => notFolded p = true) updated) as [| w [| w' rest]] eqn:Hin.
    + cbn [length Nat.ltb Nat.leb andb] in H. by rewrite andb_false_r in H.
    + done.
    + cbn [andb] in H.
      destruct (String.eqb_spec (phaseAfter s) "Showdown") as [Hsd | Hsd].
      * assert (Hf : String.eqb (phaseAfter s) "Flop" = false) by by rewrite Hsd.
        assert (Ht : String.eqb (phaseAfter s) "Turn" = false) by by rewrite Hsd.
        assert (Hr : String.eqb (phaseAfter s) "River" = false) by by rewrite Hsd.
        rewrite Hf, Ht, Hr in H. cbn [andb negb length Nat.ltb Nat.leb] in H.
        destruct (showdownState _ _ _ _) as [s'' |] eqn:Hshow; [done |].
        done.
      * rewrite !andb_false_r in H. by cbn [andb] in H.
  - cbn [andb] in H.
    by destruct (filter (fun p => notFolded p = true) updated) as [| w [| w' rest]].
Qed.

Lemma performAction_defined action name s :
  cardsDefined s -> performAction action name s <> Threw.
Proof.
  intros [Hcc Hhole] Hthrew.
  destruct (performAction_threw_inv _ _ _ Hthrew)
    as (actingPlayer & updated & e & _ & Hsd & Hin & Hshow).
  rewrite Hsd, revealCards_showdown in Hshow.
  destruct (showdownState_total s updated (PokerGameState.communityCards s)
              (potIncrease e) Hin Hcc Hhole) as [s' Hs'].
  congruence.
Qed.

Lemma revealCards_defined newPhase cards preDealt :
  Forall is_Some cards -> Forall is_Some preDealt ->
  Forall is_Some (revealCards newPhase cards preDealt).
Proof.
  intros Hcards Hpre. unfold revealCards.
  destruct (_ && _); [by apply Forall_take |].
  destruct (_ && _).
  { destruct (Js.get preDealt 3); [| done]. apply Forall_app. split; [done |].
    by repeat constructor. }
  destruct (_ && _); [| done].
  destruct (Js.get preDealt 4); [| done]. apply Forall_app. split; [done |].
  by repeat constructor.
Qed.

Lemma fiveDefined_Forall cards : fiveDefined cards -> Forall is_Some cards.
Proof. intros (c1 & c2 & c3 & c4 & c5 & ->). by repeat constructor. Qed.

Lemma performAction_cardsDefined action name s s' :
  cardsDefined s -> Forall is_Some (preDealtCards s) ->
  performAction action name s = Broadcast s' ->
  cardsDefined s'.
Proof.
  intros [Hcc Hhole] Hpre Hact.
  destruct (performAction_inv _ _ _ _ Hact) as (actingPlayer & updated & e & _ & _ & Hout).
  destruct Hout as [winner Hwin -> | Hclose Hsd Hshow | idx Hclose -> Hsd | idx Hopen Hlen ->].
  - done.
  - destruct (showdownState_inv _ _ _ _ _ Hshow) as (winner & hr & sc & _ & ->).
    split; [| done]. cbn [PokerGameState.communityCards]. by apply revealCards_defined.
  - split; [| done]. cbn [nextState PokerGameState.communityCards].
    by apply revealCards_defined.
  - done.
Qed.

Lemma startGame_cardsDefined tableId s s' :
  (2 * length (PokerGameState.players s) + 8 <= 52)%nat ->
  startGame tableId s = StartBroadcast s' ->
  cardsDefined s'.
Proof.
  intros Hn. unfold startGame.
  destruct (_ <? 2)%nat; [done |]. intros [= <-].
  split; [by cbn |]. cbn [PokerGameState.dealtCards]. intros d [= <-].
  destruct (shuffleDeck_cards
              (generateHandSeed tableId (PokerGameState.handNumber s + 1)
                 (map PlayerInfo.address (PokerGameState.players s))))
    as (cards & -> & Hperm).
  assert (NoDup cards) as Hnodup by (rewrite Hperm; apply createDeck_NoDup).
  assert (length cards = 52%nat) as Hlen by by rewrite (Permutation_length Hperm).
  destruct (dealCards_deals_distinct_cards_aux cards (length (PokerGameState.players s))
              Hnodup ltac:(lia))
    as (dealt & _ & _ & _ & Hcat & _ & _).
  apply Forall_forall. intros hole Hhole. apply Forall_forall. intros c Hc.
  assert (c ∈ map Some dealt) as Hin.
  { rewrite <- Hcat. apply elem_of_app. left. apply list_elem_of_In, in_concat.
    exists hole. by rewrite <- !list_elem_of_In. }
  apply list_elem_of_fmap in Hin as (c' & -> & _). done.
Qed.

Lemma reachable_invariant tableId s :
  reachable tableId s -> tableInvariant s /\ cardsDefined s.
Proof.
  induction 1
    as [| s p Hreach IH | s s' Hn Hstart | s action name s' Hreach IH Hhand Hact].
  - split; [| by split]. split; [| done].
    unfold cardsMatchPhase. cbn. repeat split; try done; tauto.
  - exact IH.
  - split; [| by eapply startGame_cardsDefined].
    destruct (startGame_inv _ _ _ Hn Hstart) as (Hphase & Hcc & Hfive).
    assert (Hin : handInProgress s' = true) by (unfold handInProgress; by rewrite Hphase).
    split; [| done].
    apply cardsMatchPhase_street; [done | ..]; rewrite Hphase, Hcc; done.
  - destruct IH as [Hinv Hdef]. split; [by eapply performAction_invariant |].
    eapply performAction_cardsDefined; [done | | done].
    apply fiveDefined_Forall. by apply Hinv.
Qed.

(** X13.  On a table reached by seating players, starting hands and applying
    actions, every card on the board and in the hands is defined, and no
    call of [performAction] ends with an exception: the call is ignored (the
    name is not at the table) or a state is broadcast. *)
Theorem performAction_never_throws tableId s action name :
  reachable tableId s ->
  cardsDefined s
  /\ (performAction action name s = Ignored
      \/ exists s', performAction action name s = Broadcast s').
Proof.
  intros Hreach. destruct (reachable_invariant _ _ Hreach) as [_ Hdef].
  split; [done |].
  pose proof (performAction_defined action name s Hdef) as Hno.
  destruct (performAction action name s) as [| | s']; [by left | done | right; by exists s'].
Qed.

Lemma performAction_never_throws_witness :
  cardsDefined headsUpPreFlop
  /\ (performAction (Action.Raise 100) "B" headsUpPreFlop = Ignored
      \/ exists s', performAction (Action.Raise 100) "B" headsUpPreFlop = Broadcast s').
Proof.
  apply (performAction_never_throws "table-1" headsUpPreFlop (Action.Raise 100) "B").
  apply (reach_start "table-1" headsUpTable headsUpPreFlop).
  - cbn. lia.
  - vm_compute. reflexivity.
Defined.

(** ** A player without chips *)

Lemma actOn_fold_amount amount tableBet p e :
  actOn "fold" amount tableBet p e = actOn "fold" 0 tableBet p e.
Proof. reflexivity. Qed.

Lemma updatePlayers_fold_amount amount tableBet name players e :
  updatePlayers "fold" amount tableBet name players e
  = updatePlayers "fold" 0 tableBet name players e.
Proof.
  revert e. induction players as [| p rest IH]; intros e; [done |].
  cbn [updatePlayers]. rewrite actOn_fold_amount.
  destruct (if String.eqb _ _ then _ else _) as [p' e']. by rewrite IH.
Qed.

(** X14.  A player whose stack is empty (or negative) can only fold or
    check: any other action in that player's name, a call or an all-in
    included, is applied as a fold. *)
Theorem action_without_chips_is_a_fold action name s p :
  actingPlayerOf name s = Some p ->
  PlayerInfo.chips p <= 0 ->
  (parseAction action).1 <> "fold" ->
  (parseAction action).1 <> "check" ->
  performAction action name s = performAction Action.Fold name s
  /\ appliedAction action name s = "fold".
Proof.
  unfold actingPlayerOf. intros Hfind Hchips Hfold Hcheck.
  assert (effectiveAction (parseAction action).1 p = "fold") as Heff.
  { unfold effectiveAction, Js.includes. cbn [existsb].
    destruct (Z.leb_spec (PlayerInfo.chips p) 0); [| lia].
    destruct (String.eqb_spec (parseAction action).1 "fold"); [done |].
    destruct (String.eqb_spec (parseAction action).1 "check"); [done |]. done. }
  split; [| unfold appliedAction, actingPlayerOf; by rewrite Hfind].
  unfold performAction. destruct (parseAction action) as [actionStr amount].
  cbn [fst] in Heff. cbn [parseAction]. rewrite Hfind, Heff.
  rewrite (effectiveAction_fold_check "fold" p) by by left.
  by rewrite updatePlayers_fold_amount.
Qed.

Lemma action_without_chips_is_a_fold_witness :
  performAction (Action.Named "Call") "B" shortStackRaised
  = performAction Action.Fold "B" shortStackRaised
  /\ appliedAction (Action.Named "Call") "B" shortStackRaised = "fold".
Proof.
  apply (action_without_chips_is_a_fold (Action.Named "Call") "B" shortStackRaised
           (PlayerInfo.mk "B" "B" 0 "AllIn" 30 (Some ""))).
  - vm_compute. reflexivity.
  - cbn. lia.
  - vm_compute. discriminate.
  - vm_compute. discriminate.
Defined.

(** ** Stacks and pot stay non-negative *)

Lemma actOn_nonneg actionStr amount tableBet p e :
  0 <= PlayerInfo.chips p -> 0 <= amount -> 0 <= potIncrease e ->
  0 <= PlayerInfo.chips (actOn actionStr amount tableBet p e).1
  /\ 0 <= potIncrease (actOn actionStr amount tableBet p e).2.
Proof.
  intros Hchips Hamount Hpot. unfold actOn.
  repeat (destruct (_ : bool); [cbn; lia |]). cbn. lia.
Qed.

Lemma updatePlayers_nonneg actionStr amount tableBet name players e :
  Forall (fun p => 0 <= PlayerInfo.chips p) players ->
  0 <= amount -> 0 <= potIncrease e ->
  Forall (fun p => 0 <= PlayerInfo.chips p)
    (updatePlayers actionStr amount tableBet name players e).1
  /\ 0 <= potIncrease (updatePlayers actionStr amount tableBet name players e).2.
Proof.
  intros Hplayers Hamount. revert e.
  induction Hplayers as [| p rest Hp _ IH]; intros e He; [by split |].
  cbn [updatePlayers].
  destruct (String.eqb (PlayerInfo.name p) name).
  - destruct (actOn_nonneg actionStr amount tableBet p e Hp Hamount He) as [Hp' He'].
    destruct (actOn actionStr amount tableBet p e) as [p' e']. cbn [fst snd] in *.
    destruct (IH e' He') as [Hrest He''].
    destruct (updatePlayers _ _ _ _ rest e') as [rest' e'']. cbn [fst snd] in *.
    split; [by constructor | done].
  - destruct (IH e He) as [Hrest He''].
    destruct (updatePlayers _ _ _ _ rest e) as [rest' e'']. cbn [fst snd] in *.
    split; [by constructor | done].
Qed.

Lemma awardPot_nonneg winnerName totalPot players :
  0 <= totalPot ->
  Forall (fun p => 0 <= PlayerInfo.chips p) players ->
  Forall (fun p => 0 <= PlayerInfo.chips p) (map (awardPot winnerName totalPot) players).
Proof.
  intros Hpot Hplayers. apply Forall_fmap. eapply Forall_impl; [exact Hplayers |].
  intros p Hp. unfold compose, awardPot, PlayerInfo.with_stake. cbn beta in Hp.
  destruct (String.eqb (PlayerInfo.name p) winnerName); cbn [PlayerInfo.chips]; lia.
Qed.

(** X15.  If no stack and not the pot is negative, and the amount of a raise
    is not negative, then after the action no stack and not the pot is
    negative, and unless the hand has ended the pot has not shrunk. *)
Theorem performAction_keeps_stacks_nonnegative action name s s' :
  Forall (fun p => 0 <= PlayerInfo.chips p) (PokerGameState.players s) ->
  0 <= PokerGameState.pot s ->
  0 <= (parseAction action).2 ->
  performAction action name s = Broadcast s' ->
  Forall (fun p => 0 <= PlayerInfo.chips p) (PokerGameState.players s')
  /\ 0 <= PokerGameState.pot s'
  /\ (PokerGameState.phase s' <> "Winner" -> PokerGameState.pot s <= PokerGameState.pot s').
Proof.
  intros Hchips Hpot Hamount Hact.
  destruct (performAction_inv _ _ _ _ Hact) as (actingPlayer & updated & e & Hfind & Heff & Hout).
  assert (Forall (fun p => 0 <= PlayerInfo.chips p) updated /\ 0 <= potIncrease e)
    as [Hupd He].
  { unfold actionEffect in Heff. destruct (parseAction action) as [actionStr amount].
    cbn [snd] in Hamount.
    pose proof (updatePlayers_nonneg (effectiveAction actionStr actingPlayer) amount
                  (PokerGameState.currentBet s) name (PokerGameState.players s)
                  (mkEffect 0 (PokerGameState.currentBet s)) Hchips Hamount
                  ltac:(cbn; lia)) as H.
    by rewrite Heff in H. }
  destruct Hout as [winner Hwin -> | Hclose Hsd Hshow | idx Hclose -> Hsd | idx Hopen Hlen ->].
  - cbn [foldWinState PokerGameState.players PokerGameState.pot PokerGameState.phase].
    split; [apply awardPot_nonneg; [lia | done] |]. split; [lia | done].
  - destruct (showdownState_inv _ _ _ _ _ Hshow) as (winner & hr & sc & _ & ->).
    cbn [PokerGameState.players PokerGameState.pot PokerGameState.phase].
    split; [apply awardPot_nonneg; [lia | done] |]. split; [lia | done].
  - cbn [nextState PokerGameState.players PokerGameState.pot].
    split; [| lia]. apply Forall_fmap. eapply Forall_impl; [exact Hupd | done].
  - cbn [nextState PokerGameState.players PokerGameState.pot]. split; [done | lia].
Qed.

Lemma performAction_keeps_stacks_nonnegative_witness :
  Forall (fun p => 0 <= PlayerInfo.chips p) (PokerGameState.players headsUpRaised)
  /\ 0 <= PokerGameState.pot headsUpRaised
  /\ (PokerGameState.phase headsUpRaised <> "Winner" ->
      PokerGameState.pot headsUpPreFlop <= PokerGameState.pot headsUpRaised).
Proof.
  apply (performAction_keeps_stacks_nonnegative (Action.Raise 100) "B"
           headsUpPreFlop headsUpRaised).
  - repeat (constructor; [cbn; lia |]). constructor.
  - cbn. lia.
  - cbn. lia.
  - vm_compute. reflexivity.
Defined.

(** ** What the betting actions pay *)

(** With distinct names the action touches one player: the one found by
    name. *)
Lemma updatePlayers_unique actionStr amount tableBet name players e p :
  NoDup (map PlayerInfo.name players) ->
  find (fun q => String.eqb (PlayerInfo.name q) name) players = Some p ->
  updatePlayers actionStr amount tableBet name players e
  = (map (fun q => if String.eqb (PlayerInfo.name q) name
                   then (actOn actionStr amount tableBet p e).1 else q) players,
     (actOn actionStr amount tableBet p e).2).
Proof.
  intros Hnodup. induction players as [| q rest IH]; [done |].
  cbn [find map updatePlayers]. apply NoDup_cons in Hnodup as [Hq Hrest].
  destruct (String.eqb_spec (PlayerInfo.name q) name) as [Heq | Hne].
  - intros [= ->]. destruct (actOn actionStr amount tableBet p e) as [p' e'].
    rewrite updatePlayers_absent by by rewrite <- Heq.
    cbn [fst snd]. f_equal. f_equal.
    clear -Hq Heq. induction rest as [| r rest IH]; [done |].
    cbn [map] in *. apply not_elem_of_cons in Hq as [Hr Hq].
    destruct (String.eqb_spec (PlayerInfo.name r) name); [congruence |].
    by rewrite <- IH.
  - intros Hfind. rewrite (IH Hrest Hfind). done.
Qed.

Lemma find_updated name players p p' :
  find (fun q => String.eqb (PlayerInfo.name q) name) players = Some p ->
  PlayerInfo.name p' = name ->
  find (fun q => String.eqb (PlayerInfo.name q) name)
    (map (fun q => if String.eqb (PlayerInfo.name q) name then p' else q) players)
  = Some p'.
Proof.
  intros Hfind Hname. induction players as [| q rest IH]; [done |].
  cbn [find map] in *.
  destruct (String.eqb_spec (PlayerInfo.name q) name) as [Heq | Hne].
  - by rewrite Hname, String.eqb_refl.
  - destruct (String.eqb_spec (PlayerInfo.name q) name); [done |]. by apply IH.
Qed.

Lemma find_name name players p :
  find (fun q => String.eqb (PlayerInfo.name q) name) players = Some p ->
  PlayerInfo.name p = name.
Proof.
  intros H. apply find_some in H as [_ H]. by apply String.eqb_eq.
Qed.




Lemma performAction_unique_inv action name s s' p :
  NoDup (playerNames s) ->
  actingPlayerOf name s = Some p ->
  performAction action name s = Broadcast s' ->
  let actionStr := effectiveAction (parseAction action).1 p in
  let acted :=
    actOn actionStr (parseAction action).2 (PokerGameState.currentBet s) p
      (mkEffect 0 (PokerGameState.currentBet s)) in
  Outcome s actionStr
    (map (fun q => if String.eqb (PlayerInfo.name q) name then acted.1 else q)
       (PokerGameState.players s))
    acted.2 s'.
Proof.
  unfold actingPlayerOf. intros Hnodup Hfind Hact.
  destruct (performAction_inv _ _ _ _ Hact)
    as (actingPlayer & updated & e & Hfind' & Heff & Hout).
  rewrite Hfind in Hfind'. injection Hfind' as <-.
  unfold actionEffect in Heff. destruct (parseAction action) as [actionStr amount].
  cbn [fst snd] in *.
  rewrite (updatePlayers_unique _ _ _ _ _ _ p Hnodup Hfind) in Heff.
  by injection Heff as <- <-.
Qed.

Lemma find_reset_bets name players :
  find (fun q => String.eqb (PlayerInfo.name q) name)
    (map (PlayerInfo.with_currentBet 0) players)
  = PlayerInfo.with_currentBet 0
      <$> find (fun q => String.eqb (PlayerInfo.name q) name) players.
Proof.
  induction players as [| q rest IH]; [done |]. cbn [find map].
  change (PlayerInfo.name (PlayerInfo.with_currentBet 0 q)) with (PlayerInfo.name q).
  by destruct (String.eqb _ _).
Qed.

Lemma phaseAfter_never_same s : phaseAfter s <> PokerGameState.phase s.
Proof.
  unfold phaseAfter, Js.indexOf, phases. cbn [Js.findIndex].
  destruct (String.eqb_spec (PokerGameState.phase s) "PreFlop") as [-> | ?]; [by cbn |].
  destruct (String.eqb_spec (PokerGameState.phase s) "Flop") as [-> | ?]; [by cbn |].
  destruct (String.eqb_spec (PokerGameState.phase s) "Turn") as [-> | ?]; [by cbn |].
  destruct (String.eqb_spec (PokerGameState.phase s) "River") as [-> | ?]; [by cbn |].
  destruct (String.eqb_spec (PokerGameState.phase s) "Showdown") as [-> | ?]; [by cbn |].
  change (default "" (Js.index ["PreFlop"; "Flop"; "Turn"; "River"; "Showdown"] (-1 + 1)))
    with "PreFlop". intros Heq. match goal with H : _ <> "PreFlop" |- _ => apply H end. by rewrite <- Heq.
Qed.

(** X17.  A call from a player with chips pays what is owed to match the
    table bet, and never more than the stack: the pot grows by the smaller
    of the stack and the difference between the table bet and the player's
    bet, the stack shrinks by as much, and a player left without chips is
    all-in.  On the same street the table bet is unchanged; when the call
    closes the round the bets are reset to 0. *)
Theorem call_pays_what_is_owed action name s s' p :
  NoDup (playerNames s) ->
  actingPlayerOf name s = Some p ->
  0 < PlayerInfo.chips p ->
  (parseAction action).1 = "call" ->
  performAction action name s = Broadcast s' ->
  PokerGameState.phase s' <> "Winner" ->
  let payment :=
    Z.min (PlayerInfo.chips p)
      (Z.max 0 (PokerGameState.currentBet s - PlayerInfo.currentBet p)) in
  PokerGameState.pot s' = PokerGameState.pot s + payment
  /\ exists p',
       actingPlayerOf name s' = Some p'
       /\ PlayerInfo.chips p' = PlayerInfo.chips p - payment
       /\ PlayerInfo.status p'
          = (if PlayerInfo.chips p' =? 0 then "AllIn" else PlayerInfo.status p)
       /\ (PokerGameState.phase s' = PokerGameState.phase s ->
           PokerGameState.currentBet s' = PokerGameState.currentBet s
           /\ PlayerInfo.currentBet p' = PlayerInfo.currentBet p + payment)
       /\ (PokerGameState.phase s' <> PokerGameState.phase s ->
           PokerGameState.currentBet s' = 0 /\ PlayerInfo.currentBet p' = 0).
Proof.
  intros Hnodup Hfind Hchips Hcall Hact Hphase.
  pose proof (performAction_unique_inv _ _ _ _ _ Hnodup Hfind Hact) as Hout.
  cbn zeta in Hout. rewrite Hcall in Hout.
  assert (effectiveAction "call" p = "call") as Heff.
  { unfold effectiveAction. destruct (Z.leb_spec (PlayerInfo.chips p) 0); [lia | done]. }
  rewrite Heff in Hout.
  change (actOn "call" (parseAction action).2 (PokerGameState.currentBet s) p
            (mkEffect 0 (PokerGameState.currentBet s)))
    with (let callAmount :=
            Z.min (PlayerInfo.chips p)
              (Z.max 0 (PokerGameState.currentBet s - PlayerInfo.currentBet p)) in
          let newChips := Z.max 0 (PlayerInfo.chips p - callAmount) in
          (PlayerInfo.with_stake newChips (PlayerInfo.currentBet p + callAmount)
             (if newChips =? 0 then "AllIn" else PlayerInfo.status p) p,
           mkEffect callAmount (PokerGameState.currentBet s))) in Hout.
  cbn zeta in Hout. cbn [fst snd] in Hout.
  unfold actingPlayerOf in *. pose proof (find_name _ _ _ Hfind) as Hname.
  set (p' := PlayerInfo.with_stake _ _ _ p) in Hout.
  assert (PlayerInfo.chips p'
          = PlayerInfo.chips p
            - Z.min (PlayerInfo.chips p)
                (Z.max 0 (PokerGameState.currentBet s - PlayerInfo.currentBet p))) as Hc
    by (cbn; lia).
  assert (PlayerInfo.status p'
          = if PlayerInfo.chips p' =? 0 then "AllIn" else PlayerInfo.status p) as Hs
    by done.
  assert (PlayerInfo.currentBet p'
          = PlayerInfo.currentBet p
            + Z.min (PlayerInfo.chips p)
                (Z.max 0 (PokerGameState.currentBet s - PlayerInfo.currentBet p))) as Hb
    by done.
  assert (PlayerInfo.name p' = name) as Hn by done.
  clearbody p'.
  destruct Hout as [winner Hwin -> | Hclose Hsd Hshow | idx Hclose -> Hsd | idx Hopen Hlen ->].
  - done.
  - by destruct (showdownState_inv _ _ _ _ _ Hshow) as (? & ? & ? & _ & ->).
  - cbn [nextState PokerGameState.pot PokerGameState.players PokerGameState.phase
         PokerGameState.currentBet potIncrease].
    split; [done |]. exists (PlayerInfo.with_currentBet 0 p').
    rewrite find_reset_bets, (find_updated name _ p p' Hfind Hn).
    split; [done |]. split; [done |]. split; [done |]. split; [| done].
    intros Hsame. by apply phaseAfter_never_same in Hsame.
  - cbn [nextState PokerGameState.pot PokerGameState.players PokerGameState.phase
         PokerGameState.currentBet potIncrease newTableBet].
    split; [done |]. exists p'.
    rewrite (find_updated name _ p p' Hfind Hn).
    split; [done |]. split; [done |]. split; [done |]. split; [done |]. done.
Qed.

Lemma call_pays_what_is_owed_witness :
  let p := PlayerInfo.mk "B" "B" 990 "Active" 10 (Some "") in
  let payment :=
    Z.min (PlayerInfo.chips p)
      (Z.max 0 (PokerGameState.currentBet headsUpPreFlop - PlayerInfo.currentBet p)) in
  PokerGameState.pot headsUpFlop = PokerGameState.pot headsUpPreFlop + payment
  /\ exists p',
       actingPlayerOf "B" headsUpFlop = Some p'
       /\ PlayerInfo.chips p' = PlayerInfo.chips p - payment
       /\ PlayerInfo.status p'
          = (if PlayerInfo.chips p' =? 0 then "AllIn" else PlayerInfo.status p)
       /\ (PokerGameState.phase headsUpFlop = PokerGameState.phase headsUpPreFlop ->
           PokerGameState.currentBet headsUpFlop = PokerGameState.currentBet headsUpPreFlop
           /\ PlayerInfo.currentBet p' = PlayerInfo.currentBet p + payment)
       /\ (PokerGameState.phase headsUpFlop <> PokerGameState.phase headsUpPreFlop ->
           PokerGameState.currentBet headsUpFlop = 0 /\ PlayerInfo.currentBet p' = 0).
Proof.
  apply (call_pays_what_is_owed (Action.Named "Call") "B" headsUpPreFlop headsUpFlop
           (PlayerInfo.mk "B" "B" 990 "Active" 10 (Some ""))).
  - repeat constructor; rewrite ?elem_of_cons, ?elem_of_nil; intuition discriminate.
  - vm_compute. reflexivity.
  - cbn. lia.
  - vm_compute. reflexivity.
  - vm_compute. reflexivity.
  - vm_compute. discriminate.
Defined.

(** X18.  An all-in from a player with chips puts the whole stack in the
    pot: the stack is 0, the status AllIn, the player's bet grows by the
    stack, and the table bet rises to that bet when it is higher and is
    unchanged otherwise.  The round does not close on an all-in. *)
Theorem all_in_pays_the_stack action name s s' p :
  NoDup (playerNames s) ->
  actingPlayerOf name s = Some p ->
  0 < PlayerInfo.chips p ->
  (parseAction action).1 = "allin" ->
  performAction action name s = Broadcast s' ->
  PokerGameState.phase s' <> "Winner" ->
  PokerGameState.phase s' = PokerGameState.phase s
  /\ PokerGameState.pot s' = PokerGameState.pot s + PlayerInfo.chips p
  /\ PokerGameState.currentBet s'
     = Z.max (PokerGameState.currentBet s)
         (PlayerInfo.currentBet p + PlayerInfo.chips p)
  /\ actingPlayerOf name s'
     = Some (PlayerInfo.with_stake 0 (PlayerInfo.currentBet p + PlayerInfo.chips p)
               "AllIn" p).
Proof.
  intros Hnodup Hfind Hchips Hallin Hact Hphase.
  pose proof (performAction_unique_inv _ _ _ _ _ Hnodup Hfind Hact) as Hout.
  cbn zeta in Hout. rewrite Hallin in Hout.
  assert (effectiveAction "allin" p = "allin") as Heff.
  { unfold effectiveAction. destruct (Z.leb_spec (PlayerInfo.chips p) 0); [lia | done]. }
  rewrite Heff in Hout.
  change (actOn "allin" (parseAction action).2 (PokerGameState.currentBet s) p
            (mkEffect 0 (PokerGameState.currentBet s)))
    with (let allInAmount := Z.max 0 (PlayerInfo.chips p) in
          let newPlayerBet := PlayerInfo.currentBet p + allInAmount in
          (PlayerInfo.with_stake 0 newPlayerBet "AllIn" p,
           mkEffect allInAmount
             (if PokerGameState.currentBet s <? newPlayerBet then newPlayerBet
              else PokerGameState.currentBet s))) in Hout.
  cbn zeta in Hout. cbn [fst snd] in Hout.
  rewrite (Z.max_r 0 (PlayerInfo.chips p)) in Hout by lia.
  unfold actingPlayerOf in *. pose proof (find_name _ _ _ Hfind) as Hname.
  assert (roundCloses s "allin"
            (map (fun q => if String.eqb (PlayerInfo.name q) name
                           then PlayerInfo.with_stake 0
                                  (PlayerInfo.currentBet p + PlayerInfo.chips p) "AllIn" p
                           else q) (PokerGameState.players s))
            (if PokerGameState.currentBet s <? PlayerInfo.currentBet p + PlayerInfo.chips p
             then PlayerInfo.currentBet p + PlayerInfo.chips p
             else PokerGameState.currentBet s) = false) as Hno.
  { unfold roundCloses. change (isClosingAction "allin") with false.
    by rewrite andb_false_r. }
  destruct Hout as [winner Hwin -> | Hclose Hsd Hshow | idx Hclose -> Hsd | idx Hopen Hlen ->].
  - done.
  - cbn [newTableBet] in Hclose. congruence.
  - cbn [newTableBet] in Hclose. congruence.
  - cbn [nextState PokerGameState.pot PokerGameState.players PokerGameState.phase
         PokerGameState.currentBet potIncrease newTableBet].
    split; [done |]. split; [done |]. split.
    { destruct (Z.ltb_spec (PokerGameState.currentBet s)
                  (PlayerInfo.currentBet p + PlayerInfo.chips p)); lia. }
    by apply (find_updated name _ p).
Qed.

Lemma all_in_pays_the_stack_witness :
  let p := PlayerInfo.mk "B" "B" 20 "Active" 10 (Some "") in
  PokerGameState.phase shortStackAllIn = PokerGameState.phase shortStackPreFlop
  /\ PokerGameState.pot shortStackAllIn
     = PokerGameState.pot shortStackPreFlop + PlayerInfo.chips p
  /\ PokerGameState.currentBet shortStackAllIn
     = Z.max (PokerGameState.currentBet shortStackPreFlop)
         (PlayerInfo.currentBet p + PlayerInfo.chips p)
  /\ actingPlayerOf "B" shortStackAllIn
     = Some (PlayerInfo.with_stake 0 (PlayerInfo.currentBet p + PlayerInfo.chips p)
               "AllIn" p).
Proof.
  apply (all_in_pays_the_stack (Action.Named "AllIn") "B" shortStackPreFlop shortStackAllIn
           (PlayerInfo.mk "B" "B" 20 "Active" 10 (Some ""))).
  - repeat constructor; rewrite ?elem_of_cons, ?elem_of_nil; intuition discriminate.
  - vm_compute. reflexivity.
  - cbn. lia.
  - vm_compute. reflexivity.
  - vm_compute. reflexivity.
  - vm_compute. discriminate.
Defined.

(** ** Whose turn it is after an action *)

Lemma performAction_turn action name s actingPlayer updated e :
  find (fun p => String.eqb (PlayerInfo.name p) name) (PokerGameState.players s)
    = Some actingPlayer ->
  actionEffect action name s actingPlayer = (updated, e) ->
  length (filter (fun p => notFolded p = true) updated) <> 1%nat ->
  (roundCloses s (effectiveAction (parseAction action).1 actingPlayer) updated
     (newTableBet e) = false ->
   performAction action name s
   = Broadcast (nextState s updated (potIncrease e) (newTableBet e)
                  (nextPlayerIndexOf name updated)
                  (PokerGameState.phase s) (PokerGameState.communityCards s)))
  /\ (roundCloses s (effectiveAction (parseAction action).1 actingPlayer) updated
        (newTableBet e) = true ->
      phaseAfter s <> "Showdown" ->
      performAction action name s
      = Broadcast
          (nextState s (map (PlayerInfo.with_currentBet 0) updated) (potIncrease e) 0
             (scanFirstToAct (map (PlayerInfo.with_currentBet 0) updated)
                (PokerGameState.dealerPosition s)
                (Z.of_nat (length (map (PlayerInfo.with_currentBet 0) updated))) 1
                (length (map (PlayerInfo.with_currentBet 0) updated))
                (nextPlayerIndexOf name updated))
             (phaseAfter s)
             (revealCards (phaseAfter s) (PokerGameState.communityCards s)
                (preDealtCards s)))).
Proof.
  unfold performAction, actionEffect, nextPlayerIndexOf.
  destruct (parseAction action) as [actionStr amount]. cbn [fst].
  intros -> Hupd Hlen. rewrite Hupd.
  set (a := effectiveAction actionStr actingPlayer) in *. clearbody a.
  split; intros Hadv; rewrite Hadv.
  - cbn [andb].
    by destruct (filter (fun p => notFolded p = true) updated) as [| w [| w' rest]].
  - intros Hsd. apply String.eqb_neq in Hsd. rewrite Hsd.
    rewrite !andb_false_r. cbn [andb negb].
    by destruct (filter (fun p => notFolded p = true) updated) as [| w [| w' rest]].
Qed.

Lemma findIndex_none {A} (f : A -> bool) (l : list A) :
  (forall x, x ∈ l -> f x = false) -> Js.findIndex f l = -1.
Proof.
  induction l as [| x l IH]; intros H; [done |]. cbn [Js.findIndex].
  rewrite (H x) by by left. rewrite IH by (intros y Hy; apply H; by right). done.
Qed.

Lemma findIndex_app {A} (f : A -> bool) (l1 l2 : list A) (x : A) :
  (forall y, y ∈ l1 -> f y = false) -> f x = true ->
  Js.findIndex f (l1 ++ x :: l2) = Z.of_nat (length l1).
Proof.
  induction l1 as [| y l1 IH]; intros H Hx; cbn [app Js.findIndex length].
  - by rewrite Hx.
  - rewrite (H y) by by left. rewrite IH by (try done; intros z Hz; apply H; by right).
    destruct (Z.ltb_spec (Z.of_nat (length l1)) 0); lia.
Qed.

Lemma rem_0_l b : Z.rem 0 b = 0.
Proof. reflexivity. Qed.

Lemma seats_names s : playerNames s = map (fun x => x.1.2) (seats s).
Proof. unfold playerNames, seats. rewrite map_map. by apply map_ext. Qed.

Lemma same_street_inv action name s s' :
  handInProgress s = true ->
  performAction action name s = Broadcast s' ->
  PokerGameState.phase s' = PokerGameState.phase s ->
  PokerGameState.players s' = playersAfter action name s
  /\ PokerGameState.currentPlayerIndex s'
     = nextPlayerIndexOf name (playersAfter action name s)
  /\ PokerGameState.currentBet s' = tableBetAfter action name s.
Proof.
  intros Hhand Hact Hphase.
  destruct (performAction_inv _ _ _ _ Hact)
    as (actingPlayer & updated & e & Hfind & Heff & Hout).
  unfold playersAfter, tableBetAfter, actingPlayerOf. rewrite Hfind, Heff. cbn [fst snd].
  destruct Hout as [winner Hwin -> | Hclose Hsd Hshow | idx Hclose -> Hsd | idx Hopen Hlen ->].
  - cbn [foldWinState PokerGameState.phase] in Hphase.
    symmetry in Hphase. by apply winner_not_in_progress in Hphase.
  - destruct (showdownState_inv _ _ _ _ _ Hshow) as (? & ? & ? & _ & ->).
    cbn [PokerGameState.phase] in Hphase.
    symmetry in Hphase. by apply winner_not_in_progress in Hphase.
  - cbn [nextState PokerGameState.phase] in Hphase. by apply phaseAfter_never_same in Hphase.
  - destruct (performAction_turn _ _ _ _ _ _ Hfind Heff Hlen) as [Hturn _].
    rewrite (Hturn Hopen) in Hact. by injection Hact as <-.
Qed.

(** X19.  While a street goes on, the turn passes to the Active or AllIn
    player who follows the acting player in seat order, wrapping around;
    when the acting player is no longer among them (after a fold), it passes
    to the first Active or AllIn player in seat order, wherever the player
    who folded sat. *)
Theorem turn_passes_in_seat_order action name s s' :
  NoDup (playerNames s) ->
  handInProgress s = true ->
  performAction action name s = Broadcast s' ->
  PokerGameState.phase s' = PokerGameState.phase s ->
  let activePlayers :=
    filter (fun p => activeOrAllIn p = true) (PokerGameState.players s') in
  ((forall q, q ∈ activePlayers -> PlayerInfo.name q <> name) ->
   PokerGameState.currentPlayerIndex s' = 0
   /\ currentActor s' = head activePlayers)
  /\ (forall before actor after,
        activePlayers = (before ++ actor :: after)%list ->
        PlayerInfo.name actor = name ->
        currentActor s' = head (after ++ before ++ [actor])%list).
Proof.
  intros Hnodup Hhand Hact Hphase.
  destruct (same_street_inv _ _ _ _ Hhand Hact Hphase) as (Hplayers & Hidx & _).
  assert (NoDup (playerNames s')) as Hnodup'.
  { destruct (performAction_keeps_seats_aux _ _ _ _ Hact) as [Hseats _].
    by rewrite seats_names, Hseats, <- seats_names. }
  cbn zeta. unfold currentActor. rewrite Hidx, <- Hplayers. unfold nextPlayerIndexOf.
  set (activePlayers := filter (fun p => activeOrAllIn p = true) (PokerGameState.players s')).
  split.
  - intros Hnone.
    assert (Js.findIndex (fun p => String.eqb (PlayerInfo.name p) name) activePlayers = -1)
      as Hfind.
    { apply findIndex_none. intros q Hq. apply String.eqb_neq. by apply Hnone. }
    rewrite Hfind. change (-1 + 1) with 0. unfold Js.rem. rewrite rem_0_l.
    assert ((if (0 <? length activePlayers)%nat then 0 else 0) = 0) as ->
      by by destruct (0 <? length activePlayers)%nat.
    split; [done |]. rewrite rem_0_l. unfold Js.index. cbn.
    by destruct activePlayers.
  - intros before actor after Hsplit Hname.
    assert (forall y, y ∈ before -> String.eqb (PlayerInfo.name y) name = false) as Hbefore.
    { intros y Hy. apply String.eqb_neq. intros Heq.
      assert (NoDup (map PlayerInfo.name activePlayers)) as Hnd.
      { unfold activePlayers. eapply sublist_NoDup; [exact Hnodup' |].
        apply (fmap_sublist PlayerInfo.name), sublist_filter. }
      rewrite Hsplit, map_app in Hnd. apply NoDup_app in Hnd as (_ & Hdisj & _).
      apply (Hdisj (PlayerInfo.name y)); [by apply list_elem_of_fmap_2 |].
      rewrite Heq, <- Hname. left. }
    rewrite Hsplit.
    rewrite (findIndex_app _ before after actor Hbefore) by by apply String.eqb_eq.
    rewrite length_app. cbn [length].
    destruct (Nat.ltb_spec 0 (length before + S (length after))) as [_ | ?]; [| lia].
    unfold Js.rem, Js.index.
    rewrite (Z.rem_mod_nonneg (Z.of_nat (length before) + 1)) by lia.
    pose proof (Z.mod_pos_bound (Z.of_nat (length before) + 1)
                  (Z.of_nat (length before + S (length after))) ltac:(lia)) as Hmod.
    rewrite Z.rem_mod_nonneg by lia.
    rewrite (Z.max_r 1) by lia. rewrite Z.mod_mod by lia.
    destruct (Z.ltb_spec ((Z.of_nat (length before) + 1)
                          mod Z.of_nat (length before + S (length after))) 0)
      as [Hneg | _]; [lia |]. clear Hmod.
    destruct after as [| next after].
    + replace (Z.of_nat (length before) + 1)
        with (Z.of_nat (length before + S (length (@nil PlayerInfo.t))))
        by (cbn [length]; lia).
      rewrite Z.mod_same by lia. cbn [app]. by destruct before.
    + rewrite Z.mod_small by (cbn [length]; lia).
      replace (Z.to_nat (Z.of_nat (length before) + 1)) with (length before + 1)%nat by lia.
      rewrite lookup_app_r by lia.
      replace (length before + 1 - length before)%nat with 1%nat by lia. done.
Qed.

Lemma turn_passes_in_seat_order_witness :
  let activePlayers :=
    filter (fun p => activeOrAllIn p = true) (PokerGameState.players headsUpRaised) in
  ((forall q, q ∈ activePlayers -> PlayerInfo.name q <> "B") ->
   PokerGameState.currentPlayerIndex headsUpRaised = 0
   /\ currentActor headsUpRaised = head activePlayers)
  /\ (forall before actor after,
        activePlayers = (before ++ actor :: after)%list ->
        PlayerInfo.name actor = "B" ->
        currentActor headsUpRaised = head (after ++ before ++ [actor])%list).
Proof.
  apply (turn_passes_in_seat_order (Action.Raise 100) "B" headsUpPreFlop headsUpRaised).
  - repeat constructor; rewrite ?elem_of_cons, ?elem_of_nil; intuition discriminate.
  - reflexivity.
  - vm_compute. reflexivity.
  - reflexivity.
Defined.

(** ** The last player standing *)

Lemma filter_still_in_after_fold name p players :
  filter (fun q => notFolded q = true)
    (map (fun q => if String.eqb (PlayerInfo.name q) name
                   then PlayerInfo.with_status "Folded" p else q) players)
  = filter (fun q => notFolded q && negb (String.eqb (PlayerInfo.name q) name) = true)
      players.
Proof.
  induction players as [| q rest IH]; [done |]. cbn [map].
  rewrite !filter_cons, IH.
  destruct (String.eqb (PlayerInfo.name q) name).
  - rewrite andb_false_r. cbn [notFolded PlayerInfo.with_status PlayerInfo.status].
    by rewrite !decide_False by done.
  - rewrite andb_true_r. done.
Qed.

Lemma map_awardPot_after_fold name p winnerName totalPot players :
  NoDup (map PlayerInfo.name players) ->
  find (fun q => String.eqb (PlayerInfo.name q) name) players = Some p ->
  map (awardPot winnerName totalPot)
    (map (fun q => if String.eqb (PlayerInfo.name q) name
                   then PlayerInfo.with_status "Folded" p else q) players)
  = map (awardPot winnerName totalPot) players.
Proof.
  intros Hnodup Hfind. induction players as [| q rest IH]; [done |].
  cbn [map find] in *. apply NoDup_cons in Hnodup as [Hq Hrest].
  destruct (String.eqb_spec (PlayerInfo.name q) name) as [Heq | Hne].
  - injection Hfind as ->. f_equal.
    clear -Hq Heq. induction rest as [| r rest IH]; [done |]. cbn [map] in *.
    apply not_elem_of_cons in Hq as [Hr Hq]. rewrite IH by done. f_equal.
    destruct (String.eqb_spec (PlayerInfo.name r) name); [congruence | done].
  - by rewrite IH.
Qed.

Lemma find_map_unique (f : PlayerInfo.t -> PlayerInfo.t) players w :
  (forall q, PlayerInfo.name (f q) = PlayerInfo.name q) ->
  NoDup (map PlayerInfo.name players) ->
  w ∈ players ->
  find (fun q => String.eqb (PlayerInfo.name q) (PlayerInfo.name w)) (map f players)
  = Some (f w).
Proof.
  intros Hf Hnodup Hin. induction players as [| q rest IH]; [by apply elem_of_nil in Hin |].
  cbn [map find] in *. apply NoDup_cons in Hnodup as [Hq Hrest]. rewrite Hf.
  apply elem_of_cons in Hin as [-> | Hin]; [by rewrite String.eqb_refl |].
  destruct (String.eqb_spec (PlayerInfo.name q) (PlayerInfo.name w)) as [Heq | _];
    [| by apply IH].
  exfalso. apply Hq. rewrite Heq. by apply list_elem_of_fmap_2.
Qed.

(** X20.  When a player folds and exactly one other player has not folded,
    that player wins at once: the phase is Winner, the whole pot goes to
    that player's stack, every other stack is as it was, all bets and the
    pot are reset to 0 and the board stays as it is. *)
Theorem last_player_standing_wins_the_pot action name s p w :
  NoDup (playerNames s) ->
  actingPlayerOf name s = Some p ->
  appliedAction action name s = "fold" ->
  filter (fun q => notFolded q && negb (String.eqb (PlayerInfo.name q) name) = true)
    (PokerGameState.players s) = [w] ->
  exists s',
    performAction action name s = Broadcast s'
    /\ PokerGameState.phase s' = "Winner"
    /\ PokerGameState.winner s'
       = Some (Winner.mk (PlayerInfo.name w) (PokerGameState.pot s) "fold" None)
    /\ PokerGameState.pot s' = 0
    /\ PokerGameState.currentBet s' = 0
    /\ PokerGameState.communityCards s' = PokerGameState.communityCards s
    /\ PokerGameState.players s'
       = map (awardPot (PlayerInfo.name w) (PokerGameState.pot s))
           (PokerGameState.players s)
    /\ actingPlayerOf (PlayerInfo.name w) s'
       = Some (PlayerInfo.with_stake (PlayerInfo.chips w + PokerGameState.pot s) 0
                 "Active" w)
    /\ stacks s'
       = map (fun q => (PlayerInfo.name q,
                        if String.eqb (PlayerInfo.name q) (PlayerInfo.name w)
                        then PlayerInfo.chips q + PokerGameState.pot s
                        else PlayerInfo.chips q,
                        0))
           (PokerGameState.players s).
Proof.
  unfold appliedAction, actingPlayerOf. intros Hnodup Hfind. rewrite Hfind.
  intros Hfold Hlast.
  assert (w ∈ PokerGameState.players s) as Hw.
  { assert (w ∈ [w]) as H by by left. rewrite <- Hlast in H.
    by apply list_elem_of_filter in H as [_ ?]. }
  unfold performAction. destruct (parseAction action) as [actionStr amount].
  cbn [fst] in Hfold. rewrite Hfind, Hfold.
  rewrite (updatePlayers_unique _ _ _ _ _ _ p Hnodup Hfind).
  change (actOn "fold" amount (PokerGameState.currentBet s) p
            (mkEffect 0 (PokerGameState.currentBet s)))
    with (PlayerInfo.with_status "Folded" p, mkEffect 0 (PokerGameState.currentBet s)).
  cbn [fst snd potIncrease newTableBet].
  rewrite filter_still_in_after_fold, Hlast.
  eexists. split; [reflexivity |]. unfold stacks, actingPlayerOf.
  cbn [foldWinState PokerGameState.phase PokerGameState.winner PokerGameState.pot
       PokerGameState.currentBet PokerGameState.communityCards PokerGameState.players].
  rewrite Z.add_0_r, (map_awardPot_after_fold _ _ _ _ _ Hnodup Hfind).
  split; [done |]. split; [done |]. split; [done |]. split; [done |]. split; [done |].
  split; [done |]. split.
  - rewrite (find_map_unique _ _ w); [| | done | done].
    + unfold awardPot. by rewrite String.eqb_refl.
    + intros q. unfold awardPot. by destruct (String.eqb _ _).
  - rewrite map_map. apply map_ext.
    intros q. unfold awardPot. by destruct (String.eqb _ _).
Qed.

Lemma last_player_standing_wins_the_pot_witness :
  exists s',
    performAction (Action.Named "Fold") "A" headsUpRaised = Broadcast s'
    /\ PokerGameState.phase s' = "Winner"
    /\ PokerGameState.winner s'
       = Some (Winner.mk (PlayerInfo.name (PlayerInfo.mk "B" "B" 880 "Active" 120 (Some "")))
                 (PokerGameState.pot headsUpRaised) "fold" None)
    /\ PokerGameState.pot s' = 0
    /\ PokerGameState.currentBet s' = 0
    /\ PokerGameState.communityCards s' = PokerGameState.communityCards headsUpRaised
    /\ PokerGameState.players s'
       = map (awardPot (PlayerInfo.name (PlayerInfo.mk "B" "B" 880 "Active" 120 (Some "")))
                (PokerGameState.pot headsUpRaised))
           (PokerGameState.players headsUpRaised)
    /\ actingPlayerOf (PlayerInfo.name (PlayerInfo.mk "B" "B" 880 "Active" 120 (Some ""))) s'
       = Some (PlayerInfo.with_stake
                 (PlayerInfo.chips (PlayerInfo.mk "B" "B" 880 "Active" 120 (Some ""))
                  + PokerGameState.pot headsUpRaised) 0
                 "Active" (PlayerInfo.mk "B" "B" 880 "Active" 120 (Some "")))
    /\ stacks s'
       = map (fun q => (PlayerInfo.name q,
                        if String.eqb (PlayerInfo.name q)
                             (PlayerInfo.name
                                (PlayerInfo.mk "B" "B" 880 "Active" 120 (Some "")))
                        then PlayerInfo.chips q + PokerGameState.pot headsUpRaised
                        else PlayerInfo.chips q,
                        0))
           (PokerGameState.players headsUpRaised).
Proof.
  apply (last_player_standing_wins_the_pot (Action.Named "Fold") "A" headsUpRaised
           (PlayerInfo.mk "A" "A" 980 "Active" 20 (Some ""))
           (PlayerInfo.mk "B" "B" 880 "Active" 120 (Some ""))).
  - repeat constructor; rewrite ?elem_of_cons, ?elem_of_nil; intuition discriminate.
  - vm_compute. reflexivity.
  - vm_compute. reflexivity.
  - vm_compute. reflexivity.
Defined.

(** ** Who acts first on a new street *)

Lemma scanFirstToAct_spec finalPlayers dealerPos numPlayers i n fallback :
  (exists k,
      i <= k < i + Z.of_nat n
      /\ (exists p, Js.index finalPlayers (Js.rem (dealerPos + k) numPlayers) = Some p
                    /\ activeOrAllIn p = true)
      /\ (forall j p, i <= j < k ->
                      Js.index finalPlayers (Js.rem (dealerPos + j) numPlayers) = Some p ->
                      activeOrAllIn p = false)
      /\ scanFirstToAct finalPlayers dealerPos numPlayers i n fallback
         = Js.rem (dealerPos + k) numPlayers)
  \/ ((forall j p, i <= j < i + Z.of_nat n ->
                   Js.index finalPlayers (Js.rem (dealerPos + j) numPlayers) = Some p ->
                   activeOrAllIn p = false)
      /\ scanFirstToAct finalPlayers dealerPos numPlayers i n fallback = fallback).
Proof.
  revert i. induction n as [| n IH]; intros i.
  - right. split; [intros j p Hj; lia | done].
  - cbn [scanFirstToAct].
    destruct (Js.index finalPlayers (Js.rem (dealerPos + i) numPlayers)) as [player |] eqn:Hi.
    + destruct (activeOrAllIn player) eqn:Hactive.
      * left. exists i. split; [lia |]. split; [by exists player |].
        split; [intros j p Hj; lia | done].
      * destruct (IH (i + 1)) as [(k & Hk & Hgood & Hfirst & Hscan) | [Hnone Hscan]].
        -- left. exists k. split; [lia |]. split; [done |]. split; [| done].
           intros j p Hj Hp. destruct (Z.eq_dec j i) as [-> | Hne].
           ++ rewrite Hi in Hp. by injection Hp as <-.
           ++ apply (Hfirst j p); [lia | done].
        -- right. split; [| done]. intros j p Hj Hp.
           destruct (Z.eq_dec j i) as [-> | Hne].
           ++ rewrite Hi in Hp. by injection Hp as <-.
           ++ apply (Hnone j p); [lia | done].
    + destruct (IH (i + 1)) as [(k & Hk & Hgood & Hfirst & Hscan) | [Hnone Hscan]].
      * left. exists k. split; [lia |]. split; [done |]. split; [| done].
        intros j p Hj Hp. destruct (Z.eq_dec j i) as [-> | Hne]; [congruence |].
        apply (Hfirst j p); [lia | done].
      * right. split; [| done]. intros j p Hj Hp.
        destruct (Z.eq_dec j i) as [-> | Hne]; [congruence |].
        apply (Hnone j p); [lia | done].
Qed.

(** X21.  When an action closes a betting round and the hand goes on, the
    turn marker of the new street is the seat of the first Active or AllIn
    player after the dealer, in seat order and wrapping around. *)
Theorem new_street_starts_after_the_dealer action name s s' :
  handInProgress s = true ->
  0 <= PokerGameState.dealerPosition s ->
  performAction action name s = Broadcast s' ->
  PokerGameState.phase s' <> PokerGameState.phase s ->
  PokerGameState.phase s' <> "Winner" ->
  let numPlayers := Z.of_nat (length (PokerGameState.players s')) in
  exists k p,
    1 <= k <= numPlayers
    /\ PokerGameState.currentPlayerIndex s'
       = (PokerGameState.dealerPosition s + k) mod numPlayers
    /\ Js.index (PokerGameState.players s') (PokerGameState.currentPlayerIndex s') = Some p
    /\ activeOrAllIn p = true
    /\ forall j q,
         1 <= j < k ->
         Js.index (PokerGameState.players s')
           ((PokerGameState.dealerPosition s + j) mod numPlayers) = Some q ->
         activeOrAllIn q = false.
Proof.
  intros Hhand Hdealer Hact Hphase Hwinner.
  destruct (performAction_inv _ _ _ _ Hact)
    as (actingPlayer & updated & e & Hfind & Heff & Hout).
  destruct Hout as [winner Hwin -> | Hclose Hsd Hshow | idx Hclose Hs' Hsd | idx Hopen Hlen ->].
  - done.
  - by destruct (showdownState_inv _ _ _ _ _ Hshow) as (? & ? & ? & _ & ->).
  - clear Hs'. pose proof (roundCloses_many _ _ _ _ Hclose) as Hmany.
    pose proof (active_length_still_in updated) as Hle.
    assert (phaseAfter s <> "Showdown") as Hnsd.
    { intros H. apply Hsd in H. rewrite H in Hle. cbn [length] in Hle. lia. }
    destruct (performAction_turn _ _ _ _ _ _ Hfind Heff ltac:(lia)) as [_ Hturn].
    rewrite (Hturn Hclose Hnsd) in Hact. injection Hact as <-.
    cbn [nextState PokerGameState.players PokerGameState.currentPlayerIndex].
    set (finalPlayers := map (PlayerInfo.with_currentBet 0) updated).
    set (numPlayers := Z.of_nat (length finalPlayers)).
    (* an Active or AllIn player sits at some seat *)
    destruct (filter (fun p => activeOrAllIn p = true) updated) as [| a rest] eqn:Hactive;
      [cbn [length] in Hmany; lia |].
    assert (a ∈ updated /\ activeOrAllIn a = true) as [Ha Hastatus].
    { assert (a ∈ a :: rest) as H by by left. rewrite <- Hactive in H.
      by apply list_elem_of_filter in H as [? ?]. }
    apply list_elem_of_lookup in Ha as [t Ht].
    assert (finalPlayers !! t = Some (PlayerInfo.with_currentBet 0 a)) as Ht'.
    { unfold finalPlayers. by rewrite list_lookup_fmap, Ht. }
    pose proof (lookup_lt_Some _ _ _ Ht') as Htlt.
    assert (0 < numPlayers) as Hnum by (unfold numPlayers; lia).
    set (d := PokerGameState.dealerPosition s) in *.
    assert (forall j, 0 <= j -> Js.rem (d + j) numPlayers = (d + j) mod numPlayers) as Hrem.
    { intros j Hj. unfold Js.rem. apply Z.rem_mod_nonneg; lia. }
    destruct (scanFirstToAct_spec finalPlayers d numPlayers 1 (length finalPlayers)
                (nextPlayerIndexOf name updated))
      as [(k & Hk & (p & Hp & Hpa) & Hfirst & Hscan) | [Hnone _]].
    + exists k, p. rewrite Hscan, Hrem by lia. fold numPlayers.
      split; [lia |]. split; [done |]. rewrite <- Hrem by lia.
      split; [done |]. split; [done |].
      intros j q Hj Hq. apply (Hfirst j q); [lia |]. by rewrite Hrem by lia.
    + exfalso.
      set (k := (Z.of_nat t - d - 1) mod numPlayers + 1).
      pose proof (Z.mod_pos_bound (Z.of_nat t - d - 1) numPlayers Hnum) as Hkb.
      assert ((d + k) mod numPlayers = Z.of_nat t) as Hseat.
      { unfold k. rewrite Z.add_assoc, (Z.add_comm d), <- Z.add_assoc.
        rewrite Zplus_mod_idemp_l.
        replace (Z.of_nat t - d - 1 + (d + 1)) with (Z.of_nat t) by lia.
        apply Z.mod_small. unfold numPlayers. lia. }
      specialize (Hnone k (PlayerInfo.with_currentBet 0 a) ltac:(unfold numPlayers in *; lia)).
      rewrite Hrem, Hseat in Hnone by lia.
      unfold Js.index in Hnone. destruct (Z.ltb_spec (Z.of_nat t) 0); [lia |].
      rewrite Nat2Z.id in Hnone. specialize (Hnone Ht').
      unfold activeOrAllIn in *. cbn in Hnone. congruence.
  - done.
Qed.

Lemma new_street_starts_after_the_dealer_witness :
  let numPlayers := Z.of_nat (length (PokerGameState.players headsUpFlop)) in
  exists k p,
    1 <= k <= numPlayers
    /\ PokerGameState.currentPlayerIndex headsUpFlop
       = (PokerGameState.dealerPosition headsUpPreFlop + k) mod numPlayers
    /\ Js.index (PokerGameState.players headsUpFlop)
         (PokerGameState.currentPlayerIndex headsUpFlop) = Some p
    /\ activeOrAllIn p = true
    /\ forall j q,
         1 <= j < k ->
         Js.index (PokerGameState.players headsUpFlop)
           ((PokerGameState.dealerPosition headsUpPreFlop + j) mod numPlayers) = Some q ->
         activeOrAllIn q = false.
Proof.
  apply (new_street_starts_after_the_dealer (Action.Named "Call") "B"
           headsUpPreFlop headsUpFlop).
  - reflexivity.
  - cbn. lia.
  - vm_compute. reflexivity.
  - vm_compute. discriminate.
  - vm_compute. discriminate.
Defined.

(** ** The blinds *)

Lemma postBlinds_shift smallBlindPos bigBlindPos (idx : nat) p :
  postBlinds smallBlindPos bigBlindPos (S idx) p
  = postBlinds (smallBlindPos - 1) (bigBlindPos - 1) idx p.
Proof.
  unfold postBlinds.
  destruct (Z.eqb_spec (Z.of_nat (S idx)) smallBlindPos);
    destruct (Z.eqb_spec (Z.of_nat idx) (smallBlindPos - 1)); try lia; [done |].
  destruct (Z.eqb_spec (Z.of_nat (S idx)) bigBlindPos);
    destruct (Z.eqb_spec (Z.of_nat idx) (bigBlindPos - 1)); try lia; done.
Qed.

Lemma postBlinds_totals players smallBlindPos bigBlindPos :
  0 <= smallBlindPos < Z.of_nat (length players) ->
  0 <= bigBlindPos < Z.of_nat (length players) ->
  smallBlindPos <> bigBlindPos ->
  sumZ (map PlayerInfo.chips (imap (postBlinds smallBlindPos bigBlindPos) players))
  = sumZ (map PlayerInfo.chips players) - smallBlindAmount - bigBlindAmount
  /\ sumZ (map PlayerInfo.currentBet (imap (postBlinds smallBlindPos bigBlindPos) players))
     = smallBlindAmount + bigBlindAmount.
Proof.
  enough (forall sb bb,
            sumZ (map PlayerInfo.chips (imap (postBlinds sb bb) players))
            = sumZ (map PlayerInfo.chips players)
              - (if (0 <=? sb) && (sb <? Z.of_nat (length players)) then smallBlindAmount
                 else 0)
              - (if (0 <=? bb) && (bb <? Z.of_nat (length players)) && negb (bb =? sb)
                 then bigBlindAmount else 0)
            /\ sumZ (map PlayerInfo.currentBet (imap (postBlinds sb bb) players))
               = (if (0 <=? sb) && (sb <? Z.of_nat (length players)) then smallBlindAmount
                  else 0)
                 + (if (0 <=? bb) && (bb <? Z.of_nat (length players)) && negb (bb =? sb)
                    then bigBlindAmount else 0)) as H.
  { intros Hsb Hbb Hne. destruct (H smallBlindPos bigBlindPos) as [Hc Hb].
    rewrite Hc, Hb.
    destruct (Z.leb_spec 0 smallBlindPos); [| lia].
    destruct (Z.ltb_spec smallBlindPos (Z.of_nat (length players))); [| lia].
    destruct (Z.leb_spec 0 bigBlindPos); [| lia].
    destruct (Z.ltb_spec bigBlindPos (Z.of_nat (length players))); [| lia].
    destruct (Z.eqb_spec bigBlindPos smallBlindPos); [lia |]. cbn [andb negb]. lia. }
  induction players as [| p rest IH]; intros sb bb.
  - cbn [imap map length]. unfold sumZ. cbn [foldr].
    destruct (Z.leb_spec 0 sb); destruct (Z.ltb_spec sb (Z.of_nat 0));
      destruct (Z.leb_spec 0 bb); destruct (Z.ltb_spec bb (Z.of_nat 0));
      cbn [andb]; lia.
  - cbn [imap map]. rewrite (imap_ext _ (postBlinds (sb - 1) (bb - 1)))
      by (intros; apply postBlinds_shift).
    destruct (IH (sb - 1) (bb - 1)) as [Hc Hb].
    unfold sumZ in *. cbn [foldr length]. rewrite Hc, Hb.
    unfold postBlinds. change (Z.of_nat 0) with 0.
    unfold smallBlindAmount, bigBlindAmount.
    destruct (Z.eqb_spec 0 sb); destruct (Z.eqb_spec 0 bb);
      cbn [PlayerInfo.with_stake PlayerInfo.chips PlayerInfo.currentBet];
      repeat match goal with
             | |- context [?a <=? ?b] => destruct (Z.leb_spec a b)
             | |- context [?a <? ?b] => destruct (Z.ltb_spec a b)
             | |- context [?a =? ?b] => destruct (Z.eqb_spec a b)
             end; cbn [andb negb]; lia.
Qed.

Lemma postBlinds_seats players smallBlindPos bigBlindPos :
  map seatOf (imap (postBlinds smallBlindPos bigBlindPos) players) = map seatOf players
  /\ Forall (fun p => PlayerInfo.status p = "Active")
       (imap (postBlinds smallBlindPos bigBlindPos) players).
Proof.
  revert smallBlindPos bigBlindPos.
  induction players as [| p rest IH]; intros sb bb; [by split |].
  cbn [imap map]. rewrite (imap_ext _ (postBlinds (sb - 1) (bb - 1)))
    by (intros; apply postBlinds_shift).
  destruct (IH (sb - 1) (bb - 1)) as [Hs Ha]. rewrite Hs.
  split; [f_equal | constructor; [| done]];
    unfold postBlinds; by repeat destruct (_ =? _).
Qed.

Lemma startGame_posts_the_blinds_aux tableId s :
  (2 <= length (PokerGameState.players s))%nat ->
  0 <= PokerGameState.dealerPosition s ->
  let numPlayers := Z.of_nat (length (PokerGameState.players s)) in
  let dealer := (PokerGameState.dealerPosition s + 1) mod numPlayers in
  let smallBlindPos := if numPlayers =? 2 then dealer else (dealer + 1) mod numPlayers in
  let bigBlindPos := (smallBlindPos + 1) mod numPlayers in
  exists s',
    startGame tableId s = StartBroadcast s'
    /\ PokerGameState.phase s' = "PreFlop"
    /\ PokerGameState.handNumber s' = PokerGameState.handNumber s + 1
    /\ PokerGameState.dealerPosition s' = dealer
    /\ seats s' = seats s
    /\ Forall (fun p => PlayerInfo.status p = "Active") (PokerGameState.players s')
    /\ PokerGameState.pot s' = 30
    /\ PokerGameState.currentBet s' = 20
    /\ totalChips s' = totalChips s - 30
    /\ totalBets s' = 30
    /\ PlayerInfo.currentBet <$> Js.index (PokerGameState.players s') smallBlindPos = Some 10
    /\ PlayerInfo.currentBet <$> Js.index (PokerGameState.players s') bigBlindPos = Some 20
    /\ PokerGameState.currentPlayerIndex s'
       = if numPlayers =? 2 then smallBlindPos else (bigBlindPos + 1) mod numPlayers.
Proof.
  intros Hn Hdealer numPlayers dealer smallBlindPos bigBlindPos.
  unfold startGame.
  destruct (Nat.ltb_spec (length (PokerGameState.players s)) 2) as [| _]; [lia |].
  eexists. split; [reflexivity |].
  unfold totalChips, totalBets, seats.
  cbn [PokerGameState.phase PokerGameState.handNumber PokerGameState.dealerPosition
       PokerGameState.players PokerGameState.pot PokerGameState.currentBet
       PokerGameState.currentPlayerIndex].
  fold numPlayers.
  assert (0 < numPlayers) as Hpos by (unfold numPlayers; lia).
  assert (Js.rem (PokerGameState.dealerPosition s + 1) numPlayers = dealer) as ->.
  { unfold Js.rem. apply Z.rem_mod_nonneg; lia. }
  pose proof (Z.mod_pos_bound (PokerGameState.dealerPosition s + 1) numPlayers Hpos) as Hd.
  fold dealer in Hd.
  assert (Js.rem (dealer + 1) numPlayers = (dealer + 1) mod numPlayers) as ->.
  { unfold Js.rem. apply Z.rem_mod_nonneg; lia. }
  assert (Js.rem (dealer + 2) numPlayers = ((dealer + 1) mod numPlayers + 1) mod numPlayers)
    as ->.
  { unfold Js.rem. rewrite Z.rem_mod_nonneg by lia.
    rewrite Zplus_mod_idemp_l. f_equal. lia. }
  pose proof (Z.mod_pos_bound (dealer + 1) numPlayers Hpos) as Hd1.
  pose proof (Z.mod_pos_bound ((dealer + 1) mod numPlayers + 1) numPlayers Hpos) as Hd2.
  set (sb := if numPlayers =? 2 then dealer else (dealer + 1) mod numPlayers).
  set (bb := if numPlayers =? 2 then (dealer + 1) mod numPlayers
             else ((dealer + 1) mod numPlayers + 1) mod numPlayers).
  assert (smallBlindPos = sb) as Hsb by done.
  assert (bigBlindPos = bb) as Hbb.
  { unfold bigBlindPos, smallBlindPos, bb. by destruct (numPlayers =? 2). }
  assert (0 <= sb < numPlayers) as Hsbr by (unfold sb; destruct (numPlayers =? 2); lia).
  assert (0 <= bb < numPlayers) as Hbbr by (unfold bb; destruct (numPlayers =? 2); lia).
  assert (sb <> bb) as Hne.
  { unfold sb, bb.
    assert (forall x, 0 <= x < numPlayers -> (x + 1) mod numPlayers <> x) as Hstep.
    { intros x Hx. destruct (Z.eq_dec (x + 1) numPlayers) as [Heq | Hneq].
      - rewrite Heq, Z.mod_same by lia. lia.
      - rewrite Z.mod_small by lia. lia. }
    destruct (numPlayers =? 2).
    - intros Heq. by apply (Hstep dealer).
    - intros Heq. by apply (Hstep ((dealer + 1) mod numPlayers)). }
  destruct (postBlinds_totals (PokerGameState.players s) sb bb Hsbr Hbbr Hne) as [Hc Hb].
  destruct (postBlinds_seats (PokerGameState.players s) sb bb) as [Hs Ha].
  rewrite Hsb, Hbb.
  split; [done |]. split; [done |]. split; [done |]. split; [done |]. split; [done |].
  split; [done |]. split; [done |].
  split; [rewrite Hc; unfold smallBlindAmount, bigBlindAmount; lia |].
  split; [rewrite Hb; done |].
  assert (forall pos, 0 <= pos < numPlayers ->
            Js.index (imap (postBlinds sb bb) (PokerGameState.players s)) pos
            = postBlinds sb bb (Z.to_nat pos)
                <$> PokerGameState.players s !! Z.to_nat pos) as Hidx.
  { intros pos Hpos'. unfold Js.index. destruct (Z.ltb_spec pos 0); [lia |].
    by rewrite list_lookup_imap. }
  split; [| split].
  - rewrite Hidx by done.
    destruct (lookup_lt_is_Some_2 (PokerGameState.players s) (Z.to_nat sb)
                ltac:(unfold numPlayers in *; lia)) as [p ->].
    cbn [fmap option_fmap option_map]. unfold postBlinds.
    rewrite Z2Nat.id by lia. by rewrite Z.eqb_refl.
  - rewrite Hidx by done.
    destruct (lookup_lt_is_Some_2 (PokerGameState.players s) (Z.to_nat bb)
                ltac:(unfold numPlayers in *; lia)) as [p ->].
    cbn [fmap option_fmap option_map]. unfold postBlinds.
    rewrite Z2Nat.id by lia.
    destruct (Z.eqb_spec bb sb); [congruence |]. by rewrite Z.eqb_refl.
  - unfold sb, bb. destruct (numPlayers =? 2); [done |].
    unfold Js.rem. rewrite Z.rem_mod_nonneg by lia. done.
Qed.

(** X22.  Starting a hand at a table of two or more players rotates the
    dealer by one seat, makes every player Active, and posts the two blinds
    whatever the stacks and the previous pot are: the stacks lose 30 chips
    in total, the pot is 30 and the table bet 20.  Heads-up the dealer posts
    the small blind and acts first; otherwise the two seats after the
    dealer post the blinds and the seat after the big blind acts first. *)
Theorem startGame_posts_the_blinds tableId s :
  (2 <= length (PokerGameState.players s))%nat ->
  0 <= PokerGameState.dealerPosition s ->
  let numPlayers := Z.of_nat (length (PokerGameState.players s)) in
  let dealer := (PokerGameState.dealerPosition s + 1) mod numPlayers in
  let smallBlindPos := if numPlayers =? 2 then dealer else (dealer + 1) mod numPlayers in
  let bigBlindPos := (smallBlindPos + 1) mod numPlayers in
  exists s',
    startGame tableId s = StartBroadcast s'
    /\ PokerGameState.phase s' = "PreFlop"
    /\ PokerGameState.handNumber s' = PokerGameState.handNumber s + 1
    /\ PokerGameState.dealerPosition s' = dealer
    /\ seats s' = seats s
    /\ Forall (fun p => PlayerInfo.status p = "Active") (PokerGameState.players s')
    /\ PokerGameState.pot s' = 30
    /\ PokerGameState.currentBet s' = 20
    /\ totalChips s' = totalChips s - 30
    /\ totalBets s' = 30
    /\ PlayerInfo.currentBet <$> Js.index (PokerGameState.players s') smallBlindPos = Some 10
    /\ PlayerInfo.currentBet <$> Js.index (PokerGameState.players s') bigBlindPos = Some 20
    /\ PokerGameState.currentPlayerIndex s'
       = if numPlayers =? 2 then smallBlindPos else (bigBlindPos + 1) mod numPlayers.
Proof. apply startGame_posts_the_blinds_aux. Qed.

Lemma startGame_posts_the_blinds_witness :
  let numPlayers := Z.of_nat (length (PokerGameState.players headsUpTable)) in
  let dealer := (PokerGameState.dealerPosition headsUpTable + 1) mod numPlayers in
  let smallBlindPos := if numPlayers =? 2 then dealer else (dealer + 1) mod numPlayers in
  let bigBlindPos := (smallBlindPos + 1) mod numPlayers in
  exists s',
    startGame "table-1" headsUpTable = StartBroadcast s'
    /\ PokerGameState.phase s' = "PreFlop"
    /\ PokerGameState.handNumber s' = PokerGameState.handNumber headsUpTable + 1
    /\ PokerGameState.dealerPosition s' = dealer
    /\ seats s' = seats headsUpTable
    /\ Forall (fun p => PlayerInfo.status p = "Active") (PokerGameState.players s')
    /\ PokerGameState.pot s' = 30
    /\ PokerGameState.currentBet s' = 20
    /\ totalChips s' = totalChips headsUpTable - 30
    /\ totalBets s' = 30
    /\ PlayerInfo.currentBet <$> Js.index (PokerGameState.players s') smallBlindPos = Some 10
    /\ PlayerInfo.currentBet <$> Js.index (PokerGameState.players s') bigBlindPos = Some 20
    /\ PokerGameState.currentPlayerIndex s'
       = if numPlayers =? 2 then smallBlindPos else (bigBlindPos + 1) mod numPlayers.
Proof.
  apply (startGame_posts_the_blinds "table-1" headsUpTable).
  - cbn. lia.
  - cbn. lia.
Defined.

(** ** Taking and leaving a seat *)

Lemma existsb_name_spec name players :
  existsb (fun p => String.eqb (PlayerInfo.name p) name) players = true
  <-> name ∈ map PlayerInfo.name players.
Proof.
  rewrite existsb_exists, list_elem_of_fmap. split.
  - intros (p & Hp%list_elem_of_In & Heq%String.eqb_eq). by exists p.
  - intros (p & -> & Hp). exists p. by rewrite <- list_elem_of_In, String.eqb_refl.
Qed.

(** X23.  [joinTable] keeps a table sound: the names stay distinct and no
    more than four players are seated.  The player joins in the last seat,
    Active, with no bet and with a positive stack of at least the buy-in:
    the whole bankroll known to the Arena chain or, failing that, to the
    local storage, and 1000 chips for a player known to neither, who is
    admitted only with a buy-in of 1000.  Nothing else of the state changes,
    whatever the phase.  A player already seated is left as seated. *)
Theorem joinTable_keeps_the_table_sound chainId arenaChips localChips playerName buyIn s :
  NoDup (playerNames s) ->
  (length (PokerGameState.players s) <= 4)%nat ->
  match joinTable chainId arenaChips localChips playerName buyIn s with
  | JoinSeated => playerName ∈ playerNames s
  | JoinError _ => playerName ∉ playerNames s
  | JoinBroadcast s' =>
      (playerName ∉ playerNames s)
      /\ NoDup (playerNames s')
      /\ (length (PokerGameState.players s') <= 4)%nat
      /\ PokerGameState.playerCount s' = Z.of_nat (length (PokerGameState.players s'))
      /\ (exists chips,
            PokerGameState.players s'
            = (PokerGameState.players s ++ [seatedPlayer chainId playerName chips])%list
            /\ 0 < chips /\ buyIn <= chips
            /\ (chips
                = match arenaChips, localChips with
                  | Some a, Some l => if 0 <? a then a else if 0 <? l then l else 1000
                  | Some a, None => if 0 <? a then a else 1000
                  | None, Some l => if 0 <? l then l else 1000
                  | None, None => 1000
                  end))
      /\ PokerGameState.phase s' = PokerGameState.phase s
      /\ PokerGameState.pot s' = PokerGameState.pot s
      /\ PokerGameState.dealtCards s' = PokerGameState.dealtCards s
  end.
Proof.
  intros Hnodup Hlen. unfold joinTable.
  destruct (existsb _ _) eqn:Hseated.
  { by apply existsb_name_spec. }
  assert (playerName ∉ playerNames s) as Hnot.
  { intros H. apply existsb_name_spec in H. congruence. }
  destruct (Nat.leb_spec 4 (length (PokerGameState.players s))) as [Hfull | Hroom]; [done |].
  assert (forall chips,
            0 < chips -> buyIn <= chips ->
            chips = match arenaChips, localChips with
                    | Some a, Some l => if 0 <? a then a else if 0 <? l then l else 1000
                    | Some a, None => if 0 <? a then a else 1000
                    | None, Some l => if 0 <? l then l else 1000
                    | None, None => 1000
                    end ->
            let s' := seatPlayer (seatedPlayer chainId playerName chips) s in
            (playerName ∉ playerNames s)
            /\ NoDup (playerNames s')
            /\ (length (PokerGameState.players s') <= 4)%nat
            /\ PokerGameState.playerCount s' = Z.of_nat (length (PokerGameState.players s'))
            /\ (exists chips',
                  PokerGameState.players s'
                  = (PokerGameState.players s ++ [seatedPlayer chainId playerName chips'])%list
                  /\ 0 < chips' /\ buyIn <= chips'
                  /\ (chips'
                      = match arenaChips, localChips with
                        | Some a, Some l => if 0 <? a then a else if 0 <? l then l else 1000
                        | Some a, None => if 0 <? a then a else 1000
                        | None, Some l => if 0 <? l then l else 1000
                        | None, None => 1000
                        end))
            /\ PokerGameState.phase s' = PokerGameState.phase s
            /\ PokerGameState.pot s' = PokerGameState.pot s
            /\ PokerGameState.dealtCards s' = PokerGameState.dealtCards s) as Hseat.
  { intros chips Hpos Hbuy Hchips. cbn zeta. unfold playerNames.
    cbn [seatPlayer PokerGameState.players PokerGameState.playerCount
         PokerGameState.phase PokerGameState.pot PokerGameState.dealtCards].
    split; [done |]. split.
    { rewrite map_app. apply NoDup_app. split; [done |]. split.
      - intros x Hx [-> | []%elem_of_nil]%elem_of_cons. by apply Hnot.
      - cbn. apply NoDup_singleton. }
    rewrite length_app. cbn [length].
    split; [lia |]. split; [lia |]. split; [by exists chips |]. done. }
  destruct arenaChips as [a |], localChips as [l |];
    repeat match goal with
           | |- context [0 <? ?x] => destruct (Z.ltb_spec 0 x)
           end;
    cbn [negb];
    unfold ROOKIE_LOUNGE_BUYIN, NEW_PLAYER_BONUS;
    repeat match goal with
           | |- context [?x =? ?y] => destruct (Z.eqb_spec x y)
           | |- context [?x <? ?y] => destruct (Z.ltb_spec x y)
           end;
    cbn [negb]; try done;
    apply Hseat; try lia;
    repeat match goal with
           | |- context [0 <? ?x] => destruct (Z.ltb_spec 0 x)
           end; lia.
Qed.

Lemma joinTable_keeps_the_table_sound_witness :
  match joinTable None None None "B" 1000
          (seatPlayer (newPlayer "A" 1000) (getDefaultState "table-1")) with
  | JoinSeated =>
      "B" ∈ playerNames (seatPlayer (newPlayer "A" 1000) (getDefaultState "table-1"))
  | JoinError _ =>
      "B" ∉ playerNames (seatPlayer (newPlayer "A" 1000) (getDefaultState "table-1"))
  | JoinBroadcast s' =>
      ("B" ∉ playerNames (seatPlayer (newPlayer "A" 1000) (getDefaultState "table-1")))
      /\ NoDup (playerNames s')
      /\ (length (PokerGameState.players s') <= 4)%nat
      /\ PokerGameState.playerCount s' = Z.of_nat (length (PokerGameState.players s'))
      /\ (exists chips,
            PokerGameState.players s'
            = (PokerGameState.players
                 (seatPlayer (newPlayer "A" 1000) (getDefaultState "table-1"))
               ++ [seatedPlayer None "B" chips])%list
            /\ 0 < chips /\ 1000 <= chips
            /\ (chips = 1000))
      /\ PokerGameState.phase s'
         = PokerGameState.phase (seatPlayer (newPlayer "A" 1000) (getDefaultState "table-1"))
      /\ PokerGameState.pot s'
         = PokerGameState.pot (seatPlayer (newPlayer "A" 1000) (getDefaultState "table-1"))
      /\ PokerGameState.dealtCards s'
         = PokerGameState.dealtCards
             (seatPlayer (newPlayer "A" 1000) (getDefaultState "table-1"))
  end.
Proof.
  apply (joinTable_keeps_the_table_sound None None None "B" 1000
           (seatPlayer (newPlayer "A" 1000) (getDefaultState "table-1"))).
  - repeat constructor; rewrite ?elem_of_cons, ?elem_of_nil; intuition discriminate.
  - cbn. lia.
Defined.

Lemma find_none_absent name players :
  (forall p, p ∈ players -> PlayerInfo.name p <> name) ->
  find (fun p => String.eqb (PlayerInfo.name p) name) players = None.
Proof.
  induction players as [| q rest IH]; intros H; [done |]. cbn [find].
  destruct (String.eqb_spec (PlayerInfo.name q) name) as [Heq | _].
  - exfalso. by apply (H q); [left |].
  - apply IH. intros p Hp. apply H. by right.
Qed.

Lemma filter_name_absent name players :
  name ∉ map PlayerInfo.name players ->
  filter (fun p => String.eqb (PlayerInfo.name p) name = false) players = players.
Proof.
  induction players as [| q rest IH]; intros H; [done |]. cbn [map] in H.
  apply not_elem_of_cons in H as [Hq Hrest]. rewrite filter_cons.
  destruct (String.eqb_spec (PlayerInfo.name q) name) as [Heq | _]; [congruence |].
  rewrite decide_True by done. by rewrite IH.
Qed.

(** X24.  [leaveTable] removes every player of that name and keeps the
    others in their order; the pot, the phase and the cards are left as they
    are, and the player count goes down by one (not below 0) whether or not
    the name was seated.  An action in the name of the player who left is
    ignored.  Leaving right after [joinTable] has seated the player gives
    back the players and the player count of before. *)
Theorem leaveTable_removes_the_player name s :
  (forall p, p ∈ PokerGameState.players (leaveTable name s)
             <-> p ∈ PokerGameState.players s /\ PlayerInfo.name p <> name)
  /\ PokerGameState.players (leaveTable name s)
       `sublist_of` PokerGameState.players s
  /\ PokerGameState.playerCount (leaveTable name s)
     = Z.max 0 (PokerGameState.playerCount s - 1)
  /\ PokerGameState.pot (leaveTable name s) = PokerGameState.pot s
  /\ PokerGameState.phase (leaveTable name s) = PokerGameState.phase s
  /\ PokerGameState.dealtCards (leaveTable name s) = PokerGameState.dealtCards s
  /\ (forall action, performAction action name (leaveTable name s) = Ignored)
  /\ (forall chainId arenaChips localChips buyIn s',
        joinTable chainId arenaChips localChips name buyIn s = JoinBroadcast s' ->
        PokerGameState.players (leaveTable name s') = PokerGameState.players s
        /\ PokerGameState.playerCount (leaveTable name s')
           = Z.of_nat (length (PokerGameState.players s))).
Proof.
  assert (forall p, p ∈ PokerGameState.players (leaveTable name s)
                    <-> p ∈ PokerGameState.players s /\ PlayerInfo.name p <> name) as Hin.
  { intros p. cbn [leaveTable PokerGameState.players].
    rewrite list_elem_of_filter, String.eqb_neq. tauto. }
  split; [exact Hin |]. split; [apply sublist_filter |].
  split; [done |]. split; [done |]. split; [done |]. split; [done |]. split.
  - intros action. unfold performAction. destruct (parseAction action) as [actionStr amount].
    rewrite find_none_absent; [done |]. intros p Hp. by apply Hin in Hp as [_ ?].
  - intros chainId arenaChips localChips buyIn s'. unfold joinTable.
    destruct (existsb _ _) eqn:Hseated; [done |].
    assert (name ∉ map PlayerInfo.name (PokerGameState.players s)) as Hnot.
    { intros H. apply existsb_name_spec in H. congruence. }
    destruct (4 <=? _)%nat; [done |].
    assert (forall chips,
              PokerGameState.players
                (leaveTable name (seatPlayer (seatedPlayer chainId name chips) s))
              = PokerGameState.players s
              /\ PokerGameState.playerCount
                   (leaveTable name (seatPlayer (seatedPlayer chainId name chips) s))
                 = Z.of_nat (length (PokerGameState.players s))) as Hleave.
    { intros chips. cbn [leaveTable seatPlayer PokerGameState.players
                         PokerGameState.playerCount].
      split; [| lia]. rewrite filter_app, filter_name_absent by done.
      rewrite filter_cons. cbn [seatedPlayer PlayerInfo.name].
      rewrite String.eqb_refl, decide_False by done. by rewrite filter_nil, app_nil_r. }
    destruct (match arenaChips with Some _ => _ | None => _ end) as [chips []];
      cbn [negb].
    + destruct (_ <? _); [done |]. intros [= <-]. apply Hleave.
    + destruct (negb _); [done |]. intros [= <-]. apply Hleave.
Qed.

(** ** A state received from the server *)

(** X25.  The validation of a received state never lets through a state in
    an active phase with fewer than two players: such a state is reset to
    Waiting with no pot, no bets and no cards, the players keeping their
    seats and stacks (the chips of the dropped pot are not returned).  A
    state that is already valid is passed unchanged, so validating twice
    changes nothing more. *)
Theorem validateReceivedState_is_valid receivedState :
  let valid := validateReceivedState receivedState in
  (Js.includes activePhases (PokerGameState.phase valid) = true ->
   (2 <= length (PokerGameState.players valid))%nat)
  /\ validateReceivedState valid = valid
  /\ seats valid = seats receivedState
  /\ map PlayerInfo.chips (PokerGameState.players valid)
     = map PlayerInfo.chips (PokerGameState.players receivedState)
  /\ (valid = receivedState
      \/ Js.includes activePhases (PokerGameState.phase receivedState) = true
         /\ (length (PokerGameState.players receivedState) < 2)%nat
         /\ PokerGameState.phase valid = "Waiting"
         /\ PokerGameState.pot valid = 0
         /\ PokerGameState.currentBet valid = 0
         /\ totalBets valid = 0
         /\ PokerGameState.communityCards valid = []
         /\ PokerGameState.dealtCards valid = None
         /\ PokerGameState.winner valid = None
         /\ Forall (fun p => PlayerInfo.status p = "Active") (PokerGameState.players valid)).
Proof.
  cbn zeta.
  destruct (Js.includes activePhases (PokerGameState.phase receivedState)
            && (Z.of_nat (length (PokerGameState.players receivedState)) <? 2))
    eqn:Hreset.
  - apply andb_true_iff in Hreset as [Hphase Hfew]. apply Z.ltb_lt in Hfew.
    assert (validateReceivedState receivedState
            = {| PokerGameState.tableId := PokerGameState.tableId receivedState;
                 PokerGameState.tableName := PokerGameState.tableName receivedState;
                 PokerGameState.players :=
                   map (fun p => PlayerInfo.with_stake (PlayerInfo.chips p) 0 "Active" p)
                     (PokerGameState.players receivedState);
                 PokerGameState.pot := 0;
                 PokerGameState.communityCards := [];
                 PokerGameState.phase := "Waiting";
                 PokerGameState.currentBet := 0;
                 PokerGameState.dealerPosition := PokerGameState.dealerPosition receivedState;
                 PokerGameState.currentPlayerIndex :=
                   PokerGameState.currentPlayerIndex receivedState;
                 PokerGameState.playerCount := PokerGameState.playerCount receivedState;
                 PokerGameState.handNumber := PokerGameState.handNumber receivedState;
                 PokerGameState.handSeed := PokerGameState.handSeed receivedState;
                 PokerGameState.dealtCards := None;
                 PokerGameState.winner := None;
                 PokerGameState.showdownCards :=
                   PokerGameState.showdownCards receivedState |}) as ->.
    { unfold validateReceivedState. rewrite Hphase. cbn [andb].
      by destruct (Z.ltb_spec (Z.of_nat (length (PokerGameState.players receivedState))) 2);
        [| lia]. }
    split; [done |]. split; [done |]. unfold seats, totalBets.
    cbn [PokerGameState.players PokerGameState.phase PokerGameState.pot
         PokerGameState.currentBet PokerGameState.communityCards
         PokerGameState.dealtCards PokerGameState.winner].
    rewrite !map_map.
    split; [by apply map_ext |]. split; [by apply map_ext |]. right.
    split; [done |]. split; [lia |]. split; [done |]. split; [done |]. split; [done |].
    split.
    { clear. unfold sumZ.
      induction (PokerGameState.players receivedState) as [| p l IH]; [done |].
      cbn [map foldr PlayerInfo.with_stake PlayerInfo.currentBet] in *. lia. }
    split; [done |]. split; [done |]. split; [done |].
    apply Forall_fmap, Forall_forall. by intros p _.
  - assert (validateReceivedState receivedState = receivedState) as Hsame.
    { unfold validateReceivedState. by rewrite Hreset. }
    rewrite !Hsame. split.
    { intros Hphase. rewrite Hphase in Hreset. cbn [andb] in Hreset.
      apply Z.ltb_ge in Hreset. lia. }
    split; [done |]. split; [done |]. split; [done |]. by left.
Qed.

(** ** After a win *)

(** X26.  Five seconds after a win the table is made ready for the next hand
    when more than one player has chips: the board and the winner are
    cleared, the bets are 0, the stacks are untouched and a player without
    chips is marked Out.  [startGame] does not look at that mark: the hand
    it starts from this state makes every player Active again and posts the
    blinds.  When at most one player has chips the game is over and, five
    seconds later, the table is emptied and waits for players. *)
Theorem table_after_a_win tableId winState :
  ((1 < length (filter (fun p => (0 < PlayerInfo.chips p)%Z)
                  (PokerGameState.players winState)))%nat ->
   0 <= PokerGameState.dealerPosition winState ->
   exists ready s',
     winFollowUps winState = [ready]
     /\ PokerGameState.phase ready = "ReadyForNextHand"
     /\ PokerGameState.winner ready = None
     /\ PokerGameState.communityCards ready = []
     /\ seats ready = seats winState
     /\ map PlayerInfo.chips (PokerGameState.players ready)
        = map PlayerInfo.chips (PokerGameState.players winState)
     /\ totalBets ready = 0
     /\ Forall (fun p => PlayerInfo.status p
                         = if 0 <? PlayerInfo.chips p then "Active" else "Out")
          (PokerGameState.players ready)
     /\ startGame tableId ready = StartBroadcast s'
     /\ Forall (fun p => PlayerInfo.status p = "Active") (PokerGameState.players s')
     /\ totalChips s' = totalChips winState - 30)
  /\ ((length (filter (fun p => (0 < PlayerInfo.chips p)%Z)
                 (PokerGameState.players winState)) <= 1)%nat ->
      exists gameOver waiting,
        winFollowUps winState = [gameOver; waiting]
        /\ PokerGameState.phase gameOver = "GameOver"
        /\ PokerGameState.players gameOver = PokerGameState.players winState
        /\ PokerGameState.winner gameOver = PokerGameState.winner winState
        /\ PokerGameState.communityCards gameOver = []
        /\ PokerGameState.phase waiting = "Waiting"
        /\ PokerGameState.players waiting = []
        /\ PokerGameState.playerCount waiting = 0
        /\ PokerGameState.winner waiting = None).
Proof.
  split.
  - intros Hchips Hdealer. unfold winFollowUps.
    destruct (Nat.ltb_spec 1 (length (filter (fun p => (0 < PlayerInfo.chips p)%Z)
                                        (PokerGameState.players winState))));
      [| lia].
    assert (length (filter (fun p => (0 < PlayerInfo.chips p)%Z)
                      (PokerGameState.players winState))
            <= length (PokerGameState.players winState))%nat as Hlen
      by apply length_filter.
    assert (map PlayerInfo.chips (PokerGameState.players (nextHandState winState))
            = map PlayerInfo.chips (PokerGameState.players winState)) as Hsame.
    { cbn [nextHandState PokerGameState.players]. rewrite map_map. by apply map_ext. }
    destruct (startGame_posts_the_blinds_aux tableId (nextHandState winState))
      as (s' & Hstart & _ & _ & _ & _ & Hactive & _ & _ & Htotal & _).
    { cbn [nextHandState PokerGameState.players]. rewrite length_map. lia. }
    { done. }
    exists (nextHandState winState), s'.
    split; [done |]. split; [done |]. split; [done |]. split; [done |].
    split.
    { unfold seats. cbn [nextHandState PokerGameState.players]. rewrite map_map.
      by apply map_ext. }
    split; [done |]. split.
    { unfold totalBets, sumZ. cbn [nextHandState PokerGameState.players].
      clear. induction (PokerGameState.players winState) as [| p l IH]; [done |].
      cbn [map foldr PlayerInfo.with_stake PlayerInfo.currentBet] in *. lia. }
    split.
    { cbn [nextHandState PokerGameState.players]. apply Forall_fmap, Forall_forall.
      by intros p _. }
    split; [done |]. split; [done |].
    rewrite Htotal. unfold totalChips. by rewrite Hsame.
  - intros Hchips. unfold winFollowUps.
    destruct (Nat.ltb_spec 1 (length (filter (fun p => (0 < PlayerInfo.chips p)%Z)
                                        (PokerGameState.players winState))));
      [lia |].
    eexists _, _. split; [reflexivity |].
    cbn [gameOverState resetState PokerGameState.phase PokerGameState.players
         PokerGameState.winner PokerGameState.communityCards PokerGameState.playerCount].
    split; [done |]. split; [done |]. split.
    { destruct (PokerGameState.winner winState) as [[n a r h] |]; done. }
    done.
Qed.

(** ** The synchronisation server *)


Lemma pushChat_bound chatHistory chatMsg :
  (length chatHistory <= 50)%nat ->
  (length (Server.pushChat chatHistory chatMsg) <= 50)%nat
  /\ Server.pushChat chatHistory chatMsg
     = drop (length chatHistory + 1 - 50) (chatHistory ++ [chatMsg])%list
  /\ last (Server.pushChat chatHistory chatMsg) = Some chatMsg.
Proof.
  intros Hlen. unfold Server.pushChat. rewrite length_app. cbn [length].
  destruct (Nat.ltb_spec 50 (length chatHistory + 1)) as [Hfull | Hroom].
  - assert (length chatHistory = 50%nat) as H50 by lia.
    rewrite H50. change (50 + 1 - 50)%nat with 1%nat.
    destruct chatHistory as [| m rest]; [done |]. cbn [app tail drop].
    rewrite drop_0, length_app. cbn [length] in *.
    split; [lia |]. split; [done |].
    destruct rest; [cbn in H50; lia |]. by rewrite last_snoc.
  - replace (length chatHistory + 1 - 50)%nat with 0%nat by lia.
    rewrite drop_0, length_app. cbn [length]. split; [lia |]. split; [done |].
    by rewrite last_snoc.
Qed.

Lemma onMessage_chat_bounded env srv ws msg :
  (forall room history, Server.roomChats srv !! room = Some history ->
                        (length history <= 50)%nat) ->
  forall room history,
    Server.roomChats (Server.onMessage env srv ws msg).1 !! room = Some history ->
    (length history <= 50)%nat.
Proof.
  intros Hinv room history.
  destruct msg as [| r | r st | r | r | r pn m ty | r];
    cbn [Server.onMessage fst Server.roomChats]; try apply Hinv.
  destruct (decide (room = r)) as [-> | Hne].
  - rewrite lookup_insert_eq. intros [= <-]. apply pushChat_bound.
    destruct (Server.roomChats srv !! r) as [old |] eqn:Hold; cbn [default].
    + by apply (Hinv r).
    + cbn. lia.
  - rewrite lookup_insert_ne by done. apply Hinv.
Qed.

(** X28.  The server keeps the last fifty chat messages of a room: whatever
    messages it has handled since it started, no history is longer than 50,
    and a chat message is appended to the history of its room, the oldest
    message being dropped when there are more than 50; the history request
    that follows is answered with that list, and the message goes to the
    open clients that joined the room. *)
Theorem server_keeps_the_last_fifty_chat_messages inbox :
  let srv := (Server.run Server.empty inbox).1 in
  (forall room history, Server.roomChats srv !! room = Some history ->
                        (length history <= 50)%nat)
  /\ (forall env ws client roomId playerName message msgType,
        let old := default [] (Server.roomChats srv !! roomId) in
        let handled :=
          Server.onMessage env srv ws
            (Server.CHAT_MESSAGE roomId playerName message msgType) in
        exists chatMsg,
          Server.playerName chatMsg = playerName
          /\ Server.message chatMsg = message
          /\ Server.timestamp chatMsg = Server.now env
          /\ Server.roomChats handled.1 !! roomId
             = Some (drop (length old + 1 - 50) (old ++ [chatMsg]))%list
          /\ (Server.onMessage env handled.1 client (Server.GET_CHAT_HISTORY roomId)).2
             = [(client,
                 Server.CHAT_HISTORY (drop (length old + 1 - 50) (old ++ [chatMsg]))%list)]
          /\ handled.2
             = map (fun member => (member, Server.CHAT chatMsg))
                 (filter (fun member => Server.isOpen srv member = true)
                    (default [] (Server.roomClients srv !! roomId)))).
Proof.
  cbn zeta.
  assert (forall srv0,
            (forall room history, Server.roomChats srv0 !! room = Some history ->
                                  (length history <= 50)%nat) ->
            forall room history,
              Server.roomChats (Server.run srv0 inbox).1 !! room = Some history ->
              (length history <= 50)%nat) as Hrun.
  { induction inbox as [| [[env ws] msg] rest IH]; intros srv0 Hinv; [done |].
    cbn [Server.run].
    pose proof (onMessage_chat_bounded env srv0 ws msg Hinv) as Hstep.
    destruct (Server.onMessage env srv0 ws msg) as [srv1 sent]. cbn [fst] in Hstep.
    specialize (IH srv1 Hstep).
    destruct (Server.run srv1 rest) as [srv2 sent']. done. }
  assert (forall room history,
            Server.roomChats (Server.run Server.empty inbox).1 !! room = Some history ->
            (length history <= 50)%nat) as Hinv.
  { apply Hrun. intros room history. cbn. by rewrite lookup_empty. }
  split; [exact Hinv |].
  intros env ws client roomId playerName message msgType.
  set (srv := (Server.run Server.empty inbox).1) in *.
  cbn [Server.onMessage fst snd Server.roomChats].
  exists (Server.mkChatMsg
            (Js.numberToString (Server.idTime env) ++ "-" ++ Server.random env)
            playerName message (Server.now env)
            match msgType with
            | Some t => if String.eqb t "" then "chat" else t
            | None => "chat"
            end).
  split; [reflexivity |]. split; [reflexivity |]. split; [reflexivity |].
  rewrite lookup_insert_eq. cbn [default].
  assert (length (default [] (Server.roomChats srv !! roomId)) <= 50)%nat as Hold.
  { destruct (Server.roomChats srv !! roomId) as [old |] eqn:Hold; cbn [default].
    - by apply (Hinv roomId).
    - cbn. lia. }
  destruct (pushChat_bound (default [] (Server.roomChats srv !! roomId))
              (Server.mkChatMsg
                 (Js.numberToString (Server.idTime env) ++ "-" ++ Server.random env)
                 playerName message (Server.now env)
                 match msgType with
                 | Some t => if String.eqb t "" then "chat" else t
                 | None => "chat"
                 end) Hold) as (_ & -> & _).
  split; [done |]. split; [done |].
  unfold Server.sendToOpen. by destruct (Server.roomClients srv !! roomId).
Qed.


(** ** The leaderboard sent with a state *)

Lemma leaderboard_set_keys key value m :
  map fst (Leaderboard.set key value m)
  = if bool_decide (key ∈ map fst m) then map fst m else (map fst m ++ [key])%list.
Proof.
  induction m as [| [k v] rest IH]; [done |]. cbn [Leaderboard.set map fst].
  destruct (String.eqb_spec k key) as [-> | Hne].
  - rewrite bool_decide_true by by left. done.
  - cbn [map fst]. rewrite IH.
    destruct (bool_decide_reflect (key ∈ map fst rest)) as [Hin | Hnot].
    + rewrite bool_decide_true by by right. done.
    + rewrite bool_decide_false; [done |].
      intros [? | ?]%elem_of_cons; [congruence | done].
Qed.

Lemma leaderboard_set_NoDup key value m :
  NoDup (map fst m) -> NoDup (map fst (Leaderboard.set key value m)).
Proof.
  intros Hnodup. rewrite leaderboard_set_keys.
  destruct (bool_decide_reflect (key ∈ map fst m)); [done |].
  apply NoDup_app. split; [done |]. split; [| apply NoDup_singleton].
  intros x Hx [-> | []%elem_of_nil]%elem_of_cons. done.
Qed.

Lemma leaderboard_set_lookup key value m k v :
  (k, v) ∈ Leaderboard.set key value m ->
  NoDup (map fst m) ->
  (k = key /\ v = value) \/ (k <> key /\ (k, v) ∈ m).
Proof.
  induction m as [| [k' v'] rest IH]; cbn [Leaderboard.set map fst].
  - intros [[= -> ->] | []%elem_of_nil]%elem_of_cons _. by left.
  - intros Hin [Hk' Hrest]%NoDup_cons.
    destruct (String.eqb_spec k' key) as [-> | Hne].
    + apply elem_of_cons in Hin as [[= -> ->] | Hin]; [by left |].
      right. split; [| by right]. intros ->. apply Hk'.
      by apply (list_elem_of_fmap_2 fst) in Hin.
    + apply elem_of_cons in Hin as [[= -> ->] | Hin]; [right; split; [done | by left] |].
      destruct (IH Hin Hrest) as [? | [? ?]]; [by left |]. right. split; [done | by right].
Qed.

Lemma leaderboard_set_present key value m :
  (key, value) ∈ Leaderboard.set key value m.
Proof.
  induction m as [| [k v] rest IH]; cbn [Leaderboard.set]; [by left |].
  destruct (String.eqb_spec k key) as [-> | _]; [by left | by right].
Qed.

Lemma leaderboard_set_other key value m k v :
  k <> key -> (k, v) ∈ m -> (k, v) ∈ Leaderboard.set key value m.
Proof.
  intros Hne. induction m as [| [k' v'] rest IH]; cbn [Leaderboard.set];
    [by intros ?%elem_of_nil |].
  intros [[= <- <-] | Hin]%elem_of_cons.
  - destruct (String.eqb_spec k key); [done | by left].
  - destruct (String.eqb_spec k' key); right; [done | by apply IH].
Qed.

(** After [updateLocalLeaderboard] the keys are still distinct and every
    player written is cached with the chips of the state. *)
Lemma updateLocalLeaderboard_spec clock players m :
  NoDup (map fst m) ->
  NoDup (map PlayerInfo.name players) ->
  let m' := Leaderboard.updateLocalLeaderboard clock players m in
  NoDup (map fst m')
  /\ (forall p, p ∈ players ->
                exists cached,
                  (PlayerInfo.name p, cached) ∈ m'
                  /\ Leaderboard.chips cached = PlayerInfo.chips p)
  /\ (forall k v, (k, v) ∈ m' ->
                  (k, v) ∈ m
                  \/ exists p, p ∈ players /\ k = PlayerInfo.name p
                               /\ Leaderboard.chips v = PlayerInfo.chips p).
Proof.
  unfold Leaderboard.updateLocalLeaderboard. intros Hm Hplayers. cbn zeta.
  revert m Hm.
  enough (forall (g : nat -> nat) m,
            NoDup (map fst m) ->
            let m' :=
              fold_left
                (fun m ip =>
                   Leaderboard.set (PlayerInfo.name ip.2)
                     (Leaderboard.mkCached (PlayerInfo.name ip.2) (PlayerInfo.chips ip.2)
                        (Leaderboard.chainOf ip.2) (clock ip.1)) m)
                (imap (fun i p => (g i, p)) players) m in
            NoDup (map fst m')
            /\ (forall p, p ∈ players ->
                          exists cached,
                            (PlayerInfo.name p, cached) ∈ m'
                            /\ Leaderboard.chips cached = PlayerInfo.chips p)
            /\ (forall k v, (k, v) ∈ m' ->
                            (k, v) ∈ m
                            \/ exists p, p ∈ players /\ k = PlayerInfo.name p
                                         /\ Leaderboard.chips v = PlayerInfo.chips p))
    as H by (intros m Hm; exact (H (fun i => i) m Hm)).
  induction players as [| p rest IH]; intros g m Hm; cbn zeta.
  - cbn [imap fold_left]. split; [done |]. split; [by intros p ?%elem_of_nil |].
    intros k v Hin. by left.
  - cbn [imap]. rewrite fold_left_cons. cbn [fst snd].
    cbn [map] in Hplayers. apply NoDup_cons in Hplayers as [Hp Hrest].
    set (m1 := Leaderboard.set (PlayerInfo.name p) _ m).
    assert (NoDup (map fst m1)) as Hm1 by by apply leaderboard_set_NoDup.
    destruct (IH Hrest (g ∘ S) m1 Hm1) as (Hnd & Hall & Hfrom).
    split; [exact Hnd |]. split.
    + intros q [-> | Hq]%elem_of_cons; [| exact (Hall q Hq)].
      exists (Leaderboard.mkCached (PlayerInfo.name p) (PlayerInfo.chips p)
                (Leaderboard.chainOf p) (clock (g 0%nat))).
      split; [| reflexivity].
      (* the later writes are to other names *)
      assert (forall (h : nat -> nat) l m2 v,
                PlayerInfo.name p ∉ map PlayerInfo.name l ->
                (PlayerInfo.name p, v) ∈ m2 ->
                (PlayerInfo.name p, v)
                ∈ fold_left
                    (fun m ip =>
                       Leaderboard.set (PlayerInfo.name ip.2)
                         (Leaderboard.mkCached (PlayerInfo.name ip.2)
                            (PlayerInfo.chips ip.2) (Leaderboard.chainOf ip.2)
                            (clock ip.1)) m)
                    (imap (fun i p => (h i, p)) l) m2) as Hkeep.
      { clear. intros h l. revert h. induction l as [| q l IH]; intros h m2 v Hnot Hin;
          [done |].
        cbn [imap]. rewrite fold_left_cons. cbn [map] in Hnot.
        apply not_elem_of_cons in Hnot as [Hne Hnot].
        apply (IH (h ∘ S)); [done |]. by apply leaderboard_set_other. }
      apply (Hkeep (g ∘ S)); [done |]. apply leaderboard_set_present.
    + intros k v Hin. destruct (Hfrom k v Hin) as [Hin1 | (q & Hq & -> & Hc)].
      * destruct (leaderboard_set_lookup _ _ _ _ _ Hin1 Hm) as [[-> ->] | [_ Hold]].
        -- right. exists p. split; [by left | done].
        -- by left.
      * right. exists q. split; [by right | done].
Qed.

Lemma Sorted_weaken {A} (R R' : relation A) l :
  (forall a b, R a b -> R' a b) -> Sorted R l -> Sorted R' l.
Proof.
  intros Himpl. induction 1 as [| x l Hl IH Hhd]; constructor; [done |].
  destruct Hhd; constructor. by apply Himpl.
Qed.

(** X30.  The leaderboard [broadcastState] sends with a state lists at most
    ten players in non-increasing order of chips, each name once.  Every
    entry is a player of the cache, a seated player is listed with the
    chips of the state being sent, nobody left out has more chips than a
    player listed, and when the cache holds ten players or fewer every
    seated player is listed. *)
Theorem leaderboard_lists_the_richest clock newState m :
  NoDup (map fst m) ->
  NoDup (playerNames newState) ->
  let cache := (Leaderboard.broadcastState clock newState m).1 in
  let board := (Leaderboard.broadcastState clock newState m).2 in
  (length board <= 10)%nat
  /\ StronglySorted (fun a b => Leaderboard.entryChips b <= Leaderboard.entryChips a) board
  /\ NoDup (map Leaderboard.playerName board)
  /\ (forall e, e ∈ board ->
                exists cached,
                  (Leaderboard.playerName e, cached) ∈ cache
                  /\ Leaderboard.entryChips e = Leaderboard.chips cached
                  /\ Leaderboard.entryChainId e = Leaderboard.chainId cached)
  /\ (forall e p, e ∈ board -> p ∈ PokerGameState.players newState ->
                  Leaderboard.playerName e = PlayerInfo.name p ->
                  Leaderboard.entryChips e = PlayerInfo.chips p)
  /\ (forall e k v, e ∈ board -> (k, v) ∈ cache ->
                    k ∉ map Leaderboard.playerName board ->
                    Leaderboard.chips v <= Leaderboard.entryChips e)
  /\ ((length cache <= 10)%nat ->
      forall p, p ∈ PokerGameState.players newState ->
                PlayerInfo.name p ∈ map Leaderboard.playerName board).
Proof.
  intros Hm Hplayers. cbn zeta. unfold Leaderboard.broadcastState. cbn [fst snd].
  set (cache := if (0 <? length (PokerGameState.players newState))%nat
                then Leaderboard.updateLocalLeaderboard clock
                       (PokerGameState.players newState) m
                else m).
  assert (NoDup (map fst cache)
          /\ (forall p, p ∈ PokerGameState.players newState ->
                        exists cached,
                          (PlayerInfo.name p, cached) ∈ cache
                          /\ Leaderboard.chips cached = PlayerInfo.chips p))
    as [Hcache Hseated].
  { unfold cache. destruct (PokerGameState.players newState) as [| p0 rest] eqn:Hps.
    - cbn. split; [done |]. by intros p ?%elem_of_nil.
    - cbn [length Nat.ltb Nat.leb]. rewrite <- Hps.
      destruct (updateLocalLeaderboard_spec clock (PokerGameState.players newState) m
                  Hm Hplayers) as (H1 & H2 & _).
      done. }
  clearbody cache.
  set (entries :=
         map (fun kv : string * Leaderboard.Cached =>
                Leaderboard.mkEntry kv.1 (Leaderboard.chips kv.2)
                  (Leaderboard.chainId kv.2)) cache).
  set (sorted := Js.sort Leaderboard.byChips entries).
  assert (sorted ≡ₚ entries) as Hperm by apply sort_perm.
  assert (map Leaderboard.playerName entries = map fst cache) as Hnames.
  { unfold entries. rewrite map_map. by apply map_ext. }
  assert (StronglySorted
            (fun a b => Leaderboard.entryChips b <= Leaderboard.entryChips a) sorted)
    as Hsorted.
  { apply Sorted_StronglySorted; [intros a b c; lia |].
    pose proof (sort_sorted Leaderboard.byChips
                  ltac:(unfold Leaderboard.byChips; intros; lia) entries) as H.
    eapply Sorted_weaken; [| exact H].
    intros a b. unfold Leaderboard.byChips. cbn beta. lia. }
  assert (forall e, e ∈ sorted ->
                    exists cached,
                      (Leaderboard.playerName e, cached) ∈ cache
                      /\ Leaderboard.entryChips e = Leaderboard.chips cached
                      /\ Leaderboard.entryChainId e = Leaderboard.chainId cached)
    as Hfrom.
  { intros e He. rewrite Hperm in He.
    apply list_elem_of_fmap in He as ([k v] & -> & Hin). by exists v. }
  assert (forall k v v', (k, v) ∈ cache -> (k, v') ∈ cache -> v = v') as Hfun.
  { clear -Hcache. induction cache as [| [k0 v0] rest IH]; intros k v v' H1 H2;
      [by apply elem_of_nil in H1 |].
    cbn [map fst] in Hcache. apply NoDup_cons in Hcache as [Hk0 Hrest].
    apply elem_of_cons in H1 as [H1 | H1]; apply elem_of_cons in H2 as [H2 | H2].
    - congruence.
    - injection H1 as -> ->. exfalso. apply Hk0.
      by apply (list_elem_of_fmap_2 fst) in H2.
    - injection H2 as -> ->. exfalso. apply Hk0.
      by apply (list_elem_of_fmap_2 fst) in H1.
    - by apply (IH Hrest k). }
  rewrite <- (take_drop 10 sorted) in Hsorted.
  assert (forall e, e ∈ take 10 sorted -> e ∈ sorted) as Htake.
  { intros e He. by apply (sublist_subseteq _ _ (sublist_take sorted 10)). }
  split; [rewrite length_take; lia |].
  split; [by apply StronglySorted_app_1_l in Hsorted |].
  split.
  { apply (sublist_NoDup _ (map Leaderboard.playerName sorted));
      [| apply (fmap_sublist Leaderboard.playerName), sublist_take].
    by rewrite Hperm, Hnames. }
  split.
  { intros e He. by apply Hfrom, Htake. }
  split.
  { intros e p He Hp Hname.
    destruct (Hfrom e (Htake e He)) as (cached & Hin & Hchips & _).
    destruct (Hseated p Hp) as (cached' & Hin' & Hchips').
    rewrite Hname in Hin. rewrite (Hfun _ _ _ Hin Hin') in Hchips. congruence. }
  split.
  { intros e k v He Hin Hout.
    assert (Leaderboard.mkEntry k (Leaderboard.chips v) (Leaderboard.chainId v) ∈ sorted)
      as Hentry.
    { rewrite Hperm. unfold entries. apply list_elem_of_fmap. by exists (k, v). }
    rewrite <- (take_drop 10 sorted) in Hentry. apply elem_of_app in Hentry as [Hl | Hr].
    - exfalso. apply Hout. by apply (list_elem_of_fmap_2 Leaderboard.playerName) in Hl.
    - by apply (StronglySorted_app_1_elem_of _ _ _ _ _ Hsorted He Hr). }
  intros Hsmall p Hp.
  destruct (Hseated p Hp) as (cached & Hin & _).
  rewrite take_ge.
  - rewrite Hperm, Hnames. by apply (list_elem_of_fmap_2 fst) in Hin.
  - rewrite Hperm. unfold entries. rewrite length_map. lia.
Qed.

Lemma leaderboard_lists_the_richest_witness :
  let cache := (Leaderboard.broadcastState (fun _ => 0) headsUpWon []).1 in
  let board := (Leaderboard.broadcastState (fun _ => 0) headsUpWon []).2 in
  (length board <= 10)%nat
  /\ StronglySorted (fun a b => Leaderboard.entryChips b <= Leaderboard.entryChips a) board
  /\ NoDup (map Leaderboard.playerName board)
  /\ (forall e, e ∈ board ->
                exists cached,
                  (Leaderboard.playerName e, cached) ∈ cache
                  /\ Leaderboard.entryChips e = Leaderboard.chips cached
                  /\ Leaderboard.entryChainId e = Leaderboard.chainId cached)
  /\ (forall e p, e ∈ board -> p ∈ PokerGameState.players headsUpWon ->
                  Leaderboard.playerName e = PlayerInfo.name p ->
                  Leaderboard.entryChips e = PlayerInfo.chips p)
  /\ (forall e k v, e ∈ board -> (k, v) ∈ cache ->
                    k ∉ map Leaderboard.playerName board ->
                    Leaderboard.chips v <= Leaderboard.entryChips e)
  /\ ((length cache <= 10)%nat ->
      forall p, p ∈ PokerGameState.players headsUpWon ->
                PlayerInfo.name p ∈ map Leaderboard.playerName board).
Proof.
  apply (leaderboard_lists_the_richest (fun _ => 0) headsUpWon []).
  - constructor.
  - repeat constructor; rewrite ?elem_of_cons, ?elem_of_nil; intuition discriminate.
Defined.

(** ** What the rank of a hand says about the cards *)

Lemma occZ_nil v : occZ v [] = 0.
Proof. done. Qed.

Lemma occZ_cons v x l : occZ v (x :: l) = (if decide (x = v) then 1 else 0) + occZ v l.
Proof.
  unfold occZ. rewrite filter_cons. destruct (decide (x = v)); cbn [length]; lia.
Qed.

Lemma occZ_app v l1 l2 : occZ v (l1 ++ l2) = occZ v l1 + occZ v l2.
Proof. unfold occZ. rewrite filter_app, length_app. lia. Qed.

Lemma occZ_perm v l l' : l ≡ₚ l' -> occZ v l = occZ v l'.
Proof. intros H. unfold occZ. by rewrite H. Qed.

Lemma occZ_nonneg v l : 0 <= occZ v l.
Proof. unfold occZ. lia. Qed.

Lemma occZ_pos v l : 1 <= occZ v l <-> v ∈ l.
Proof.
  induction l as [| x l IH]; [rewrite occZ_nil, elem_of_nil; lia |].
  rewrite occZ_cons, elem_of_cons. pose proof (occZ_nonneg v l).
  destruct (decide (x = v)) as [-> | Hne]; [split; [by left | lia] |].
  rewrite Z.add_0_l, IH. split; [by right |]. intros [-> | ?]; done.
Qed.

(** The counts kept by [countUp]: keys in ascending order, each with the
    number of its occurrences so far. *)
Lemma countUp_spec v counts :
  StronglySorted Z.lt (map fst counts) ->
  StronglySorted Z.lt (map fst (countUp v counts))
  /\ forall k n,
       (k, n) ∈ countUp v counts
       <-> (k <> v /\ (k, n) ∈ counts)
           \/ (k = v /\ ((exists n0, (v, n0) ∈ counts /\ n = n0 + 1)
                         \/ ((forall n0, (v, n0) ∉ counts) /\ n = 1))).
Proof.
  induction counts as [| [k0 n0] rest IH]; intros Hsorted.
  - cbn [countUp map]. split; [by repeat constructor |].
    intros k n. rewrite list_elem_of_singleton.
    setoid_rewrite elem_of_nil. split.
    + intros [= -> ->]. right. split; [done |]. right. split; [by intros ? ? | done].
    + intros [[_ []] | [-> [(? & [] & _) | [_ ->]]]]. done.
  - cbn [map fst] in Hsorted. apply StronglySorted_cons in Hsorted as [Hall Hrest].
    rewrite Forall_forall in Hall.
    assert (Hkey : forall k n, (k, n) ∈ rest -> k0 < k).
    { intros k n Hin. apply Hall. by apply (list_elem_of_fmap_2 fst) in Hin. }
    cbn [countUp].
    destruct (Z.eqb_spec v k0) as [-> | Hne].
    + split; [by apply StronglySorted_cons; rewrite Forall_forall |].
      intros k n. repeat setoid_rewrite elem_of_cons. split.
      * intros [[= -> ->] | Hin].
        { right. split; [done |]. left. exists n0. split; [by left | done]. }
        left. split; [| by right]. apply Hkey in Hin. lia.
      * intros [[Hk [[= -> ->] | Hin]] | [-> [(n1 & [[= ->] | Hin] & ->) | [Hnot _]]]].
        -- done.
        -- by right.
        -- by left.
        -- apply Hkey in Hin. lia.
        -- exfalso. apply (Hnot n0). by left.
    + destruct (Z.ltb_spec v k0) as [Hlt | Hge].
      * split.
        { cbn [map fst]. apply StronglySorted_cons. split.
          - apply Forall_cons. split; [done |]. apply Forall_forall.
            intros x Hx. apply Hall in Hx. lia.
          - by apply StronglySorted_cons; rewrite Forall_forall. }
        intros k n. repeat setoid_rewrite elem_of_cons. split.
        -- intros [[= -> ->] | [[= -> ->] | Hin]].
           ++ right. split; [done |]. right. split; [| done].
              intros n1 [[= ? ?] | Hin]; [lia |]. apply Hkey in Hin. lia.
           ++ left. split; [lia | by left].
           ++ left. split; [| by right]. apply Hkey in Hin. lia.
        -- intros [[Hk [[= -> ->] | Hin]] | [-> [(n1 & [[= ? ?] | Hin] & ->) | [_ ->]]]].
           ++ right. by left.
           ++ right. by right.
           ++ lia.
           ++ apply Hkey in Hin. lia.
           ++ by left.
      * destruct (IH Hrest) as [Hsorted' Hspec]. split.
        { cbn [map fst]. apply StronglySorted_cons. split; [| done].
          apply Forall_forall. intros x Hx.
          apply list_elem_of_fmap in Hx as ([k n] & -> & Hin). cbn [fst].
          apply Hspec in Hin as [[_ Hin] | [-> _]]; [| lia].
          by apply Hkey in Hin. }
        intros k n. rewrite elem_of_cons, Hspec. setoid_rewrite elem_of_cons.
        split.
        -- intros [[= -> ->] | [[Hk Hin] | [-> H]]].
           ++ left. split; [done | by left].
           ++ left. split; [done | by right].
           ++ right. split; [done |].
              destruct H as [(n1 & Hin & ->) | [Hnot ->]].
              ** left. exists n1. split; [by right | done].
              ** right. split; [| done]. intros n1 [[= ? ?] | Hin]; [lia |].
                 by apply (Hnot n1).
        -- intros [[Hk [[= -> ->] | Hin]] | [-> [(n1 & [[= ? ?] | Hin] & ->) | [Hnot ->]]]].
           ++ by left.
           ++ right. left. done.
           ++ lia.
           ++ right. right. split; [done |]. left. by exists n1.
           ++ right. right. split; [done |]. right. split; [| done].
              intros n1 Hin. apply (Hnot n1). by right.
Qed.

Lemma counts_spec values :
  let counts := fold_left (fun counts v => countUp v counts) values [] in
  StronglySorted Z.lt (map fst counts)
  /\ forall k n, (k, n) ∈ counts <-> n = occZ k values /\ 1 <= n.
Proof.
  induction values as [| v l IH] using rev_ind.
  - cbn. split; [constructor |]. intros k n. rewrite elem_of_nil, occZ_nil. lia.
  - cbv zeta in *. rewrite fold_left_app. cbn [fold_left].
    destruct IH as [Hsorted IH].
    destruct (countUp_spec v _ Hsorted) as [Hsorted' Hspec].
    split; [done |]. intros k n. rewrite Hspec, occZ_app, occZ_cons, occZ_nil.
    pose proof (occZ_nonneg v l) as Hv.
    destruct (decide (v = k)) as [-> | Hne]; split.
    + intros [[? _] | [_ [(n0 & Hin & ->) | [Hnot ->]]]]; [done | |].
      * apply IH in Hin. lia.
      * destruct (decide (1 <= occZ k l)) as [Hpos |]; [| lia].
        exfalso. apply (Hnot (occZ k l)), IH. done.
    + intros [-> Hn]. right. split; [done |].
      destruct (decide (1 <= occZ k l)) as [Hpos | Hzero].
      * left. exists (occZ k l). split; [by apply IH | lia].
      * right. split; [| lia]. intros n0 Hin%IH. lia.
    + intros [[_ Hin%IH] | [-> _]]; [lia | done].
    + intros [-> Hn]. left. split; [done |]. apply IH. lia.
Qed.

Lemma occZ_le_length v l : occZ v l <= Z.of_nat (length l).
Proof. unfold occZ. pose proof (length_filter (fun x => x = v) l). lia. Qed.

Lemma occZ_two v w l : v <> w -> occZ v l + occZ w l <= Z.of_nat (length l).
Proof.
  intros Hne. induction l as [| x l IH]; [rewrite !occZ_nil; cbn; lia |].
  rewrite !occZ_cons. cbn [length]. repeat case_decide; subst; lia.
Qed.

Lemma occZ_three u v w l :
  u <> v -> u <> w -> v <> w ->
  occZ u l + occZ v l + occZ w l <= Z.of_nat (length l).
Proof.
  intros Huv Huw Hvw. induction l as [| x l IH]; [rewrite !occZ_nil; cbn; lia |].
  rewrite !occZ_cons. cbn [length]. repeat case_decide; subst; lia.
Qed.

Lemma StronglySorted_lt_NoDup (l : list Z) : StronglySorted Z.lt l -> NoDup l.
Proof.
  induction 1 as [| x l Hl IH Hall]; constructor; [| done].
  rewrite Forall_forall in Hall. intros Hin%Hall. lia.
Qed.

(** The entries of [countValues]: one per value of the hand, with the number
    of cards of that value, the most frequent first and, among equally
    frequent ones, the highest first. *)
Lemma countValues_spec values :
  let countValues :=
    Js.sort byCountThenValue (fold_left (fun counts v => countUp v counts) values []) in
  (forall k n, (k, n) ∈ countValues <-> n = occZ k values /\ 1 <= n)
  /\ NoDup (map fst countValues)
  /\ StronglySorted (fun a b => b.2 < a.2 \/ (b.2 = a.2 /\ b.1 <= a.1)) countValues.
Proof.
  cbv zeta. destruct (counts_spec values) as [Hsorted Hspec]. cbv zeta in *.
  split; [| split].
  - intros k n. by rewrite sort_perm.
  - rewrite sort_perm. by apply StronglySorted_lt_NoDup.
  - apply Sorted_StronglySorted.
    + intros a b c. lia.
    + eapply Sorted_weaken; [| apply sort_sorted].
      * intros a b. unfold byCountThenValue. destruct (Z.eqb_spec (b.2 - a.2) 0); lia.
      * intros a b. unfold byCountThenValue.
        destruct (Z.eqb_spec (b.2 - a.2) 0), (Z.eqb_spec (a.2 - b.2) 0); lia.
Qed.

Lemma existsb_eqb_elem (v : Z) seen : existsb (Z.eqb v) seen = true <-> v ∈ seen.
Proof.
  rewrite existsb_exists. split.
  - intros (x & Hin%list_elem_of_In & ->%Z.eqb_eq). done.
  - intros Hin. exists v. split; [by apply list_elem_of_In | apply Z.eqb_refl].
Qed.

Lemma uniqueOf_length_le seen l : (length (uniqueOf seen l) <= length l)%nat.
Proof.
  revert seen. induction l as [| v l IH]; intros seen; [done |].
  cbn [uniqueOf length]. destruct (existsb _ seen); cbn [length].
  - specialize (IH seen). lia.
  - specialize (IH (v :: seen)). lia.
Qed.

Lemma uniqueOf_NoDup seen l :
  NoDup l -> (forall x, x ∈ l -> x ∉ seen) -> uniqueOf seen l = l.
Proof.
  revert seen. induction l as [| v l IH]; intros seen Hnd Hseen; [done |].
  apply NoDup_cons in Hnd as [Hv Hnd]. cbn [uniqueOf].
  destruct (existsb _ seen) eqn:Hex.
  - apply existsb_eqb_elem in Hex. exfalso. apply (Hseen v); [by left | done].
  - f_equal. apply IH; [done |].
    intros x Hx [-> | Hin]%elem_of_cons; [done |]. apply (Hseen x); [by right | done].
Qed.

Lemma uniqueOf_full seen l :
  length (uniqueOf seen l) = length l -> NoDup l /\ forall x, x ∈ l -> x ∉ seen.
Proof.
  revert seen. induction l as [| v l IH]; intros seen Hlen.
  - split; [constructor | by intros x ?%elem_of_nil].
  - cbn [uniqueOf length] in Hlen. destruct (existsb _ seen) eqn:Hex.
    + pose proof (uniqueOf_length_le seen l). lia.
    + cbn [length] in Hlen. destruct (IH (v :: seen)) as [Hnd Hseen]; [lia |].
      split.
      * constructor; [| done]. intros Hin. apply (Hseen v Hin). by left.
      * intros x [-> | Hin]%elem_of_cons.
        -- intros Hin. apply existsb_eqb_elem in Hin. congruence.
        -- intros Hx. apply (Hseen x Hin). by right.
Qed.

(** The straight test of [evaluate5Cards] on the five values in descending
    order: it finds exactly the runs of five consecutive values and the
    wheel. *)
Lemma straight_spec values :
  length values = 5%nat ->
  Sorted (fun a b => descending a b <= 0) values ->
  let uniqueValues := Js.sort descending (uniqueOf [] values) in
  let straight :=
    if (length uniqueValues =? 5)%nat then
      let '(isStraight, straightHigh) :=
        if orZero (uniqueValues !! 0%nat) - orZero (uniqueValues !! 4%nat) =? 4
        then (true, orZero (uniqueValues !! 0%nat)) else (false, 0) in
      if (orZero (uniqueValues !! 0%nat) =? 14)
         && (orZero (uniqueValues !! 1%nat) =? 5)
         && (orZero (uniqueValues !! 4%nat) =? 2)
      then (true, 5) else (isStraight, straightHigh)
    else (false, 0) in
  if straight.1
  then values = [straight.2; straight.2 - 1; straight.2 - 2; straight.2 - 3; straight.2 - 4]
       \/ (straight.2 = 5 /\ values = [14; 5; 4; 3; 2])
  else (forall h, values <> [h; h - 1; h - 2; h - 3; h - 4])
       /\ values <> [14; 5; 4; 3; 2].
Proof.
  intros Hlen Hsorted. cbv zeta.
  rewrite (Permutation_length (sort_perm descending (uniqueOf [] values))).
  destruct (Nat.eqb_spec (length (uniqueOf [] values)) 5) as [Hfive | Hfew].
  - destruct (uniqueOf_full [] values) as [Hnd _]; [lia |].
    rewrite uniqueOf_NoDup by (done || intros x _; apply not_elem_of_nil).
    assert (Js.sort descending values = values) as ->.
    { assert (Transitive (fun a b => descending a b <= 0))
        by (intros x y z; unfold descending; lia).
      assert (AntiSymm (=) (fun a b => descending a b <= 0))
        by (intros x y; unfold descending; lia).
      apply (Sorted_unique (fun a b => descending a b <= 0)).
      - apply sort_sorted. unfold descending. lia.
      - done.
      - apply sort_perm. }
    destruct values as [| a [| b [| c [| d [| e [| ? ?]]]]]]; try done.
    unfold orZero. cbn [lookup list_lookup from_option id].
    repeat match goal with
           | H : Sorted _ (_ :: _) |- _ => apply Sorted_inv in H as [H ?]
           | H : HdRel _ _ (_ :: _) |- _ => apply HdRel_inv in H
           | H : NoDup (_ :: _) |- _ => apply NoDup_cons in H as [? H]
           end.
    repeat match goal with
           | H : _ ∉ _ :: _ |- _ => apply not_elem_of_cons in H as [? H]
           end.
    unfold descending in *.
    destruct (Z.eqb_spec (a - e) 4), (Z.eqb_spec a 14), (Z.eqb_spec b 5),
      (Z.eqb_spec e 2); cbn [andb fst snd].
    all: try (left; repeat f_equal; lia).
    all: try (right; split; [done |]; repeat f_equal; lia).
    all: split; [intros h [= -> -> -> -> ->] | intros [= -> -> -> -> ->]]; lia.
  - cbn [fst snd].
    assert (~ NoDup values) as Hdup.
    { intros Hnd. apply Hfew. rewrite uniqueOf_NoDup; [done.. |].
      intros x _. apply not_elem_of_nil. }
    split; [intros h -> | intros ->]; apply Hdup.
    all: repeat constructor; rewrite ?elem_of_cons, ?elem_of_nil; lia.
Qed.

Lemma occurrences_sorted v cards :
  occurrences v cards = occZ v (Js.sort descending (valuesOf cards)).
Proof. unfold occurrences. symmetry. apply occZ_perm, sort_perm. Qed.

Lemma sameSuit_spec cards :
  match map Card.suit cards with
  | [] => true
  | s0 :: _ => forallb (fun s => String.eqb s s0) (map Card.suit cards)
  end = true
  <-> sameSuit cards.
Proof.
  rewrite same_suit_spec. unfold sameSuit. split.
  - intros H c c' Hc Hc'. apply H; by apply list_elem_of_fmap_2.
  - intros H a b (c & -> & Hc)%list_elem_of_fmap (c' & -> & Hc')%list_elem_of_fmap.
    by apply H.
Qed.

Lemma straightTo_sorted h cards :
  straightTo h cards
  <-> Js.sort descending (valuesOf cards) = [h; h - 1; h - 2; h - 3; h - 4]
      \/ (h = 5 /\ Js.sort descending (valuesOf cards) = [14; 5; 4; 3; 2]).
Proof.
  assert (Hrun : forall l a b c d e,
            b <= a -> c <= b -> d <= c -> e <= d ->
            l ≡ₚ [a; b; c; d; e] <-> Js.sort descending l = [a; b; c; d; e]).
  { intros l a b c d e Hab Hbc Hcd Hde. split.
    - intros Hperm. rewrite (sort_descending_perm _ _ Hperm).
      unfold Js.sort, descending. cbn [foldr Js.sort_insert].
      repeat match goal with
             | |- context [?x <=? ?y] =>
                 destruct (Z.leb_spec x y); [| lia]; cbn [Js.sort_insert]
             end.
      done.
    - intros <-. symmetry. apply sort_perm. }
  unfold straightTo. rewrite (Hrun _ h) by lia. by rewrite (Hrun _ 14) by lia.
Qed.

Lemma occZ_NoDup v l : NoDup l -> occZ v l <= 1.
Proof.
  induction 1 as [| x l Hx Hl IH]; [by rewrite occZ_nil |].
  rewrite occZ_cons. destruct (decide (x = v)) as [-> | ?]; [| lia].
  destruct (decide (1 <= occZ v l)) as [Hin%occZ_pos |]; [done | lia].
Qed.

Lemma sumZ_elem (l : list (Z * Z)) k n :
  Forall (fun kn => 0 <= kn.2) l -> (k, n) ∈ l -> n <= sumZ (map snd l).
Proof.
  unfold sumZ. induction 1 as [| [k' n'] l Hhd Hl IH]; [by intros ?%elem_of_nil |].
  cbn [map foldr snd] in *. intros [[= -> ->] | Hin]%elem_of_cons.
  - assert (0 <= foldr Z.add 0 (map snd l)); [| lia].
    clear IH. induction Hl as [| [] ? ? ? IH']; cbn [map foldr snd] in *; lia.
  - apply IH in Hin. lia.
Qed.

Lemma countValues_entries values (countValues : list (Z * Z)) :
  (forall k n, (k, n) ∈ countValues <-> n = occZ k values /\ 1 <= n) ->
  NoDup (map fst countValues) ->
  StronglySorted (fun a b => b.2 < a.2 \/ (b.2 = a.2 /\ b.1 <= a.1)) countValues ->
  sumZ (map snd countValues) = 5 ->
  match countValues with
  | [] => False
  | (v0, n0) :: entries =>
      n0 = occZ v0 values /\ 1 <= n0
      /\ (forall v, 1 <= occZ v values -> occZ v values <= n0)
      /\ match entries with
         | [] => n0 = 5
         | (v1, n1) :: rest =>
             n1 = occZ v1 values /\ 1 <= n1 /\ v0 <> v1
             /\ (n1 = n0 -> v1 < v0)
             /\ (forall v, v <> v0 -> 1 <= occZ v values -> occZ v values <= n1)
             /\ (n0 + n1 = 5 \/ exists k, k <> v0 /\ k <> v1 /\ k ∈ values)
         end
      end.
Proof.
  intros Hspec Hnodup Hss Hsum.
  destruct countValues as [| [v0 n0] entries]; [done |].
  apply StronglySorted_inv in Hss as [Hss Hhead]. rewrite Forall_forall in Hhead.
  cbn [map fst] in Hnodup. apply NoDup_cons in Hnodup as [Hv0 Hnodup].
  destruct (proj1 (Hspec v0 n0)) as [Hn0 Hpos0]; [by left |].
  split; [done |]. split; [done |]. split.
  { intros v Hv.
    assert (Hin : (v, occZ v values) ∈ (v0, n0) :: entries) by (by apply Hspec).
    apply elem_of_cons in Hin as [[= -> Heq] | Hin]; [lia |].
    apply Hhead in Hin. cbn [fst snd] in Hin. lia. }
  destruct entries as [| [v1 n1] rest]; [unfold sumZ in Hsum; cbn in Hsum; lia |].
  apply StronglySorted_inv in Hss as [Hss Hsecond]. rewrite Forall_forall in Hsecond.
  cbn [map fst] in Hnodup. apply NoDup_cons in Hnodup as [Hv1 Hnodup].
  destruct (proj1 (Hspec v1 n1)) as [Hn1 Hpos1]; [by right; left |].
  assert (Hne : v0 <> v1).
  { intros ->. apply Hv0. by left. }
  split; [done |]. split; [done |]. split; [done |]. split.
  { intros Heq. specialize (Hhead (v1, n1)). cbn [fst snd] in Hhead.
    destruct Hhead; [by left | lia | lia]. }
  split.
  { intros v Hv0' Hv.
    assert (Hin : (v, occZ v values) ∈ (v0, n0) :: (v1, n1) :: rest) by (by apply Hspec).
    apply elem_of_cons in Hin as [[= ? ?] | Hin]; [done |].
    apply elem_of_cons in Hin as [[= -> Heq] | Hin]; [lia |].
    apply Hsecond in Hin. cbn [fst snd] in Hin. lia. }
  destruct rest as [| [k n] rest]; [left; unfold sumZ in Hsum; cbn in Hsum; lia |].
  right. exists k. split; [| split].
  - intros ->. apply Hv0. right. by left.
  - intros ->. apply Hv1. by left.
  - destruct (proj1 (Hspec k n)) as [-> Hpos]; [by do 2 right; left |].
    by apply occZ_pos.
Qed.

(** What the counts say about one more value [v]. *)
Ltac occ_facts Hle Hmax Htwo Hsecond v0 v :=
  pose proof (Hle v);
  destruct (decide (v = v0)) as [-> |];
  [| pose proof (Htwo v v0 ltac:(done));
     pose proof (Hmax v);
     pose proof (Hsecond v ltac:(done))].

(** X8.  The rank [evaluate5Cards] gives to five cards says what they hold,
    and its high cards are the values that decide between hands of that
    rank.  A royal or straight flush is five cards of one suit whose values
    are consecutive (the wheel A 2 3 4 5 counts, with 5 on top; royal means
    ace on top); four of a kind and full house are a value held four times,
    or one held three times and one twice; a flush is five cards of one suit
    that are none of these; a straight is not of one suit; three of a kind,
    two pair and one pair come without anything better, the pairs listed
    highest first and followed by the other values in descending order; a
    high card hand has no straight, no single suit and no value held two,
    three or four times. *)
Theorem evaluate5Cards_names_the_hand cards :
  length cards = 5%nat ->
  exists hand,
    evaluate5Cards cards = Some hand
    /\ match Hand.rank hand with
       | 10 =>
           sameSuit cards /\ straightTo 14 cards /\ Hand.highCards hand = [14]
       | 9 =>
           sameSuit cards
           /\ exists h, h <> 14 /\ straightTo h cards /\ Hand.highCards hand = [h]
       | 8 =>
           exists v w,
             occurrences v cards = 4 /\ occurrences w cards = 1
             /\ Hand.highCards hand = [v; w]
       | 7 =>
           exists v w,
             occurrences v cards = 3 /\ occurrences w cards = 2
             /\ Hand.highCards hand = [v; w]
       | 6 =>
           sameSuit cards
           /\ ~ (exists h, straightTo h cards)
           /\ (forall v, occurrences v cards <> 4)
           /\ ~ (exists v w, occurrences v cards = 3 /\ occurrences w cards = 2)
           /\ Hand.highCards hand = Js.sort descending (valuesOf cards)
       | 5 =>
           ~ sameSuit cards
           /\ exists h, straightTo h cards /\ Hand.highCards hand = [h]
       | 4 =>
           ~ sameSuit cards
           /\ exists v,
               occurrences v cards = 3
               /\ (forall w, occurrences w cards <> 2)
               /\ Hand.highCards hand
                  = v :: filter (fun x => x <> v) (Js.sort descending (valuesOf cards))
       | 3 =>
           ~ sameSuit cards
           /\ exists v w k,
               w < v /\ occurrences v cards = 2 /\ occurrences w cards = 2
               /\ occurrences k cards = 1
               /\ Hand.highCards hand = [v; w; k]
       | 2 =>
           ~ sameSuit cards
           /\ exists v,
               occurrences v cards = 2
               /\ (forall w, w <> v -> occurrences w cards <= 1)
               /\ Hand.highCards hand
                  = v :: filter (fun x => x <> v) (Js.sort descending (valuesOf cards))
       | 1 =>
           ~ sameSuit cards
           /\ ~ (exists h, straightTo h cards)
           /\ (forall v,
                 occurrences v cards <> 2 /\ occurrences v cards <> 3
                 /\ occurrences v cards <> 4)
           /\ Hand.highCards hand = Js.sort descending (valuesOf cards)
       | _ => False
       end.
Proof.
  intros Hlen.
  set (values0 := Js.sort descending (valuesOf cards)).
  assert (Hocc : forall v, occurrences v cards = occZ v values0)
    by (intros v; apply occurrences_sorted).
  assert (Hflush := sameSuit_spec cards).
  assert (Hstr : forall h,
            straightTo h cards
            <-> values0 = [h; h - 1; h - 2; h - 3; h - 4]
                \/ (h = 5 /\ values0 = [14; 5; 4; 3; 2]))
    by (intros h; apply straightTo_sorted).
  unfold evaluate5Cards.
  change (map (fun c => getCardValue (Card.rank c)) cards) with (valuesOf cards).
  fold values0.
  set (values := values0) in *.
  assert (Hvalues : length values = 5%nat).
  { unfold values, values0, valuesOf.
    by rewrite (Permutation_length (sort_perm _ _)), length_map. }
  assert (Hsorted : Sorted (fun a b => descending a b <= 0) values).
  { apply sort_sorted. unfold descending. lia. }
  pose proof (straight_spec values Hvalues Hsorted) as Hstraight. cbv zeta in Hstraight.
  pose proof (countValues_spec values) as (Hspec & Hnodup & Hss). cbv zeta in Hspec, Hnodup, Hss.
  set (uniqueValues := Js.sort descending (uniqueOf [] values)) in *.
  set (countValues :=
         Js.sort byCountThenValue
           (fold_left (fun counts v => countUp v counts) values [])) in *.
  assert (Hsum : sumZ (map snd countValues) = 5).
  { unfold countValues.
    rewrite (sumZ_perm _ _ (fmap_Permutation snd _ _ (sort_perm _ _))).
    rewrite counts_total, Hvalues. done. }
  assert (Hle : forall v, 0 <= occZ v values <= 5).
  { intros v. pose proof (occZ_nonneg v values). pose proof (occZ_le_length v values). lia. }
  assert (Htwo : forall v w, v <> w -> occZ v values + occZ w values <= 5).
  { intros v w Hne. pose proof (occZ_two v w values Hne). lia. }
  assert (Hthree : forall u v w, u <> v -> u <> w -> v <> w ->
                     occZ u values + occZ v values + occZ w values <= 5).
  { intros u v w ? ? ?. pose proof (occZ_three u v w values). lia. }
  clearbody countValues.
  set (straight :=
         if (length uniqueValues =? 5)%nat then
           let '(isStraight, straightHigh) :=
             if orZero (uniqueValues !! 0%nat) - orZero (uniqueValues !! 4%nat) =? 4
             then (true, orZero (uniqueValues !! 0%nat)) else (false, 0) in
           if (orZero (uniqueValues !! 0%nat) =? 14)
              && (orZero (uniqueValues !! 1%nat) =? 5)
              && (orZero (uniqueValues !! 4%nat) =? 2)
           then (true, 5) else (isStraight, straightHigh)
         else (false, 0)) in *.
  clearbody straight uniqueValues.
  destruct straight as [isStraight straightHigh]. cbn [fst snd] in Hstraight.
  assert (Hdistinct : isStraight = true -> forall v, occZ v values <= 1).
  { intros -> v. apply occZ_NoDup.
    destruct Hstraight as [-> | [_ ->]]; repeat constructor;
      rewrite ?elem_of_cons, ?elem_of_nil; lia. }
  assert (Hrun : isStraight = true -> straightTo straightHigh cards).
  { intros ->. by apply Hstr. }
  assert (Hnorun : isStraight = false -> ~ exists h, straightTo h cards).
  { intros -> [h [Hh | [_ Hh]]%Hstr]; destruct Hstraight as [Hno Hwheel]; [| done].
    by apply (Hno h). }
  clear Hstraight Hstr.
  destruct (match map Card.suit cards with [] => true | s0 :: _ => _ end).
  all: [> assert (Hs : sameSuit cards) by (by apply Hflush)
        | assert (Hs : ~ sameSuit cards) by (by intros ?%Hflush) ]; clear Hflush.
  all: destruct isStraight; cbn [andb].
  all: try specialize (Hdistinct eq_refl); try specialize (Hrun eq_refl);
    try specialize (Hnorun eq_refl).
  all: try (destruct (Z.eqb_spec straightHigh 14) as [-> | Hhigh];
            eexists; (split; [reflexivity |]); cbn [Hand.rank Hand.highCards];
            unfold HAND_RANKS.ROYAL_FLUSH, HAND_RANKS.STRAIGHT_FLUSH;
            [done | split; [done |]; by exists straightHigh]).
  all: pose proof (countValues_entries values countValues Hspec Hnodup Hss Hsum) as Hcv.
  all: clear Hspec Hnodup Hss Hsum.
  all: destruct countValues as [| [v0 n0] [| [v1 n1] rest]]; [done | |].
  all: destruct Hcv as (Hn0 & Hp0 & Hmax & Hcv).
  all: try (destruct Hcv as (Hn1 & Hp1 & Hne & Htie & Hsecond & Hrest);
            pose proof (Htwo v0 v1 Hne); pose proof (Hmax v1 ltac:(lia))).
  all: try (assert (Hsecond : forall v, v <> v0 -> 1 <= occZ v values -> occZ v values <= 0)
              by (intros v Hv; specialize (Htwo v v0 Hv); lia)).
  all: try pose proof (Hdistinct v0).
  all: cbn [lookup list_lookup mbind option_bind fst snd].
  all: repeat match goal with
              | |- context [?a =? ?b] => destruct (Z.eqb_spec a b)
              end;
         cbn [mbind option_bind]; try lia.
  all: eexists; (split; [reflexivity |]); cbn [Hand.rank Hand.highCards].
  all: unfold HAND_RANKS.FOUR_OF_A_KIND, HAND_RANKS.FULL_HOUSE, HAND_RANKS.FLUSH,
         HAND_RANKS.STRAIGHT, HAND_RANKS.THREE_OF_A_KIND, HAND_RANKS.TWO_PAIR,
         HAND_RANKS.ONE_PAIR, HAND_RANKS.HIGH_CARD; cbv beta iota.
  all: repeat match goal with
              | |- _ /\ _ => split
              | |- sameSuit _ => done
              | |- ~ sameSuit _ => done
              | |- ~ (exists h, straightTo h _) => done
              | |- ?x = ?x => done
              | |- exists h, straightTo h _ /\ _ => by exists straightHigh
              | |- exists v w, _ = 4 /\ _ => exists v0, v1; rewrite !Hocc
              | |- exists v w, _ = 3 /\ _ => exists v0, v1; rewrite !Hocc
              | |- exists v, _ = 3 /\ _ => exists v0; rewrite !Hocc
              | |- exists v, _ = 2 /\ _ => exists v0; rewrite !Hocc
              | |- forall v, _ =>
                  intros v; rewrite !Hocc; occ_facts Hle Hmax Htwo Hsecond v0 v
              | |- ~ (exists v w, _) =>
                  intros (v & w & Hv & Hw); rewrite !Hocc in Hv, Hw;
                  occ_facts Hle Hmax Htwo Hsecond v0 v;
                  occ_facts Hle Hmax Htwo Hsecond v0 w
              | |- _ => lia
              end.
  assert (Js.sort descending [v0; v1] = [v0; v1]) as ->.
  { unfold Js.sort, descending. cbn [foldr Js.sort_insert].
    destruct (Z.leb_spec (v1 - v0) 0); [done | lia]. }
  unfold orZero at 2 3. cbn [lookup list_lookup from_option id app].
  destruct (find _ values) as [k |] eqn:Hfind.
  - apply find_some in Hfind as [Hk%list_elem_of_In%(occZ_pos k) Hkne].
    exists v0, v1, k. rewrite !Hocc.
    assert (k <> v0 /\ k <> v1) as [? ?]
      by (split; intros ->; rewrite Z.eqb_refl in Hkne; cbn in Hkne;
          rewrite ?andb_false_r in Hkne; done).
    pose proof (Hthree k v0 v1 ltac:(done) ltac:(done) ltac:(done)).
    repeat split; (done || lia).
  - exfalso. destruct Hrest as [? | (k & Hk0 & Hk1 & Hin)]; [lia |].
    apply list_elem_of_In in Hin. apply (find_none _ _ Hfind) in Hin.
    apply andb_false_iff in Hin as [Hin | Hin]; apply negb_false_iff, Z.eqb_eq in Hin; done.
Qed.

Lemma evaluate5Cards_names_the_hand_witness :
  exists hand,
    evaluate5Cards (take 5 createDeck) = Some hand
    /\ match Hand.rank hand with
       | 10 =>
           sameSuit (take 5 createDeck) /\ straightTo 14 (take 5 createDeck) /\ Hand.highCards hand = [14]
       | 9 =>
           sameSuit (take 5 createDeck)
           /\ exists h, h <> 14 /\ straightTo h (take 5 createDeck) /\ Hand.highCards hand = [h]
       | 8 =>
           exists v w,
             occurrences v (take 5 createDeck) = 4 /\ occurrences w (take 5 createDeck) = 1
             /\ Hand.highCards hand = [v; w]
       | 7 =>
           exists v w,
             occurrences v (take 5 createDeck) = 3 /\ occurrences w (take 5 createDeck) = 2
             /\ Hand.highCards hand = [v; w]
       | 6 =>
           sameSuit (take 5 createDeck)
           /\ ~ (exists h, straightTo h (take 5 createDeck))
           /\ (forall v, occurrences v (take 5 createDeck) <> 4)
           /\ ~ (exists v w, occurrences v (take 5 createDeck) = 3 /\ occurrences w (take 5 createDeck) = 2)
           /\ Hand.highCards hand = Js.sort descending (valuesOf (take 5 createDeck))
       | 5 =>
           ~ sameSuit (take 5 createDeck)
           /\ exists h, straightTo h (take 5 createDeck) /\ Hand.highCards hand = [h]
       | 4 =>
           ~ sameSuit (take 5 createDeck)
           /\ exists v,
               occurrences v (take 5 createDeck) = 3
               /\ (forall w, occurrences w (take 5 createDeck) <> 2)
               /\ Hand.highCards hand
                  = v :: filter (fun x => x <> v) (Js.sort descending (valuesOf (take 5 createDeck)))
       | 3 =>
           ~ sameSuit (take 5 createDeck)
           /\ exists v w k,
               w < v /\ occurrences v (take 5 createDeck) = 2 /\ occurrences w (take 5 createDeck) = 2
               /\ occurrences k (take 5 createDeck) = 1
               /\ Hand.highCards hand = [v; w; k]
       | 2 =>
           ~ sameSuit (take 5 createDeck)
           /\ exists v,
               occurrences v (take 5 createDeck) = 2
               /\ (forall w, w <> v -> occurrences w (take 5 createDeck) <= 1)
               /\ Hand.highCards hand
                  = v :: filter (fun x => x <> v) (Js.sort descending (valuesOf (take 5 createDeck)))
       | 1 =>
           ~ sameSuit (take 5 createDeck)
           /\ ~ (exists h, straightTo h (take 5 createDeck))
           /\ (forall v,
                 occurrences v (take 5 createDeck) <> 2 /\ occurrences v (take 5 createDeck) <> 3
                 /\ occurrences v (take 5 createDeck) <> 4)
           /\ Hand.highCards hand = Js.sort descending (valuesOf (take 5 createDeck))
       | _ => False
       end.
Proof.
  apply (evaluate5Cards_names_the_hand (take 5 createDeck)). reflexivity.
Defined.
